(** * Email classification and todo extraction: a shallow embedding

    The two heuristic engines of the service, the classes
    [EmailCategorizationService] (services/email-categorization) and
    [TodoExtractionService] (services/todo-extraction), are written over
    the string, regular-expression and date operations of their host
    language.  The file first models those host operations ([JS],
    [RegExp]), then transcribes the two services function by function,
    together with their batch methods, the processor that runs both
    engines and stores their results ([AIEmailProcessorService]), and the
    header and address parsing of [GmailFetcherService].  The properties
    of the specification follow, and further properties of the code close
    the file. *)

From Stdlib Require Import String Ascii List Bool Arith ZArith QArith Lia Lqa.
From Stdlib Require Import Permutation Sorted.
Import ListNotations.
Local Open Scope string_scope.
Local Open Scope nat_scope.

(* ================================================================== *)
(** ** Host values, completions and string primitives *)

Module JS.

(** A string is a sequence of code units; the model keeps the code units
    U+0000..U+00FF, one [ascii] each. *)

(** The values a caller can pass where a [string] is declared
    (the tests pass [null as any] and [undefined as any]). *)
Inductive JSVal :=
| JNull
| JUndefined
| JStr (s : string).

Inductive Exn :=
| TypeError (what : string).

(** Outcome of evaluating a block: a value, or a thrown exception. *)
Inductive Completion (A : Type) :=
| Normal (a : A)
| Throw (e : Exn).
Arguments Normal {A} a.
Arguments Throw {A} e.

Definition bind {A B} (m : Completion A) (f : A -> Completion B) : Completion B :=
  match m with
  | Normal a => f a
  | Throw e => Throw e
  end.

(** [try { m } catch (error) { h }] *)
Definition try_catch {A} (m : Completion A) (h : Exn -> Completion A) : Completion A :=
  match m with
  | Normal a => Normal a
  | Throw e => h e
  end.

(** Receiver of a method call such as [v.toLowerCase()]: property access
    on [null] or [undefined] throws a TypeError. *)
Definition receiver (v : JSVal) : Completion string :=
  match v with
  | JStr s => Normal s
  | JNull => Throw (TypeError "Cannot read properties of null")
  | JUndefined => Throw (TypeError "Cannot read properties of undefined")
  end.

(** ToString, as applied by template literals and by [+] on strings. *)
Definition ToString (v : JSVal) : string :=
  match v with
  | JStr s => s
  | JNull => "null"
  | JUndefined => "undefined"
  end.

Definition code (c : ascii) : nat := nat_of_ascii c.

Definition in_range (lo hi : nat) (c : ascii) : bool :=
  (lo <=? code c) && (code c <=? hi).

(** Lower-case mapping of one code unit: A-Z, and the Latin-1 capitals
    U+00C0..U+00DE except the multiplication sign U+00D7. *)
Definition lower_unit (c : ascii) : ascii :=
  if in_range 65 90 c then ascii_of_nat (code c + 32)
  else if in_range 192 222 c && negb (code c =? 215) then ascii_of_nat (code c + 32)
  else c.

(** Upper-case mapping of one code unit, to a string: U+00DF (sharp s)
    maps to the two units "SS".  The capitals of U+00B5 and U+00FF lie
    above U+00FF; these two units are kept as they are. *)
Definition upper_unit (c : ascii) : string :=
  if in_range 97 122 c then String (ascii_of_nat (code c - 32)) ""
  else if code c =? 223 then "SS"
  else if in_range 224 254 c && negb (code c =? 247) then String (ascii_of_nat (code c - 32)) ""
  else String c "".

Fixpoint toLowerCase (s : string) : string :=
  match s with
  | EmptyString => EmptyString
  | String c s' => String (lower_unit c) (toLowerCase s')
  end.

Fixpoint toUpperCase (s : string) : string :=
  match s with
  | EmptyString => EmptyString
  | String c s' => upper_unit c ++ toUpperCase s'
  end.

(** [s.includes(pat)] *)
Fixpoint includes (s pat : string) : bool :=
  if prefix pat s then true
  else match s with
       | EmptyString => false
       | String _ s' => includes s' pat
       end.

(** WhiteSpace and LineTerminator code units: TAB, LF, VT, FF, CR, SP, NBSP. *)
Definition is_space (c : ascii) : bool :=
  in_range 9 13 c || (code c =? 32) || (code c =? 160).

Definition is_digit (c : ascii) : bool := in_range 48 57 c.

(** [\w]: A-Z, a-z, 0-9 and underscore. *)
Definition is_word (c : ascii) : bool :=
  in_range 65 90 c || in_range 97 122 c || is_digit c || (code c =? 95).

Definition is_line_terminator (c : ascii) : bool :=
  (code c =? 10) || (code c =? 13).

Fixpoint trimStart (s : string) : string :=
  match s with
  | EmptyString => EmptyString
  | String c s' => if is_space c then trimStart s' else s
  end.

Fixpoint trimEnd (s : string) : string :=
  match s with
  | EmptyString => EmptyString
  | String c s' =>
      match trimEnd s' with
      | EmptyString => if is_space c then EmptyString else String c EmptyString
      | t => String c t
      end
  end.

Definition trim (s : string) : string := trimEnd (trimStart s).

(** [s.substring(0, n)] for [n] within or beyond the string. *)
Definition substring_to (n : nat) (s : string) : string :=
  substring 0 (Nat.min n (String.length s)) s.

(** [s.charAt(0)]: the first code unit as a string, or [""]. *)
Definition charAt0 (s : string) : string :=
  match s with
  | EmptyString => EmptyString
  | String c _ => String c EmptyString
  end.

(** [s.slice(1)] *)
Definition slice1 (s : string) : string :=
  match s with
  | EmptyString => EmptyString
  | String _ s' => s'
  end.

(** [a.join(sep)] *)
Fixpoint join (sep : string) (l : list string) : string :=
  match l with
  | [] => ""
  | [x] => x
  | x :: l' => x ++ sep ++ join sep l'
  end.

(** [[...new Set(l)]]: first occurrences, in insertion order. *)
Fixpoint dedup_acc (seen : list string) (l : list string) : list string :=
  match l with
  | [] => []
  | x :: l' =>
      if existsb (String.eqb x) seen then dedup_acc seen l'
      else x :: dedup_acc (x :: seen) l'
  end.

Definition uniq (l : list string) : list string := dedup_acc [] l.

(** Code units that cannot be written inside a literal: the double quote,
    LF and CR. *)
Definition dquote_unit : ascii := ascii_of_nat 34.
Definition lf_unit : ascii := ascii_of_nat 10.
Definition cr_unit : ascii := ascii_of_nat 13.
Definition dquote : string := String dquote_unit EmptyString.
Definition newline : string := String lf_unit EmptyString.

(** Numbers that arise as quotients of small integers are kept as reduced
    fractions. *)
Definition Math_min (a b : Q) : Q := if Qle_bool a b then a else b.

Notation "x <- m ;; k" := (bind m (fun x => k))
  (at level 61, m at next level, right associativity).

(** A [Date]: the local calendar day counted from 1970-01-01 and the
    milliseconds elapsed within that day. *)
Record JSDate := { date_day : Z; date_ms : Z }.

(** [d.getDay()]: 0 is Sunday; 1970-01-01 was a Thursday. *)
Definition getDay (d : JSDate) : Z := ((date_day d + 4) mod 7)%Z.

(** [x = new Date(d); x.setDate(d.getDate() + n)] *)
Definition addDays (d : JSDate) (n : Z) : JSDate :=
  {| date_day := (date_day d + n)%Z; date_ms := date_ms d |}.

End JS.

(* ================================================================== *)
(** ** Regular expressions: a backtracking matcher *)

Module RegExp.
Import JS.

Inductive charset :=
| CsChar (c : ascii)
| CsDigit                       (* \d *)
| CsSpace.                      (* \s *)

Inductive regex :=
| REmpty
| RLit (s : string)                        (* literal code units *)
| RDot                                     (* .  *)
| RClass (negated : bool) (items : list charset)   (* [...] and [^...] *)
| RSeq (a b : regex)
| RAlt (a b : regex)                       (* a|b, left first *)
| RStar (greedy : bool) (a : regex)        (* a* and a*? *)
| RGroup (n : nat) (a : regex)             (* n-th capturing group *)
| RBol                                     (* ^  *)
| RWordB.                                  (* \b *)

Definition RPlus (a : regex) : regex := RSeq a (RStar true a).     (* a+ *)
Definition ROpt (a : regex) : regex := RAlt a REmpty.              (* a? *)
Definition RDigit : regex := RClass false [CsDigit].               (* \d *)
Definition RSpace : regex := RClass false [CsSpace].               (* \s *)

Fixpoint RTimes (n : nat) (a : regex) : regex :=
  match n with
  | O => REmpty
  | S n' => RSeq a (RTimes n' a)
  end.

Fixpoint RUpto (n : nat) (a : regex) : regex :=
  match n with
  | O => REmpty
  | S n' => ROpt (RSeq a (RUpto n' a))
  end.

(** a{lo,hi}, greedy *)
Definition RRange (lo hi : nat) (a : regex) : regex :=
  RSeq (RTimes lo a) (RUpto (hi - lo) a).

Fixpoint RSeqs (l : list regex) : regex :=
  match l with
  | [] => REmpty
  | [a] => a
  | a :: l' => RSeq a (RSeqs l')
  end.

Fixpoint RAlts (l : list regex) : regex :=
  match l with
  | [] => REmpty
  | [a] => a
  | a :: l' => RAlt a (RAlts l')
  end.

(** Canonicalize under the [i] flag (no [u] flag): the upper-case form
    when it is a single code unit. *)
Definition canonicalize (i : bool) (c : ascii) : ascii :=
  if i then
    match upper_unit c with
    | String u EmptyString => u
    | _ => c
    end
  else c.

Definition unit_eqb (i : bool) (a c : ascii) : bool :=
  Ascii.eqb (canonicalize i a) (canonicalize i c).

Definition in_charset (i : bool) (c : ascii) (cs : charset) : bool :=
  match cs with
  | CsChar a => unit_eqb i a c
  | CsDigit => is_digit c
  | CsSpace => is_space c
  end.

(** Matcher state: the index reached, the code unit before it, the input
    from the index on, and the captures recorded so far. *)
Record mstate := {
  m_pos : nat;
  m_prev : option ascii;
  m_rest : string;
  m_caps : list (nat * (nat * nat))
}.

Definition Cont := mstate -> option mstate.

Definition eat (p : ascii -> bool) (k : Cont) (s : mstate) : option mstate :=
  match m_rest s with
  | EmptyString => None
  | String c r =>
      if p c
      then k {| m_pos := S (m_pos s); m_prev := Some c; m_rest := r; m_caps := m_caps s |}
      else None
  end.

Fixpoint eat_lit (i : bool) (l : string) (k : Cont) : Cont :=
  match l with
  | EmptyString => k
  | String a l' => eat (unit_eqb i a) (eat_lit i l' k)
  end.

Definition word_before (s : mstate) : bool :=
  match m_prev s with Some c => is_word c | None => false end.

Definition word_after (s : mstate) : bool :=
  match m_rest s with String c _ => is_word c | EmptyString => false end.

Definition set_cap (n start : nat) (s : mstate) : mstate :=
  {| m_pos := m_pos s; m_prev := m_prev s; m_rest := m_rest s;
     m_caps := (n, (start, m_pos s)) :: m_caps s |}.

(** The loop of a repetition [a*] or [a*?]: [body] matches one iteration.
    A greedy loop tries one more iteration before the continuation, a lazy
    one the continuation first.  An iteration that consumed nothing is
    given up, so [fuel], the length of the input that is left, bounds the
    number of iterations ([star_loop_fuel] below: more fuel gives the same
    result). *)
Fixpoint star_loop (greedy : bool) (body : Cont -> Cont) (k : Cont) (fuel : nat) (s : mstate)
  {struct fuel} : option mstate :=
  let again (_ : unit) :=
    match fuel with
    | O => None
    | S fuel' =>
        body (fun s' => if m_pos s' =? m_pos s then None
                        else star_loop greedy body k fuel' s') s
    end in
  if greedy then
    match again tt with
    | Some e => Some e
    | None => k s
    end
  else
    match k s with
    | Some e => Some e
    | None => again tt
    end.

(** [rmatch i r k s]: match [r] at [s], then the continuation [k]; the
    alternatives are tried in the order of the backtracking semantics. *)
Fixpoint rmatch (i : bool) (r : regex) (k : Cont) (s : mstate) {struct r} : option mstate :=
  match r with
  | REmpty => k s
  | RLit l => eat_lit i l k s
  | RDot => eat (fun c => negb (is_line_terminator c)) k s
  | RClass neg items => eat (fun c => xorb neg (existsb (in_charset i c) items)) k s
  | RSeq a b => rmatch i a (rmatch i b k) s
  | RAlt a b =>
      match rmatch i a k s with
      | Some e => Some e
      | None => rmatch i b k s
      end
  | RStar greedy a => star_loop greedy (rmatch i a) k (String.length (m_rest s)) s
  | RGroup n a => rmatch i a (fun s' => k (set_cap n (m_pos s) s')) s
  | RBol => if m_pos s =? 0 then k s else None
  | RWordB => if xorb (word_before s) (word_after s) then k s else None
  end.

(** Leftmost match at or after the current index. *)
Fixpoint search (i : bool) (r : regex) (pos : nat) (prev : option ascii) (rest : string)
  : option (nat * mstate) :=
  match rmatch i r Some {| m_pos := pos; m_prev := prev; m_rest := rest; m_caps := [] |} with
  | Some e => Some (pos, e)
  | None =>
      match rest with
      | EmptyString => None
      | String c rest' => search i r (S pos) (Some c) rest'
      end
  end.

(** The input from index [n] on, with the code unit before it. *)
Fixpoint seek (prev : option ascii) (s : string) (n : nat) {struct n}
  : option (option ascii * string) :=
  match n with
  | O => Some (prev, s)
  | S n' =>
      match s with
      | EmptyString => None
      | String c s' => seek (Some c) s' n'
      end
  end.

(** A match: [match.index], the end index, the captures and the input. *)
Record MatchResult := {
  mr_index : nat;
  mr_end : nat;
  mr_caps : list (nat * (nat * nat));
  mr_input : string
}.

(** [match[0]] *)
Definition matched (m : MatchResult) : string :=
  substring (mr_index m) (mr_end m - mr_index m) (mr_input m).

Fixpoint find_cap (n : nat) (caps : list (nat * (nat * nat))) : option (nat * nat) :=
  match caps with
  | [] => None
  | (n', se) :: caps' => if n' =? n then Some se else find_cap n caps'
  end.

(** [match[n]], [None] for [undefined]. *)
Definition group (n : nat) (m : MatchResult) : option string :=
  match find_cap n (mr_caps m) with
  | Some (b, e) => Some (substring b (e - b) (mr_input m))
  | None => None
  end.

Definition search_at (i : bool) (r : regex) (input : string) (from : nat) : option MatchResult :=
  match seek None input from with
  | None => None
  | Some (prev, rest) =>
      match search i r from prev rest with
      | Some (idx, e) =>
          Some {| mr_index := idx; mr_end := m_pos e; mr_caps := m_caps e; mr_input := input |}
      | None => None
      end
  end.

(** A RegExp object: pattern, flags, and the mutable [lastIndex]. *)
Record RegExp := {
  source : regex;
  ignoreCase : bool;
  global : bool;
  lastIndex : nat
}.

Definition mkRegExp (r : regex) (i g : bool) : RegExp :=
  {| source := r; ignoreCase := i; global := g; lastIndex := 0 |}.

Definition set_lastIndex (re : RegExp) (n : nat) : RegExp :=
  {| source := source re; ignoreCase := ignoreCase re; global := global re; lastIndex := n |}.

(** [re.exec(input)]: a global RegExp starts at its [lastIndex] and
    stores the end of the match there, or 0 when nothing matched. *)
Definition exec (re : RegExp) (input : string) : option MatchResult * RegExp :=
  if global re then
    match search_at (ignoreCase re) (source re) input (lastIndex re) with
    | Some m => (Some m, set_lastIndex re (mr_end m))
    | None => (None, set_lastIndex re 0)
    end
  else (search_at (ignoreCase re) (source re) input 0, re).

(** [re.test(input)] for a RegExp without the [g] flag. *)
Definition test (i : bool) (r : regex) (input : string) : bool :=
  match search_at i r input 0 with
  | Some _ => true
  | None => false
  end.

(** All matches of a global RegExp from index 0, as [match] and [replace]
    enumerate them: after an empty match the index advances by one, so
    there are at most as many matches as indices. *)
Fixpoint all_matches (fuel : nat) (i : bool) (r : regex) (input : string) (from : nat)
  : list MatchResult :=
  match fuel with
  | O => []
  | S fuel' =>
      match search_at i r input from with
      | None => []
      | Some m =>
          let next := if mr_end m =? mr_index m then S (mr_end m) else mr_end m in
          m :: all_matches fuel' i r input next
      end
  end.

(** [input.match(re)] for a global [re]: the matched substrings ([null]
    is rendered as the empty list: the callers only iterate). *)
Definition match_all (i : bool) (r : regex) (input : string) : list string :=
  map matched (all_matches (S (String.length input)) i r input 0).

(** [input.replace(re, '')] for a [re] without the [g] flag. *)
Definition remove_first (i : bool) (r : regex) (input : string) : string :=
  match search_at i r input 0 with
  | None => input
  | Some m =>
      substring 0 (mr_index m) input
      ++ substring (mr_end m) (String.length input - mr_end m) input
  end.

Fixpoint remove_matches (ms : list MatchResult) (input : string) (from : nat) : string :=
  match ms with
  | [] => substring from (String.length input - from) input
  | m :: ms' =>
      substring from (mr_index m - from) input ++ remove_matches ms' input (mr_end m)
  end.

(** [input.replace(re, '')] for a global [re]. *)
Definition remove_all (i : bool) (r : regex) (input : string) : string :=
  remove_matches (all_matches (S (String.length input)) i r input 0) input 0.

(** Does [r] match exactly at index [q]?  The end index if so. *)
Definition match_here (i : bool) (r : regex) (input : string) (q : nat) : option nat :=
  match seek None input q with
  | None => None
  | Some (prev, rest) =>
      match rmatch i r Some {| m_pos := q; m_prev := prev; m_rest := rest; m_caps := [] |} with
      | Some e => Some (m_pos e)
      | None => None
      end
  end.

(** The loop of [input.split(re)]: [p] is the start of the current
    piece, [q] the index probed for a separator.  Two steps at most pass
    before [q] advances, so the loop ends within twice the length. *)
Fixpoint split_loop (fuel : nat) (i : bool) (r : regex) (input : string) (p q : nat)
  : list string :=
  match fuel with
  | O => [substring p (String.length input - p) input]
  | S fuel' =>
      if String.length input <=? q then [substring p (String.length input - p) input]
      else
        match match_here i r input q with
        | None => split_loop fuel' i r input p (S q)
        | Some e =>
            if e =? p then split_loop fuel' i r input p (S q)
            else substring p (q - p) input :: split_loop fuel' i r input e e
        end
  end.

(** [input.split(re)] *)
Definition split (i : bool) (r : regex) (input : string) : list string :=
  match input with
  | EmptyString =>
      match match_here i r input 0 with
      | Some _ => []
      | None => [input]
      end
  | _ => split_loop (2 * String.length input) i r input 0 0
  end.

End RegExp.

(* ================================================================== *)
(** ** src/types/categorization.ts *)

Module Types.

Inductive EmailCategory :=
| newsletter | social | promotional | work | personal | finance | travel
| shopping | support | spam | important | todo | other.

Definition EmailCategory_eqb (a b : EmailCategory) : bool :=
  match a, b with
  | newsletter, newsletter | social, social | promotional, promotional
  | work, work | personal, personal | finance, finance | travel, travel
  | shopping, shopping | support, support | spam, spam
  | important, important | todo, todo | other, other => true
  | _, _ => false
  end.

Inductive TodoPriority := low | medium | high | urgent.

Inductive TodoStatus := pending | in_progress | completed | cancelled | snoozed.

Record EmailClassificationResult := {
  category : EmailCategory;
  subcategories : list EmailCategory;
  confidence : Q;
  isNewsletter : bool;
  priority : option TodoPriority;
  reasoning : string
}.

Record CategoryPatterns := {
  keywords : list string;
  senderPatterns : list string;
  subjectPatterns : list string;
  bodyPatterns : list string;
  domainPatterns : list string
}.

Inductive Reputation := trusted | suspicious | unknown_reputation.
Inductive Frequency := daily | weekly | monthly | irregular | unknown_frequency.

Record NewsletterDetectionResult := {
  nl_isNewsletter : bool;
  nl_confidence : Q;
  unsubscribeLinks : list string;
  senderReputation : Reputation;
  frequency : Frequency
}.

(** [Omit<TodoItem, 'id' | 'emailId' | 'extractedAt'>] *)
Record TodoItem := {
  title : string;
  description : string;
  todo_priority : TodoPriority;
  status : TodoStatus;
  dueDate : option JS.JSDate;
  todo_confidence : Q;
  context : string;
  actionKeywords : list string
}.

Record TodoExtractionResult := {
  todos : list TodoItem;
  hasTodos : bool;
  te_confidence : Q;
  te_reasoning : string
}.

Record AIProcessingConfig := {
  enableCategorization : bool;
  enableTodoExtraction : bool;
  enableNewsletterDetection : bool;
  maxTokensPerEmail : Z;
  confidenceThreshold : Q;
  batchSize : Z
}.

End Types.

(* ================================================================== *)
(** ** src/services/email-categorization.ts *)

Module EmailCategorizationService.
Import JS RegExp Types.

(** [initializeCategoryPatterns]: the entries of the catalog object, in
    the order [Object.entries] enumerates them. *)
Definition initializeCategoryPatterns : list (EmailCategory * CategoryPatterns) :=
  [ (newsletter,
     {| keywords := ["newsletter"; "unsubscribe"; "digest"; "weekly"; "monthly"; "edition"];
        senderPatterns := ["newsletter@"; "news@"; "updates@"; "marketing@"];
        subjectPatterns := ["newsletter"; "weekly digest"; "monthly update"; "edition"];
        bodyPatterns := ["unsubscribe"; "manage preferences"; "view in browser"; "list-unsubscribe"];
        domainPatterns := ["mailchimp.com"; "constantcontact.com"; "aweber.com"] |});
    (social,
     {| keywords := ["notification"; "friend"; "like"; "comment"; "share"; "follow"];
        senderPatterns := ["notification@"; "noreply@facebook"; "noreply@twitter"; "noreply@linkedin"];
        subjectPatterns := ["liked your"; "commented on"; "friend request"; "mentioned you"];
        bodyPatterns := ["social network"; "your profile"; "activity on"];
        domainPatterns := ["facebook.com"; "twitter.com"; "linkedin.com"; "instagram.com"] |});
    (promotional,
     {| keywords := ["sale"; "discount"; "offer"; "deal"; "promotion"; "coupon"; "save"];
        senderPatterns := ["promo@"; "deals@"; "offers@"; "marketing@"];
        subjectPatterns := ["% off"; "sale"; "discount"; "limited time"; "expires"];
        bodyPatterns := ["promotional"; "limited time"; "act now"; "shop now"];
        domainPatterns := ["amazon.com"; "ebay.com"; "groupon.com"] |});
    (work,
     {| keywords := ["meeting"; "deadline"; "project"; "report"; "team"; "urgent"];
        senderPatterns := ["hr@"; "team@"; "admin@"];
        subjectPatterns := ["re:"; "fwd:"; "meeting"; "project"; "urgent"];
        bodyPatterns := ["deadline"; "meeting"; "project"; "deliverable"];
        domainPatterns := [] |});
    (personal,
     {| keywords := ["family"; "friend"; "birthday"; "invitation"; "personal"];
        senderPatterns := [];
        subjectPatterns := ["birthday"; "invitation"; "personal"];
        bodyPatterns := ["family"; "friend"; "personal"];
        domainPatterns := ["gmail.com"; "yahoo.com"; "hotmail.com"] |});
    (finance,
     {| keywords := ["bank"; "credit"; "payment"; "invoice"; "statement"; "transaction"];
        senderPatterns := ["bank@"; "billing@"; "finance@"; "accounting@"];
        subjectPatterns := ["statement"; "payment"; "invoice"; "transaction"];
        bodyPatterns := ["account balance"; "payment due"; "financial"];
        domainPatterns := ["paypal.com"; "stripe.com"; "bank."] |});
    (travel,
     {| keywords := ["flight"; "hotel"; "booking"; "reservation"; "itinerary"; "travel"];
        senderPatterns := ["booking@"; "travel@"; "reservations@"];
        subjectPatterns := ["booking confirmation"; "itinerary"; "flight"];
        bodyPatterns := ["reservation"; "check-in"; "travel"];
        domainPatterns := ["booking.com"; "expedia.com"; "airlines."] |});
    (shopping,
     {| keywords := ["order"; "shipping"; "delivery"; "package"; "tracking"];
        senderPatterns := ["orders@"; "shipping@"; "delivery@"];
        subjectPatterns := ["order confirmation"; "shipped"; "delivery"];
        bodyPatterns := ["tracking number"; "shipped"; "delivery"];
        domainPatterns := ["amazon.com"; "ebay.com"; "shopify."] |});
    (support,
     {| keywords := ["support"; "ticket"; "help"; "issue"; "problem"; "assistance"];
        senderPatterns := ["support@"; "help@"; "noreply@"];
        subjectPatterns := ["ticket"; "support"; "help"];
        bodyPatterns := ["support ticket"; "assistance"; "help"];
        domainPatterns := ["zendesk.com"; "freshdesk.com"] |});
    (spam,
     {| keywords := ["viagra"; "lottery"; "winner"; "congratulations"; "million"];
        senderPatterns := [];
        subjectPatterns := ["congratulations"; "winner"; "lottery"];
        bodyPatterns := ["click here"; "limited time"; "act now"];
        domainPatterns := [] |});
    (important,
     {| keywords := ["urgent"; "important"; "asap"; "emergency"; "critical"];
        senderPatterns := ["urgent@"; "emergency@"];
        subjectPatterns := ["urgent"; "important"; "asap"; "emergency"];
        bodyPatterns := ["urgent"; "important"; "critical"];
        domainPatterns := [] |});
    (todo,
     {| keywords := ["action required"; "please"; "need"; "request"; "follow up"];
        senderPatterns := [];
        subjectPatterns := ["action required"; "please review"; "follow up"];
        bodyPatterns := ["action required"; "please"; "need to"; "follow up"];
        domainPatterns := [] |});
    (other,
     {| keywords := [];
        senderPatterns := [];
        subjectPatterns := [];
        bodyPatterns := [];
        domainPatterns := [] |}) ].

(** [this.categoryPatterns], assigned once in the constructor. *)
Definition categoryPatterns := initializeCategoryPatterns.

Definition emptyPatterns : CategoryPatterns :=
  {| keywords := []; senderPatterns := []; subjectPatterns := [];
     bodyPatterns := []; domainPatterns := [] |}.

(** [this.categoryPatterns[c]] *)
Fixpoint patternsOf (entries : list (EmailCategory * CategoryPatterns)) (c : EmailCategory)
  : CategoryPatterns :=
  match entries with
  | [] => emptyPatterns
  | (c', p) :: rest => if EmailCategory_eqb c' c then p else patternsOf rest c
  end.

(** [calculateCategoryScore]: five [forEach] loops over one running [score]. *)
Definition calculateCategoryScore (patterns : CategoryPatterns) (subject body sender : string) : Z :=
  let score := 0%Z in
  let score :=
    fold_left (fun score keyword =>
                 let score := if includes body keyword then (score + 2)%Z else score in
                 if includes subject keyword then (score + 3)%Z else score)
              (keywords patterns) score in
  let score :=
    fold_left (fun score pattern => if includes sender pattern then (score + 4)%Z else score)
              (senderPatterns patterns) score in
  let score :=
    fold_left (fun score pattern => if includes subject pattern then (score + 3)%Z else score)
              (subjectPatterns patterns) score in
  let score :=
    fold_left (fun score pattern => if includes body pattern then (score + 2)%Z else score)
              (bodyPatterns patterns) score in
  let score :=
    fold_left (fun score pattern => if includes sender pattern then (score + 3)%Z else score)
              (domainPatterns patterns) score in
  score.

(** [getTopIndicators] *)
Definition getTopIndicators (patterns : CategoryPatterns) (subject body sender : string)
  : list string :=
  let indicators : list string := [] in
  let indicators :=
    fold_left (fun indicators keyword =>
                 if includes subject keyword || includes body keyword
                 then (indicators ++ [("keyword: " ++ keyword)%string])%list else indicators)
              (keywords patterns) indicators in
  let indicators :=
    fold_left (fun indicators pattern =>
                 if includes sender pattern
                 then (indicators ++ [("sender pattern: " ++ pattern)%string])%list else indicators)
              (senderPatterns patterns) indicators in
  firstn 3 indicators.

Definition href_quote : regex := RClass false [CsChar dquote_unit; CsChar "'"].

(** [/href=["'](.*?WORD.*?)["']/gi] *)
Definition href_containing (w : string) : regex :=
  RSeqs [RLit "href="; href_quote;
         RGroup 1 (RSeqs [RStar false RDot; RLit w; RStar false RDot]);
         href_quote].

Definition unsubscribePatterns : list regex :=
  [href_containing "unsubscribe"; href_containing "opt-out"; href_containing "remove"].

(** [/href=["'](.*?)["']/] *)
Definition href_target : regex :=
  RSeqs [RLit "href="; href_quote; RGroup 1 (RStar false RDot); href_quote].

(** [match.match(/href=["'](.*?)["']/)?.[1]] *)
Definition linkOf (m : string) : option string :=
  match search_at false href_target m 0 with
  | Some r => group 1 r
  | None => None
  end.

(** The [links] array filled by the nested [forEach]: [if (link)] keeps
    the non-empty targets. *)
Definition collectLinks (body : string) : list string :=
  flat_map (fun pattern =>
              flat_map (fun m =>
                          match linkOf m with
                          | Some link => if String.eqb link EmptyString then [] else [link]
                          | None => []
                          end)
                       (match_all true pattern body))
           unsubscribePatterns.

(** [extractUnsubscribeLinks] *)
Definition extractUnsubscribeLinks (body : string) : list string :=
  uniq (collectLinks body).

(** [this.categoryPatterns.newsletter] *)
Definition newsletterPatterns : CategoryPatterns := patternsOf categoryPatterns newsletter.

(** [detectNewsletter] *)
Definition detectNewsletter (subject body sender : string) : NewsletterDetectionResult :=
  let unsubscribeLinks := extractUnsubscribeLinks body in
  let hasUnsubscribe := 0 <? List.length unsubscribeLinks in
  let newsletterScore :=
    calculateCategoryScore newsletterPatterns
      (toLowerCase subject) (toLowerCase body) (toLowerCase sender) in
  let isNewsletter := (5 <? newsletterScore)%Z || hasUnsubscribe in
  let confidence :=
    Math_min (Qred ((newsletterScore + (if hasUnsubscribe then 5 else 0))%Z # 10)) 1 in
  {| nl_isNewsletter := isNewsletter;
     nl_confidence := confidence;
     unsubscribeLinks := unsubscribeLinks;
     senderReputation := unknown_reputation;
     frequency := unknown_frequency |}.

(** [determinePriority] *)
Definition determinePriority (subject body : string) : option TodoPriority :=
  let text := toLowerCase (subject ++ " " ++ body) in
  if includes text "urgent" || includes text "asap" || includes text "emergency" then Some urgent
  else if includes text "important" || includes text "deadline" || includes text "critical" then Some high
  else if includes text "please" || includes text "request" || includes text "need" then Some medium
  else None.

(** The [scores] object: its entries in insertion order. *)
Definition Scores := list (EmailCategory * Z).

(** [scores[c] = v] *)
Fixpoint set_score (c : EmailCategory) (v : Z) (scores : Scores) : Scores :=
  match scores with
  | [] => [(c, v)]
  | (c', v') :: rest =>
      if EmailCategory_eqb c' c then (c, v) :: rest else (c', v') :: set_score c v rest
  end.

Fixpoint get_score (c : EmailCategory) (scores : Scores) : option Z :=
  match scores with
  | [] => None
  | (c', v) :: rest => if EmailCategory_eqb c' c then Some v else get_score c rest
  end.

(** [Object.keys(this.categoryPatterns).forEach(c => scores[c] = 0)] *)
Definition initScores : Scores :=
  fold_left (fun scores entry => set_score (fst entry) 0%Z scores) categoryPatterns [].

(** The scoring loop of [classifyEmail]; each iteration evaluates
    [subject.toLowerCase()], [body.toLowerCase()], [sender.toLowerCase()]. *)
Fixpoint scoreCategories (entries : list (EmailCategory * CategoryPatterns))
  (subject body sender : JSVal) (scores : Scores) : Completion Scores :=
  match entries with
  | [] => Normal scores
  | (categoryKey, patterns) :: rest =>
      s <- receiver subject ;;
      b <- receiver body ;;
      d <- receiver sender ;;
      scoreCategories rest subject body sender
        (set_score categoryKey
           (calculateCategoryScore patterns (toLowerCase s) (toLowerCase b) (toLowerCase d))
           scores)
  end.

(** [Array.prototype.sort] with the comparator [([,a], [,b]) => b - a]:
    a stable sort, descending by score. *)
Fixpoint insert_sorted (x : EmailCategory * Z) (l : Scores) : Scores :=
  match l with
  | [] => [x]
  | y :: l' => if (snd y <=? snd x)%Z then x :: l else y :: insert_sorted x l'
  end.

Definition sortByScore (l : Scores) : Scores := fold_right insert_sorted [] l.

(** The body of the [try] block of [classifyEmail]. *)
Definition classifyEmail_try (subject body sender : JSVal) : Completion EmailClassificationResult :=
  scores <- scoreCategories categoryPatterns subject body sender initScores ;;
  let sortedCategories := sortByScore scores in
  match sortedCategories with
  | [] => Throw (TypeError "undefined is not iterable")
  | (primaryCategory, primaryScore) :: _ =>
      let confidence := Math_min (Qred (primaryScore # 10)) 1 in
      let subcategories :=
        map fst
          (firstn 3
             (filter (fun e => negb (EmailCategory_eqb (fst e) primaryCategory) && (2 <? snd e)%Z)
                     sortedCategories)) in
      isNewsletter <-
        (if EmailCategory_eqb primaryCategory newsletter then Normal true
         else b <- receiver body ;;
              s <- receiver subject ;;
              d <- receiver sender ;;
              Normal (nl_isNewsletter (detectNewsletter s b d))) ;;
      let priority := determinePriority (ToString subject) (ToString body) in
      s <- receiver subject ;;
      b <- receiver body ;;
      d <- receiver sender ;;
      Normal {| category := primaryCategory;
                subcategories := subcategories;
                confidence := confidence;
                isNewsletter := isNewsletter;
                priority := priority;
                reasoning :=
                  "Primary indicators: "
                  ++ join ", " (getTopIndicators (patternsOf categoryPatterns primaryCategory) s b d) |}
  end.

(** The result of the [catch] block. *)
Definition classificationFailed : EmailClassificationResult :=
  {| category := other;
     subcategories := [];
     confidence := 0;
     isNewsletter := false;
     priority := None;
     reasoning := "Classification failed due to error" |}.

(** [classifyEmail] *)
Definition classifyEmail (subject body sender : JSVal) : Completion EmailClassificationResult :=
  try_catch (classifyEmail_try subject body sender)
            (fun _ => Normal classificationFailed).

End EmailCategorizationService.

(* ================================================================== *)
(** ** src/services/todo-extraction.ts *)

Module TodoExtractionService.
Import JS RegExp Types.

Record ActionPattern := {
  ap_keywords : list string;
  ap_priority : TodoPriority;
  ap_confidence : Q
}.

(** [initializeActionPatterns] *)
Definition initializeActionPatterns : list ActionPattern :=
  [ {| ap_keywords := ["urgent"; "asap"; "immediately"; "emergency"];
       ap_priority := urgent; ap_confidence := 9 # 10 |};
    {| ap_keywords := ["deadline"; "due"; "expires"; "critical"; "important"];
       ap_priority := high; ap_confidence := 8 # 10 |};
    {| ap_keywords := ["please review"; "need to"; "action required"; "follow up"];
       ap_priority := medium; ap_confidence := 7 # 10 |};
    {| ap_keywords := ["when you get a chance"; "whenever"; "if possible"];
       ap_priority := low; ap_confidence := 6 # 10 |} ].

(** [\d{1,2}\/\d{1,2}\/\d{2,4}] *)
Definition numeric_date : regex :=
  RSeqs [RRange 1 2 RDigit; RLit "/"; RRange 1 2 RDigit; RLit "/"; RRange 2 4 RDigit].

(** [/WORD\s+(GROUP)/gi] *)
Definition timePattern (w : string) (g : regex) : RegExp :=
  mkRegExp (RSeqs [RLit w; RPlus RSpace; RGroup 1 g]) true true.

(** [initializeTimePatterns]: six RegExp objects with the [g] flag, each
    created once and kept by the service. *)
Definition initializeTimePatterns : list RegExp :=
  [ timePattern "by" numeric_date;
    timePattern "by"
      (RAlts [RLit "monday"; RLit "tuesday"; RLit "wednesday"; RLit "thursday";
              RLit "friday"; RLit "saturday"; RLit "sunday"]);
    timePattern "due" numeric_date;
    timePattern "deadline" numeric_date;
    timePattern "before" numeric_date;
    timePattern "by"
      (RAlts [RLit "today"; RLit "tomorrow";
              RSeqs [RLit "this"; RPlus RSpace; RLit "week"];
              RSeqs [RLit "next"; RPlus RSpace; RLit "week"]]) ].

(** A service instance.  [actionPatterns] and [config] are never written
    after construction; the RegExp objects of [timePatterns] carry their
    [lastIndex] from one use to the next. *)
Record Service := {
  config : AIProcessingConfig;
  timePatterns : list RegExp
}.

(** [new TodoExtractionService(config)] *)
Definition new (c : AIProcessingConfig) : Service :=
  {| config := c; timePatterns := initializeTimePatterns |}.

Definition actionPatterns : list ActionPattern := initializeActionPatterns.

Definition set_timePatterns (svc : Service) (ps : list RegExp) : Service :=
  {| config := config svc; timePatterns := ps |}.

(** [splitIntoSentences] *)
Definition splitIntoSentences (text : string) : list string :=
  filter (fun s => 10 <? String.length s)
         (map trim (split false (RPlus (RClass false [CsChar "."; CsChar "!"; CsChar "?"])) text)).

(** [/^(please\s+)?(review|send|...)/i] and [/(need to|have to|...)/i] *)
Definition imperativePatterns : list regex :=
  [ RSeqs [RBol;
           ROpt (RGroup 1 (RSeq (RLit "please") (RPlus RSpace)));
           RGroup 2 (RAlts [RLit "review"; RLit "send"; RLit "complete"; RLit "finish";
                            RLit "update"; RLit "check"; RLit "verify"; RLit "confirm";
                            RLit "schedule"; RLit "call"; RLit "email"])];
    RGroup 1 (RAlts [RLit "need to"; RLit "have to"; RLit "must"; RLit "should";
                     RLit "could you"; RLit "would you"; RLit "can you"]) ].

(** [findActionInSentence] *)
Definition findActionInSentence (sentence : string) : option ActionPattern :=
  let lowerSentence := toLowerCase sentence in
  match find (fun pattern => existsb (fun keyword => includes lowerSentence keyword)
                                     (ap_keywords pattern))
             actionPatterns with
  | Some pattern => Some pattern
  | None =>
      if existsb (fun pattern => test true pattern sentence) imperativePatterns
      then Some {| ap_keywords := ["action_verb"]; ap_priority := medium; ap_confidence := 6 # 10 |}
      else None
  end.

(** [looksLikeTodo] *)
Definition todoIndicators : list regex :=
  [ RSeqs [RWordB;
           RGroup 1 (RAlts [RLit "need"; RLit "must"; RLit "should"; RLit "review";
                            RLit "complete"; RLit "send"; RLit "update"; RLit "check";
                            RLit "verify"; RLit "call"; RLit "email"; RLit "schedule"]);
           RWordB];
    RSeqs [RWordB;
           RGroup 1 (RAlts [RLit "action"; RLit "task"; RLit "todo"; RLit "follow up";
                            RLit "deadline"; RLit "due"]);
           RWordB];
    RSeqs [RWordB;
           RGroup 1 (RAlts [RLit "please"; RLit "kindly"; RLit "would you"; RLit "can you";
                            RLit "could you"]);
           RWordB] ].

Definition looksLikeTodo (content : string) : bool :=
  existsb (fun pattern => test true pattern content) todoIndicators.

(** [/^(please\s+|kindly\s+|could you\s+|can you\s+|would you\s+)/i] *)
Definition politePrefix : regex :=
  RSeq RBol
       (RGroup 1 (RAlts [RSeq (RLit "please") (RPlus RSpace);
                         RSeq (RLit "kindly") (RPlus RSpace);
                         RSeq (RLit "could you") (RPlus RSpace);
                         RSeq (RLit "can you") (RPlus RSpace);
                         RSeq (RLit "would you") (RPlus RSpace)])).

(** [generateTodoTitle] *)
Definition generateTodoTitle (content : string) : string :=
  let title := content in
  let title := remove_first true politePrefix title in
  let title :=
    if 60 <? String.length title then substring_to 57 title ++ "..." else title in
  toUpperCase (charAt0 title) ++ slice1 title.

Section Host.

(** [new Date(dateString)] for a string that is none of the relative
    phrases: the host's date parser, [None] when the date is invalid. *)
Variable Date_parse : string -> option JSDate.

(** [new Date()]: the clock reading of the call. *)
Variable now : JSDate.

Definition dayNames : list string :=
  ["sunday"; "monday"; "tuesday"; "wednesday"; "thursday"; "friday"; "saturday"].

(** The loop over [dayNames]: the index of the first name contained. *)
Fixpoint findDayName (names : list string) (i : Z) (lowerDateString : string) : option Z :=
  match names with
  | [] => None
  | name :: rest =>
      if includes lowerDateString name then Some i
      else findDayName rest (i + 1)%Z lowerDateString
  end.

(** [parseDateString] *)
Definition parseDateString (dateString : string) : option JSDate :=
  let lowerDateString := trim (toLowerCase dateString) in
  let today := now in
  if includes lowerDateString "today" then Some today
  else if includes lowerDateString "tomorrow" then Some (addDays today 1)
  else if includes lowerDateString "this week" then Some (addDays today (7 - getDay today))
  else if includes lowerDateString "next week" then Some (addDays today 7)
  else
    match findDayName dayNames 0 lowerDateString with
    | Some i =>
        let currentDay := getDay today in
        let daysUntilTarget := (i - currentDay)%Z in
        let daysUntilTarget :=
          if (daysUntilTarget <=? 0)%Z then (daysUntilTarget + 7)%Z else daysUntilTarget in
        Some (addDays today daysUntilTarget)
    | None => Date_parse dateString
    end.

(** [match[1] || match[0]] *)
Definition captured (m : MatchResult) : string :=
  match group 1 m with
  | Some g => if String.eqb g EmptyString then matched m else g
  | None => matched m
  end.

(** [extractDueDate]: [pattern.exec(text)] on each stored RegExp in turn;
    the first match decides.  Returns the date and the RegExp objects as
    the calls left them. *)
Fixpoint extractDueDate (patterns : list RegExp) (text : string)
  : option JSDate * list RegExp :=
  match patterns with
  | [] => (None, [])
  | pattern :: rest =>
      let (m, pattern') := exec pattern text in
      match m with
      | Some r => (parseDateString (captured r), pattern' :: rest)
      | None =>
          let (d, rest') := extractDueDate rest text in
          (d, pattern' :: rest')
      end
  end.

(** [createTodoFromSentence] *)
Definition createTodoFromSentence (svc : Service) (sentence : string) (actionMatch : ActionPattern)
  : option TodoItem * Service :=
  let cleanSentence := trim sentence in
  if (String.length cleanSentence <? 10) || (200 <? String.length cleanSentence)
  then (None, svc)
  else
    let (dueDate, ps) := extractDueDate (timePatterns svc) sentence in
    let actionKeywords :=
      filter (fun keyword => includes (toLowerCase sentence) keyword) (ap_keywords actionMatch) in
    (Some {| title := generateTodoTitle cleanSentence;
             description := cleanSentence;
             todo_priority := ap_priority actionMatch;
             status := pending;
             dueDate := dueDate;
             todo_confidence := ap_confidence actionMatch;
             context := sentence;
             actionKeywords := actionKeywords |},
     set_timePatterns svc ps).

(** [createTodoFromText] *)
Definition createTodoFromText (svc : Service) (content : string) (priority : TodoPriority)
  : TodoItem * Service :=
  let (dueDate, ps) := extractDueDate (timePatterns svc) content in
  ({| title := generateTodoTitle content;
      description := content;
      todo_priority := priority;
      status := pending;
      dueDate := dueDate;
      todo_confidence := 7 # 10;
      context := content;
      actionKeywords := [] |},
   set_timePatterns svc ps).

(** The [forEach] of [findActionItems], over the sentences left. *)
Fixpoint findActionItems_loop (svc : Service) (sentences : list string)
  : list TodoItem * Service :=
  match sentences with
  | [] => ([], svc)
  | sentence :: rest =>
      match findActionInSentence sentence with
      | Some actionMatch =>
          let (item, svc1) := createTodoFromSentence svc sentence actionMatch in
          let (todos, svc2) := findActionItems_loop svc1 rest in
          (match item with Some t => t :: todos | None => todos end, svc2)
      | None => findActionItems_loop svc rest
      end
  end.

(** [findActionItems] *)
Definition findActionItems (svc : Service) (text : string) : list TodoItem * Service :=
  findActionItems_loop svc (splitIntoSentences text).

Definition notNewline : regex := RClass true [CsChar lf_unit; CsChar cr_unit].

(** [/\d+\.\s+([^\n\r]+)/g] and [/^\d+\.\s+/] *)
Definition numberedItem : regex :=
  RSeqs [RPlus RDigit; RLit "."; RPlus RSpace; RGroup 1 (RPlus notNewline)].
Definition numberedMarker : regex :=
  RSeqs [RBol; RPlus RDigit; RLit "."; RPlus RSpace].

(** The bullet class [[-•*]]: the bullet U+2022 is not among the code
    units of the model, which leaves the hyphen and the asterisk. *)
Definition bulletClass : regex := RClass false [CsChar "-"; CsChar "*"].

(** [/[-•*]\s+([^\n\r]+)/g] and [/^[-•*]\s+/] *)
Definition bulletItem : regex :=
  RSeqs [bulletClass; RPlus RSpace; RGroup 1 (RPlus notNewline)].
Definition bulletMarker : regex :=
  RSeqs [RBol; bulletClass; RPlus RSpace].

(** [/\[[\sx]\]\s+([^\n\r]+)/gi], [/\[[\sx]\]\s+/i] and [/\[x\]/i] *)
Definition checkboxMarker : regex :=
  RSeqs [RLit "["; RClass false [CsSpace; CsChar "x"]; RLit "]"; RPlus RSpace].
Definition checkboxItem : regex :=
  RSeq checkboxMarker (RGroup 1 (RPlus notNewline)).
Definition checkedBox : regex := RLit "[x]".

Definition numberedItems (text : string) : list string := match_all false numberedItem text.
Definition bulletItems (text : string) : list string := match_all false bulletItem text.
Definition checkboxItems (text : string) : list string := match_all true checkboxItem text.

Definition numberedContent (item : string) : string := remove_first false numberedMarker item.
Definition bulletContent (item : string) : string := remove_first false bulletMarker item.
Definition checkboxContent (item : string) : string := remove_first true checkboxMarker item.

(** The [forEach] over numbered or bullet contents: a content that
    [looksLikeTodo] becomes a medium todo. *)
Fixpoint listTodos (svc : Service) (contents : list string) : list TodoItem * Service :=
  match contents with
  | [] => ([], svc)
  | content :: rest =>
      if looksLikeTodo content then
        let (item, svc1) := createTodoFromText svc content medium in
        let (todos, svc2) := listTodos svc1 rest in
        (item :: todos, svc2)
      else listTodos svc rest
  end.

Definition with_status (t : TodoItem) (s : TodoStatus) : TodoItem :=
  {| title := title t; description := description t; todo_priority := todo_priority t;
     status := s; dueDate := dueDate t; todo_confidence := todo_confidence t;
     context := context t; actionKeywords := actionKeywords t |}.

(** The [forEach] over checkbox items. *)
Fixpoint checkboxTodos (svc : Service) (items : list string) : list TodoItem * Service :=
  match items with
  | [] => ([], svc)
  | box :: rest =>
      let content := checkboxContent box in
      let isCompleted := test true checkedBox box in
      let status := if isCompleted then completed else pending in
      let (item, svc1) := createTodoFromText svc content medium in
      let item := with_status item status in
      let (todos, svc2) := checkboxTodos svc1 rest in
      (item :: todos, svc2)
  end.

(** [extractExplicitTodos] *)
Definition extractExplicitTodos (svc : Service) (text : string) : list TodoItem * Service :=
  let (numbered, svc1) := listTodos svc (map numberedContent (numberedItems text)) in
  let (bullets, svc2) := listTodos svc1 (map bulletContent (bulletItems text)) in
  let (checkboxes, svc3) := checkboxTodos svc2 (checkboxItems text) in
  ((numbered ++ bullets ++ checkboxes)%list, svc3).

(** The signature of [deduplicateTodos]. *)
Definition normalizedSignature (item : TodoItem) : string :=
  let signature := toLowerCase (title item) ++ "_" ++ toLowerCase (description item) in
  substring_to 50 (remove_all false (RPlus RSpace) signature).

Fixpoint deduplicate_loop (seen : list string) (todos : list TodoItem) : list TodoItem :=
  match todos with
  | [] => []
  | item :: rest =>
      let sig := normalizedSignature item in
      if existsb (String.eqb sig) seen then deduplicate_loop seen rest
      else item :: deduplicate_loop (sig :: seen) rest
  end.

(** [deduplicateTodos] *)
Definition deduplicateTodos (todos : list TodoItem) : list TodoItem :=
  deduplicate_loop [] todos.

Definition digit_string (d : nat) : string :=
  String (ascii_of_nat (48 + d)) EmptyString.

Fixpoint decimal_fuel (fuel n : nat) : string :=
  match fuel with
  | O => EmptyString
  | S fuel' =>
      if n <? 10 then digit_string n
      else decimal_fuel fuel' (n / 10) ++ digit_string (n mod 10)
  end.

(** The decimal digits of an index, as a template literal prints it. *)
Definition decimal (n : nat) : string := decimal_fuel (S n) n.

Definition priority_string (p : TodoPriority) : string :=
  match p with
  | low => "low" | medium => "medium" | high => "high" | urgent => "urgent"
  end.

Fixpoint reasons (index : nat) (todos : list TodoItem) : list string :=
  match todos with
  | [] => []
  | item :: rest =>
      let keywords :=
        if 0 <? List.length (actionKeywords item) then join ", " (actionKeywords item)
        else "action verbs" in
      ("Todo " ++ decimal (index + 1) ++ ": Detected " ++ dquote ++ keywords ++ dquote
       ++ " indicating " ++ priority_string (todo_priority item) ++ " priority action")
      :: reasons (S index) rest
  end.

(** [generateReasoning] *)
Definition generateReasoning (todos : list TodoItem) : string :=
  match todos with
  | [] => "No actionable items detected in email content"
  | _ => join "; " (reasons 0 todos)
  end.

(** The body of the [try] block of [extractTodos]. *)
Definition extractTodos_try (svc : Service) (subject body sender : JSVal)
  : Completion TodoExtractionResult * Service :=
  let text := ToString subject ++ " " ++ ToString body in
  let (actionItems, svc1) := findActionItems svc text in
  let (explicitTodos, svc2) := extractExplicitTodos svc1 text in
  let allTodos := (actionItems ++ explicitTodos)%list in
  let uniqueTodos := deduplicateTodos allTodos in
  let filteredTodos :=
    filter (fun item => Qle_bool (confidenceThreshold (config svc)) (todo_confidence item))
           uniqueTodos in
  let hasTodos := 0 <? List.length filteredTodos in
  let averageConfidence :=
    if hasTodos
    then Qred (fold_left (fun sum item => sum + todo_confidence item)%Q filteredTodos 0%Q
               / inject_Z (Z.of_nat (List.length filteredTodos)))%Q
    else 0%Q in
  (Normal {| todos := filteredTodos;
             hasTodos := hasTodos;
             te_confidence := averageConfidence;
             te_reasoning := generateReasoning filteredTodos |},
   svc2).

(** The result of the [catch] block. *)
Definition extractionFailed : TodoExtractionResult :=
  {| todos := [];
     hasTodos := false;
     te_confidence := 0;
     te_reasoning := "Extraction failed due to error" |}.

(** [extractTodos]: the result, and the service as the call left it. *)
Definition extractTodos (svc : Service) (subject body sender : JSVal)
  : Completion TodoExtractionResult * Service :=
  let (r, svc') := extractTodos_try svc subject body sender in
  (try_catch r (fun _ => Normal extractionFailed), svc').

End Host.

End TodoExtractionService.

(* ================================================================== *)
(** * Batches, the processor and the Gmail fetcher *)

(** ** The batch methods of the two services *)

Module Batch.
Import JS RegExp Types.

(** An element of the [emails] argument. *)
Record Email := {
  email_id : string;
  email_subject : JSVal;
  email_body : JSVal;
  email_sender : JSVal
}.

(** An index argument of [slice]: a negative one counts from the end. *)
Definition relative_index (len k : Z) : Z :=
  if (k <? 0)%Z then Z.max (len + k) 0 else Z.min k len.

(** [l.slice(start, stop)] *)
Definition slice {A : Type} (l : list A) (start stop : Z) : list A :=
  let len := Z.of_nat (List.length l) in
  let from := relative_index len start in
  let to := relative_index len stop in
  firstn (Z.to_nat (to - from)) (skipn (Z.to_nat from) l).

(** A [Map] with string keys: its entries in insertion order. *)
Definition Map (V : Type) : Type := list (string * V).

(** [m.set(k, v)]: an existing key keeps its place. *)
Fixpoint Map_set {V : Type} (k : string) (v : V) (m : Map V) : Map V :=
  match m with
  | [] => [(k, v)]
  | (k', v') :: rest =>
      if String.eqb k' k then (k, v) :: rest else (k', v') :: Map_set k v rest
  end.

(** [m.get(k)] *)
Fixpoint Map_get {V : Type} (k : string) (m : Map V) : option V :=
  match m with
  | [] => None
  | (k', v) :: rest => if String.eqb k' k then Some v else Map_get k rest
  end.

Section Loop.

Context {St Res : Type}.

(** The service call made for one email.  The service methods contain no
    [await], so the call runs to its end when [batch.map] invokes it, one
    email after the other, and the promise it returns is already settled. *)
Variable call : St -> Email -> Completion Res * St.

(** [batch.map(async email => ({ id: email.id, result: await call(email) }))] *)
Fixpoint batchPromises (st : St) (batch : list Email) : list (string * Completion Res) * St :=
  match batch with
  | [] => ([], st)
  | email :: rest =>
      let (r, st1) := call st email in
      let (rs, st2) := batchPromises st1 rest in
      ((email_id email, r) :: rs, st2)
  end.

(** [await Promise.all(promises)]: the values in order, or the first rejection. *)
Fixpoint Promise_all (promises : list (string * Completion Res)) : Completion (list (string * Res)) :=
  match promises with
  | [] => Normal []
  | (id, Normal r) :: rest => rs <- Promise_all rest ;; Normal ((id, r) :: rs)
  | (_, Throw e) :: _ => Throw e
  end.

(** [batchResults.forEach(({ id, result }) => results.set(id, result))] *)
Definition setAll (results : Map Res) (batchResults : list (string * Res)) : Map Res :=
  fold_left (fun m entry => Map_set (fst entry) (snd entry) m) batchResults results.

(** [for (let i = 0; i < emails.length; i += batchSize) { ... }], from the
    index [i] on.  [None]: the loop has not ended after [fuel] rounds. *)
Fixpoint batchLoop (fuel : nat) (emails : list Email) (batchSize i : Z)
  (results : Map Res) (st : St) : option (Completion (Map Res) * St) :=
  if (i <? Z.of_nat (List.length emails))%Z then
    match fuel with
    | O => None
    | S fuel' =>
        let batch := slice emails i (i + batchSize) in
        let (promises, st1) := batchPromises st batch in
        match Promise_all promises with
        | Normal batchResults =>
            batchLoop fuel' emails batchSize (i + batchSize) (setAll results batchResults) st1
        | Throw e => Some (Throw e, st1)
        end
    end
  else Some (Normal results, st).

(** The emails in order, each with the value of its call. *)
Fixpoint inOrder (st : St) (emails : list Email) : list (string * Res) * St :=
  match emails with
  | [] => ([], st)
  | email :: rest =>
      match call st email with
      | (Normal r, st1) =>
          let (rs, st2) := inOrder st1 rest in ((email_id email, r) :: rs, st2)
      | (Throw _, st1) => inOrder st1 rest
      end
  end.

End Loop.

(** [EmailCategorizationService.batchClassifyEmails]; the service has no
    state that a call changes. *)
Definition batchClassifyEmails (fuel : nat) (cfg : AIProcessingConfig) (emails : list Email)
  : option (Completion (Map EmailClassificationResult)) :=
  option_map fst
    (batchLoop (fun (st : unit) email =>
                  (EmailCategorizationService.classifyEmail
                     (email_subject email) (email_body email) (email_sender email), st))
               fuel emails (batchSize cfg) 0 [] tt).

(** [TodoExtractionService.batchExtractTodos] *)
Definition batchExtractTodos (Date_parse : string -> option JSDate) (now : JSDate)
  (fuel : nat) (svc : TodoExtractionService.Service) (emails : list Email)
  : option (Completion (Map TodoExtractionResult) * TodoExtractionService.Service) :=
  batchLoop (fun st email =>
               TodoExtractionService.extractTodos Date_parse now st
                 (email_subject email) (email_body email) (email_sender email))
            fuel emails (batchSize (TodoExtractionService.config svc)) 0 [] svc.

End Batch.

(** ** src/services/ai-email-processor.ts *)

Module AIEmailProcessorService.
Import JS RegExp Types.

Record EmailProcessingInput := {
  id : string;
  subject : JSVal;
  body : JSVal;
  sender : JSVal;
  receivedAt : JSDate
}.

Record ProcessingMetadata := {
  processedAt : JSDate;
  processingVersion : string;
  tokensUsed : Z;
  processingTime : Z;
  errors : list string
}.

Record EmailProcessingResult := {
  emailId : string;
  classification : EmailClassificationResult;
  todoExtraction : TodoExtractionResult;
  metadata : ProcessingMetadata;
  success : bool;
  error : option string
}.

(** [Partial<AIProcessingConfig>]: [None] is a property that is absent. *)
Record PartialConfig := {
  new_enableCategorization : option bool;
  new_enableTodoExtraction : option bool;
  new_enableNewsletterDetection : option bool;
  new_maxTokensPerEmail : option Z;
  new_confidenceThreshold : option Q;
  new_batchSize : option Z
}.

Definition property {A : Type} (given : option A) (present : A) : A :=
  match given with
  | Some a => a
  | None => present
  end.

(** [Object.assign(target, source)], and [{ ...target, ...source }]. *)
Definition assign (target : AIProcessingConfig) (source : PartialConfig) : AIProcessingConfig :=
  {| enableCategorization :=
       property (new_enableCategorization source) (enableCategorization target);
     enableTodoExtraction :=
       property (new_enableTodoExtraction source) (enableTodoExtraction target);
     enableNewsletterDetection :=
       property (new_enableNewsletterDetection source) (enableNewsletterDetection target);
     maxTokensPerEmail := property (new_maxTokensPerEmail source) (maxTokensPerEmail target);
     confidenceThreshold :=
       property (new_confidenceThreshold source) (confidenceThreshold target);
     batchSize := property (new_batchSize source) (batchSize target) |}.

(** The processor: its [config] object, which the constructor hands to
    both services (they keep the reference, not a copy), and the time
    patterns of its [todoExtractionService].  The categorization service
    has no state of its own. *)
Record Processor := {
  config : AIProcessingConfig;
  timePatterns : list RegExp
}.

Definition todoExtractionService (p : Processor) : TodoExtractionService.Service :=
  {| TodoExtractionService.config := config p;
     TodoExtractionService.timePatterns := timePatterns p |}.

(** [new AIEmailProcessorService(config)]; [None] is a call without argument. *)
Definition new (given : option PartialConfig) : Processor :=
  let defaults :=
    {| enableCategorization := true;
       enableTodoExtraction := true;
       enableNewsletterDetection := true;
       maxTokensPerEmail := 4000;
       confidenceThreshold := 5 # 10;
       batchSize := 10 |} in
  let merged :=
    match given with
    | Some source => assign defaults source
    | None => defaults
    end in
  {| config := merged;
     timePatterns := TodoExtractionService.timePatterns (TodoExtractionService.new merged) |}.

(** [updateProcessingConfig]: the object is changed in place, so both
    services read the new values. *)
Definition updateProcessingConfig (p : Processor) (newConfig : PartialConfig) : Processor :=
  {| config := assign (config p) newConfig; timePatterns := timePatterns p |}.

(** [getProcessingConfig] *)
Definition getProcessingConfig (p : Processor) : AIProcessingConfig := config p.

(** [Math.ceil(a / b)] for integers, [b] positive. *)
Definition ceil_div (a b : Z) : Z := (- ((- a) / b))%Z.

(** [estimateTokensUsed] *)
Definition estimateTokensUsed (subject body : string) : Z :=
  let totalChars := Z.of_nat (String.length subject + String.length body) in
  ceil_div totalChars 4.

(** [value || ''] *)
Definition orEmpty (value : JSVal) : string :=
  match value with
  | JStr s => s
  | JNull | JUndefined => ""
  end.

(** *** The database *)

(** The [data] of [prisma.email.update]. *)
Record EmailUpdate := {
  stored_category : EmailCategory;
  stored_subcategories : list EmailCategory;
  stored_isNewsletter : bool;
  stored_priority : Z;
  stored_hasTodos : bool;
  stored_processedAt : JSDate;
  stored_classification : Q * string;
  stored_todoExtraction : option (Q * string)
}.

(** An element of the [data] of [prisma.todo.createMany]. *)
Record TodoRow := {
  row_emailId : string;
  row_userId : string;
  row_title : string;
  row_description : string;
  row_priority : string;
  row_status : TodoStatus;
  row_dueDate : option JSDate;
  row_confidence : Q;
  row_context : string
}.

(** The calls that [saveProcessingResults] makes. *)
Inductive Query :=
| email_update (where_id : string) (data : EmailUpdate)
| email_findUnique (where_id : string)
| todo_createMany (data : list TodoRow).

(** A thrown value: an [Error] with its message, or anything else. *)
Inductive Reason :=
| ErrorObject (message : string)
| OtherValue.

(** What a call settles with, as far as the code reads it: the values of
    [update] and [createMany] are not read; of [findUnique] the code
    reads whether it is [null] ([None]) and the [userId] of the account,
    which an email always has ([accountId] is required). *)
Inductive Reply :=
| Resolved (userId : option string)
| Rejected (reason : Reason).

Inductive Settled (A : Type) :=
| Fulfilled (a : A)
| Failed (reason : Reason).
Arguments Fulfilled {A} a.
Arguments Failed {A} reason.

(** An asynchronous computation: settled, or waiting for the reply to a
    database call, with what follows the reply. *)
Inductive Async (A : Type) :=
| Settle (outcome : Settled A)
| Await (q : Query) (next : Reply -> Async A).
Arguments Settle {A} outcome.
Arguments Await {A} q next.

Definition resolve {A : Type} (a : A) : Async A := Settle (Fulfilled a).

(** [const v = await call; k v]: a rejection is thrown at the [await]. *)
Definition await {A : Type} (q : Query) (k : option string -> Async A) : Async A :=
  Await q (fun reply =>
             match reply with
             | Resolved v => k v
             | Rejected reason => Settle (Failed reason)
             end).

Notation "x <~ q ;; k" := (await q (fun x => k))
  (at level 61, q at next level, right associativity).

(** The readings of the clock during one [processEmail]. *)
Record Clock := {
  startTime : Z;
  extractedAt : JSDate;
  savedAt : JSDate;
  endTime : Z;
  finishedAt : JSDate
}.

(** The [priority] written by [saveProcessingResults]. *)
Definition storedPriority (p : option TodoPriority) : Z :=
  match p with
  | None => 3
  | Some urgent => 1
  | Some high => 2
  | Some medium => 3
  | Some low => 4
  end.

Definition todoRow (emailId userId : string) (item : TodoItem) : TodoRow :=
  {| row_emailId := emailId;
     row_userId := userId;
     row_title := title item;
     row_description := description item;
     row_priority := TodoExtractionService.priority_string (todo_priority item);
     row_status := status item;
     row_dueDate := dueDate item;
     row_confidence := todo_confidence item;
     row_context := context item |}.

(** The [data] that [saveProcessingResults] passes to [prisma.email.update]. *)
Definition updateData (now : JSDate) (classification : EmailClassificationResult)
  (todoExtraction : option TodoExtractionResult) : EmailUpdate :=
  {| stored_category := category classification;
     stored_subcategories := subcategories classification;
     stored_isNewsletter := isNewsletter classification;
     stored_priority := storedPriority (priority classification);
     stored_hasTodos :=
       match todoExtraction with
       | Some t => hasTodos t
       | None => false
       end;
     stored_processedAt := now;
     stored_classification := (confidence classification, reasoning classification);
     stored_todoExtraction :=
       match todoExtraction with
       | Some t => Some (te_confidence t, te_reasoning t)
       | None => None
       end |}.

(** [saveProcessingResults]; its [catch] block logs and throws the error again. *)
Definition saveProcessingResults (now : JSDate) (emailId : string)
  (classification : option EmailClassificationResult)
  (todoExtraction : option TodoExtractionResult) : Async unit :=
  let saveTodos : Async unit :=
    match todoExtraction with
    | Some t =>
        if hasTodos t && (0 <? List.length (todos t)) then
          emailWithUser <~ email_findUnique emailId ;;
          match emailWithUser with
          | None => resolve tt
          | Some userId =>
              _ <~ todo_createMany (map (todoRow emailId userId) (todos t)) ;;
              resolve tt
          end
        else resolve tt
    | None => resolve tt
    end in
  match classification with
  | Some c => _ <~ email_update emailId (updateData now c todoExtraction) ;; saveTodos
  | None => saveTodos
  end.

(** The value of a settled promise of [Promise.allSettled], or [null]. *)
Definition fulfilledValue {A : Type} (result : option (Completion A)) : option A :=
  match result with
  | Some (Normal a) => Some a
  | Some (Throw _) | None => None
  end.

Definition placeholder (reasoning : string) : EmailClassificationResult :=
  {| category := other;
     subcategories := [];
     confidence := 0;
     isNewsletter := false;
     priority := None;
     reasoning := reasoning |}.

Definition noTodos (reasoning : string) : TodoExtractionResult :=
  {| todos := [];
     hasTodos := false;
     te_confidence := 0;
     te_reasoning := reasoning |}.

Definition errorMessage (error : Reason) : string :=
  match error with
  | ErrorObject message => message
  | OtherValue => "Unknown error"
  end.

(** A [processEmail] that has reached [saveProcessingResults]: its email,
    its clock, the two results, and what is left of the saving. *)
Record Running := {
  running_email : EmailProcessingInput;
  running_clock : Clock;
  running_classification : option EmailClassificationResult;
  running_todoExtraction : option TodoExtractionResult;
  running_save : Async unit
}.

Definition set_save (t : Running) (save : Async unit) : Running :=
  {| running_email := running_email t;
     running_clock := running_clock t;
     running_classification := running_classification t;
     running_todoExtraction := running_todoExtraction t;
     running_save := save |}.

(** The end of [processEmail]: after the saving, or in the [catch] block. *)
Definition finish (t : Running) (saved : Settled unit) : EmailProcessingResult :=
  let email := running_email t in
  let clock := running_clock t in
  match saved with
  | Fulfilled _ =>
      {| emailId := id email;
         classification :=
           match running_classification t with
           | Some c => c
           | None => placeholder "Classification disabled or failed"
           end;
         todoExtraction :=
           match running_todoExtraction t with
           | Some t => t
           | None => noTodos "Todo extraction disabled or failed"
           end;
         metadata :=
           {| processedAt := finishedAt clock;
              processingVersion := "1.0.0";
              tokensUsed :=
                estimateTokensUsed (orEmpty (subject email)) (orEmpty (body email));
              processingTime := (endTime clock - startTime clock)%Z;
              errors := [] |};
         success := true;
         error := None |}
  | Failed error =>
      {| emailId := id email;
         classification := placeholder "Processing failed due to error";
         todoExtraction := noTodos "Processing failed due to error";
         metadata :=
           {| processedAt := finishedAt clock;
              processingVersion := "1.0.0";
              tokensUsed := 0;
              processingTime := (endTime clock - startTime clock)%Z;
              errors := [errorMessage error] |};
         success := false;
         error := Some (errorMessage error) |}
  end.

(** The result that [processBatchEmails] pushes for a rejected promise. *)
Definition batchFailed (emailId : string) (now : JSDate) : EmailProcessingResult :=
  {| emailId := emailId;
     classification := placeholder "Batch processing failed";
     todoExtraction := noTodos "Batch processing failed";
     metadata :=
       {| processedAt := now;
          processingVersion := "1.0.0";
          tokensUsed := 0;
          processingTime := 0;
          errors := ["Batch processing failed"] |};
     success := false;
     error := Some "Batch processing failed" |}.

Section Host.

Variable Date_parse : string -> option JSDate.

(** The database: its reply to a call, given the calls made before. *)
Variable prisma : list Query -> Query -> Reply.

(** A computation run to its end, each call answered when it is made. *)
Fixpoint run {A : Type} (m : Async A) (log : list Query) : Settled A * list Query :=
  match m with
  | Settle outcome => (outcome, log)
  | Await q next => run (next (prisma log q)) (log ++ [q])%list
  end.

(** [processEmail] up to its first [await]: both services run to their
    end when they are called, the categorization first. *)
Definition start (clock : Clock) (email : EmailProcessingInput) (p : Processor)
  : Running * Processor :=
  let classified :=
    if enableCategorization (config p)
    then Some (EmailCategorizationService.classifyEmail
                 (JStr (orEmpty (subject email))) (JStr (orEmpty (body email)))
                 (sender email))
    else None in
  let (extracted, p1) :=
    if enableTodoExtraction (config p)
    then
      let (result, svc) :=
        TodoExtractionService.extractTodos Date_parse (extractedAt clock)
          (todoExtractionService p)
          (JStr (orEmpty (subject email))) (JStr (orEmpty (body email))) (sender email) in
      (Some result,
       {| config := config p; timePatterns := TodoExtractionService.timePatterns svc |})
    else (None, p) in
  let classification := fulfilledValue classified in
  let todoExtraction := fulfilledValue extracted in
  ({| running_email := email;
      running_clock := clock;
      running_classification := classification;
      running_todoExtraction := todoExtraction;
      running_save :=
        saveProcessingResults (savedAt clock) (id email) classification todoExtraction |},
   p1).

(** [processEmail]: the result, the processor as the call left it, and
    the database calls made. *)
Definition processEmail (clock : Clock) (email : EmailProcessingInput) (p : Processor)
  (log : list Query) : EmailProcessingResult * Processor * list Query :=
  let (t, p1) := start clock email p in
  let (saved, log1) := run (running_save t) log in
  (finish t saved, p1, log1).

(** *** Batches

    [processBatchEmails] starts a [processEmail] for every email of a
    batch and awaits them together.  Each one runs up to its first
    [await], which comes after both services have run (they contain no
    [await]); what is left of it are the database calls of
    [saveProcessingResults].  The code does not fix the order in which
    the calls of different emails reach the database: a schedule lists,
    call by call, which of the running [processEmail] is served next.  An
    entry that names none of them, or one that has ended, is skipped, and
    what the schedule leaves open is served email by email. *)

(** [batch.map(email => this.processEmail(email))]: every call runs up to
    its first [await] before the next one starts. *)
Fixpoint startAll (batch : list (Clock * EmailProcessingInput)) (p : Processor)
  : list Running * Processor :=
  match batch with
  | [] => ([], p)
  | (clock, email) :: rest =>
      let (t, p1) := start clock email p in
      let (ts, p2) := startAll rest p1 in
      (t :: ts, p2)
  end.

(** The call of one of the running [processEmail] reaches the database. *)
Fixpoint stepAt (i : nat) (threads : list Running) (log : list Query) {struct threads}
  : list Running * list Query :=
  match threads with
  | [] => ([], log)
  | t :: rest =>
      match i with
      | O =>
          match running_save t with
          | Await q next => (set_save t (next (prisma log q)) :: rest, (log ++ [q])%list)
          | Settle _ => (threads, log)
          end
      | S i' =>
          let (rest', log') := stepAt i' rest log in
          (t :: rest', log')
      end
  end.

(** The calls of the running [processEmail] reach the database in the
    order of the [schedule], which names the caller of each. *)
Fixpoint interleave (schedule : list nat) (threads : list Running) (log : list Query)
  : list Running * list Query :=
  match schedule with
  | [] => (threads, log)
  | i :: later =>
      let (threads1, log1) := stepAt i threads log in
      interleave later threads1 log1
  end.

(** What the [schedule] leaves is run in order; every promise of
    [processEmail] is fulfilled. *)
Fixpoint settleAll (threads : list Running) (log : list Query)
  : list (Running * Settled EmailProcessingResult) * list Query :=
  match threads with
  | [] => ([], log)
  | t :: rest =>
      let (saved, log1) := run (running_save t) log in
      let (settled, log2) := settleAll rest log1 in
      ((t, Fulfilled (finish t saved)) :: settled, log2)
  end.

(** The [forEach] over [batchResults]. *)
Definition pushResult (now : JSDate) (entry : Running * Settled EmailProcessingResult)
  : EmailProcessingResult :=
  match snd entry with
  | Fulfilled value => value
  | Failed _ => batchFailed (id (running_email (fst entry))) now
  end.

(** [for (let i = 0; i < emails.length; i += batchSize) { ... }] of
    [processBatchEmails], from the index [i] on; each email comes with the
    clock readings of its processing, each batch with its schedule.
    [None]: the loop has not ended after [fuel] rounds. *)
Fixpoint processBatchLoop (fuel : nat) (emails : list (Clock * EmailProcessingInput))
  (batchSize i : Z) (schedules : list (list nat)) (results : list EmailProcessingResult)
  (p : Processor) (log : list Query)
  : option (list EmailProcessingResult * Processor * list Query) :=
  if (i <? Z.of_nat (List.length emails))%Z then
    match fuel with
    | O => None
    | S fuel' =>
        let batch := Batch.slice emails i (i + batchSize) in
        let (threads, p1) := startAll batch p in
        let (threads1, log1) := interleave (hd [] schedules) threads log in
        let (batchResults, log2) := settleAll threads1 log1 in
        let pushed :=
          map (fun entry => pushResult (finishedAt (running_clock (fst entry))) entry)
              batchResults in
        processBatchLoop fuel' emails batchSize (i + batchSize) (tl schedules)
          (results ++ pushed)%list p1 log2
    end
  else Some (results, p, log).

(** [processBatchEmails] *)
Definition processBatchEmails (fuel : nat) (emails : list (Clock * EmailProcessingInput))
  (schedules : list (list nat)) (p : Processor) (log : list Query)
  : option (list EmailProcessingResult * Processor * list Query) :=
  processBatchLoop fuel emails (batchSize (config p)) 0 schedules [] p log.

End Host.

End AIEmailProcessorService.

(** ** [GmailFetcherService]: headers and address lists *)

Module GmailFetcherService.
Import JS RegExp Types.

(** [gmail_v1.Schema$MessagePartHeader]; [None] is [null] or [undefined]. *)
Record MessagePartHeader := {
  name : option string;
  value : option string
}.

(** The [EmailHeaders] object: its own properties, as far as they are
    looked up by name. *)
Definition EmailHeaders : Type := Batch.Map string.

(** [object[key] = v] for a string [v]: the key ['__proto__'] reaches the
    setter of [Object.prototype], which ignores a string. *)
Definition assignProperty (key v : string) (object : EmailHeaders) : EmailHeaders :=
  if String.eqb key "__proto__" then object else Batch.Map_set key v object.

(** Is a value of type [string | null | undefined] truthy? *)
Definition truthy (v : option string) : bool :=
  match v with
  | Some s => negb (String.eqb s "")
  | None => false
  end.

(** [parseHeaders] *)
Definition parseHeaders (headers : list MessagePartHeader) : EmailHeaders :=
  fold_left
    (fun parsedHeaders header =>
       match name header, value header with
       | Some n, Some v =>
           if truthy (name header) && truthy (value header)
           then assignProperty (toLowerCase n) v parsedHeaders
           else parsedHeaders
       | _, _ => parsedHeaders
       end)
    headers [].

(** [s.split(sep)] for a separator of one code unit. *)
Fixpoint split_unit (sep : ascii) (s : string) : list string :=
  match s with
  | EmptyString => [EmptyString]
  | String c s' =>
      if Ascii.eqb c sep then EmptyString :: split_unit sep s'
      else
        match split_unit sep s' with
        | piece :: pieces => String c piece :: pieces
        | [] => [String c EmptyString]
        end
  end.

(** The argument of [parseEmailList]: [string | string[] | undefined]. *)
Inductive EmailList :=
| Absent
| Text (emailString : string)
| Texts (emailStrings : list string).

(** [parseEmailList] for a string. *)
Definition parseEmailString (emailString : string) : list string :=
  if String.eqb emailString "" then []
  else
    filter (fun email => includes email "@")
           (map trim (split_unit "," emailString)).

(** [parseEmailList] *)
Definition parseEmailList (emailString : EmailList) : list string :=
  match emailString with
  | Absent => []
  | Text s => parseEmailString s
  | Texts l => flat_map parseEmailString l
  end.

End GmailFetcherService.

(* ================================================================== *)
(** * Specification-side definitions *)

Import JS RegExp Types.

(** ** Reachable matcher states *)

Module Progress.

(** The index and the remaining input of a state add up to the length
    [n] of the whole input. *)
Definition within (n : nat) (s : mstate) : Prop :=
  m_pos s + String.length (m_rest s) = n.

(** [k] is entered at a state at or after [s] and yields [e]. *)
Definition reaches (n : nat) (s : mstate) (k : Cont) (e : mstate) : Prop :=
  exists s', within n s' /\ m_pos s <= m_pos s' /\ k s' = Some e.

(** [k1] and [k2] give the same result at every state at or after [s]. *)
Definition agree (n : nat) (s : mstate) (k1 k2 : Cont) : Prop :=
  forall s', within n s' -> m_pos s <= m_pos s' -> k1 s' = k2 s'.

End Progress.

(** ** The additive score *)

Module ScoreSpec.
Import EmailCategorizationService.

(** The score as the specification words it: every pattern of the catalog
    contributes its weight when the text contains it, and 0 otherwise. *)
Definition weight (w : Z) (text pattern : string) : Z :=
  if includes text pattern then w else 0%Z.

Definition total (f : string -> Z) (patterns : list string) : Z :=
  fold_right Z.add 0%Z (map f patterns).

Definition additiveScore (p : CategoryPatterns) (subject body sender : string) : Z :=
  (total (fun keyword => weight 2 body keyword + weight 3 subject keyword) (keywords p)
   + total (weight 4 sender) (senderPatterns p)
   + total (weight 3 subject) (subjectPatterns p)
   + total (weight 2 body) (bodyPatterns p)
   + total (weight 3 sender) (domainPatterns p))%Z.

(** The [scores] object that the loop of [classifyEmail] builds. *)
Definition scoresOf (subject body sender : string) : Scores :=
  map (fun entry =>
         (fst entry,
          calculateCategoryScore (snd entry)
            (toLowerCase subject) (toLowerCase body) (toLowerCase sender)))
      categoryPatterns.

End ScoreSpec.

(** ** Scenarios of the specification and of the tests *)

Module Scenario.
Import TodoExtractionService.

(** The configuration that [AIEmailProcessorService] builds when none is
    given (src/services/ai-email-processor.ts), also the [defaultConfig]
    of the tests. *)
Definition defaultConfig : AIProcessingConfig :=
  {| enableCategorization := true;
     enableTodoExtraction := true;
     enableNewsletterDetection := true;
     maxTokensPerEmail := 4000;
     confidenceThreshold := 5 # 10;
     batchSize := 10 |}.

Definition todosOf (r : Completion TodoExtractionResult) : list TodoItem :=
  match r with
  | Normal x => todos x
  | Throw _ => []
  end.

Definition reasoningOf (r : Completion TodoExtractionResult) : string :=
  match r with
  | Normal x => te_reasoning x
  | Throw _ => EmptyString
  end.

(** Three numbered items, one per line. *)
Definition reviewList : string :=
  "1. Review the document" ++ newline
  ++ "2. Please review the document" ++ newline
  ++ "3. Review the attached document".

(** A numbered item of 71 code units that starts with U+00DF. *)
Definition sharpItem : string :=
  String (ascii_of_nat 223)
         "eta build: please review the release notes and send your feedback soon".

End Scenario.

(** The link of the newsletter scenario: [href="https://x.com/unsubscribe?x=1"]. *)
Definition unsubscribeAnchor : string :=
  "href=" ++ dquote ++ "https://x.com/unsubscribe?x=1" ++ dquote.

(** ** List-derived candidates *)

(** Fields of a list-derived todo that do not depend on the RegExp state. *)
Definition plain (content : string) (s : TodoStatus) (t : TodoItem) : Prop :=
  description t = content
  /\ title t = TodoExtractionService.generateTodoTitle content
  /\ todo_priority t = medium
  /\ todo_confidence t = 7 # 10
  /\ status t = s.

(** The status that the checkbox loop assigns. *)
Definition checkboxStatus (box : string) : TodoStatus :=
  if test true TodoExtractionService.checkedBox box then completed else pending.

(** The title after the prefix is removed and the length is limited. *)
Definition limitedTitle (content : string) : string :=
  let title := remove_first true TodoExtractionService.politePrefix content in
  if 60 <? String.length title then substring_to 57 title ++ "..." else title.

(** ** Ranking of the scores *)

Module SortSpec.
Import EmailCategorizationService.

(** The first entry among those of maximal score. *)
Fixpoint firstMax (l : Scores) : option (EmailCategory * Z) :=
  match l with
  | [] => None
  | x :: l' =>
      match firstMax l' with
      | None => Some x
      | Some y => if (snd y <=? snd x)%Z then Some x else Some y
      end
  end.

(** Descending by score. *)
Definition descending (a b : EmailCategory * Z) : Prop := (snd b <= snd a)%Z.

End SortSpec.

(** ** Indicators of the reasoning *)

Module IndicatorSpec.

(** An indicator that [getTopIndicators] can list for a catalog entry:
    a keyword contained in the subject or the body, or a sender pattern
    contained in the sender, each as the text is written. *)
Definition indicator (patterns : CategoryPatterns) (subject body sender indicator : string)
  : Prop :=
  (exists keyword,
      indicator = "keyword: " ++ keyword
      /\ In keyword (keywords patterns)
      /\ includes subject keyword || includes body keyword = true)
  \/ (exists pattern,
         indicator = "sender pattern: " ++ pattern
         /\ In pattern (senderPatterns patterns)
         /\ includes sender pattern = true).

End IndicatorSpec.

(** ** Priorities in order *)

Module PrioritySpec.

(** The tiers in rising order; [None] is the lowest. *)
Definition priorityRank (p : option TodoPriority) : nat :=
  match p with
  | None => 0
  | Some low => 1
  | Some medium => 2
  | Some high => 3
  | Some urgent => 4
  end.

End PrioritySpec.

(** ** Candidates of the extraction *)

Module ExtractionSpec.
Import TodoExtractionService.

(** The priority and confidence pairs that a candidate can carry: the four
    keyword tiers, and the imperative fallback. *)
Definition tiers : list (TodoPriority * Q) :=
  [(urgent, 9 # 10); (high, 8 # 10); (medium, 7 # 10); (low, 6 # 10); (medium, 6 # 10)].

(** A sentence that [findActionItems] turns into a candidate. *)
Definition accepted (sentence : string) : bool :=
  match findActionInSentence sentence with
  | Some _ =>
      negb ((String.length (trim sentence) <? 10) || (200 <? String.length (trim sentence)))
  | None => false
  end.

(** The candidates of [extractTodos] before deduplication: those of the
    sentences, then those of the explicit lists. *)
Definition candidates (Date_parse : string -> option JSDate) (now : JSDate)
  (svc : Service) (subject body : JSVal) : list TodoItem :=
  let text := ToString subject ++ " " ++ ToString body in
  let (actionItems, svc1) := findActionItems Date_parse now svc text in
  let (explicitTodos, _) := extractExplicitTodos Date_parse now svc1 text in
  (actionItems ++ explicitTodos)%list.

(** A candidate made from [sentence]. *)
Definition fromSentence (sentence : string) (t : TodoItem) : Prop :=
  context t = sentence
  /\ description t = trim sentence
  /\ title t = generateTodoTitle (trim sentence)
  /\ status t = pending
  /\ 10 <= String.length (trim sentence) <= 200
  /\ exists a,
       findActionInSentence sentence = Some a
       /\ todo_priority t = ap_priority a
       /\ todo_confidence t = ap_confidence a
       /\ actionKeywords t
          = filter (fun keyword => includes (toLowerCase sentence) keyword) (ap_keywords a).

End ExtractionSpec.

(** ** The extraction without its due dates *)

Module DatelessSpec.
Import TodoExtractionService.

(** A todo with its due date removed. *)
Definition withoutDueDate (t : TodoItem) : TodoItem :=
  {| title := title t;
     description := description t;
     todo_priority := todo_priority t;
     status := status t;
     dueDate := None;
     todo_confidence := todo_confidence t;
     context := context t;
     actionKeywords := actionKeywords t |}.

(** The todo of a sentence, if it gives one. *)
Definition sentenceTodo (sentence : string) : list TodoItem :=
  match findActionInSentence sentence with
  | Some action =>
      if (String.length (trim sentence) <? 10) || (200 <? String.length (trim sentence))
      then []
      else
        [ {| title := generateTodoTitle (trim sentence);
             description := trim sentence;
             todo_priority := ap_priority action;
             status := pending;
             dueDate := None;
             todo_confidence := ap_confidence action;
             context := sentence;
             actionKeywords :=
               filter (fun keyword => includes (toLowerCase sentence) keyword)
                      (ap_keywords action) |} ]
  | None => []
  end.

(** The todo of a list item. *)
Definition itemTodo (s : TodoStatus) (content : string) : TodoItem :=
  {| title := generateTodoTitle content;
     description := content;
     todo_priority := medium;
     status := s;
     dueDate := None;
     todo_confidence := 7 # 10;
     context := content;
     actionKeywords := [] |}.

(** The candidates of a text: of its sentences, its numbered items, its
    bullet items and its checkboxes. *)
Definition candidates (text : string) : list TodoItem :=
  (flat_map sentenceTodo (splitIntoSentences text)
   ++ map (itemTodo pending) (filter looksLikeTodo (map numberedContent (numberedItems text)))
   ++ map (itemTodo pending) (filter looksLikeTodo (map bulletContent (bulletItems text)))
   ++ map (fun box => itemTodo (checkboxStatus box) (checkboxContent box))
          (checkboxItems text))%list.

(** The result for a threshold, a subject and a body. *)
Definition result (threshold : Q) (subject body : JSVal) : TodoExtractionResult :=
  let text := ToString subject ++ " " ++ ToString body in
  let kept :=
    filter (fun item => Qle_bool threshold (todo_confidence item))
           (deduplicateTodos (candidates text)) in
  {| todos := kept;
     hasTodos := 0 <? List.length kept;
     te_confidence :=
       if 0 <? List.length kept
       then Qred (fold_left (fun sum item => sum + todo_confidence item)%Q kept 0%Q
                  / inject_Z (Z.of_nat (List.length kept)))%Q
       else 0%Q;
     te_reasoning := generateReasoning kept |}.

End DatelessSpec.

(** ** What a call leaves of the service *)

Module StateSpec.

(** A RegExp object apart from its [lastIndex]. *)
Definition unindexed (re : RegExp) : regex * bool * bool :=
  (source re, ignoreCase re, global re).

(** The same service, up to the [lastIndex] of its time patterns. *)
Definition sameService (a b : TodoExtractionService.Service) : Prop :=
  TodoExtractionService.config a = TodoExtractionService.config b
  /\ map unindexed (TodoExtractionService.timePatterns a)
     = map unindexed (TodoExtractionService.timePatterns b).

End StateSpec.

(** ** Reference results of the batch methods *)

Module BatchSpec.
Import Batch.

(** The value of the last entry with key [k]. *)
Definition lastWith {V : Type} (k : string) (entries : list (string * V)) : option V :=
  fold_left (fun found entry => if String.eqb (fst entry) k then Some (snd entry) else found)
            entries None.

(** The classification of one email of a batch. *)
Definition classified (email : Email) : EmailClassificationResult :=
  match EmailCategorizationService.classifyEmail
          (email_subject email) (email_body email) (email_sender email) with
  | Normal r => r
  | Throw _ => EmailCategorizationService.classificationFailed
  end.

(** The emails extracted one after the other on the same service. *)
Fixpoint extractedInOrder (Date_parse : string -> option JSDate) (now : JSDate)
  (svc : TodoExtractionService.Service) (emails : list Email)
  : list (string * TodoExtractionResult) * TodoExtractionService.Service :=
  match emails with
  | [] => ([], svc)
  | email :: rest =>
      let (r, svc1) :=
        TodoExtractionService.extractTodos Date_parse now svc
          (email_subject email) (email_body email) (email_sender email) in
      let (rs, svc2) := extractedInOrder Date_parse now svc1 rest in
      ((email_id email,
        match r with
        | Normal x => x
        | Throw _ => TodoExtractionService.extractionFailed
        end) :: rs, svc2)
  end.

End BatchSpec.

(** ** Reference behaviour of the processor *)

Module ProcessorSpec.
Import AIEmailProcessorService.

Section Database.

Variable Date_parse : string -> option JSDate.
Variable prisma : list Query -> Query -> Reply.

(** The [calls] made in order, up to the first one that the database
    rejects: the reason of the rejection, if any, and the calls made. *)
Fixpoint replay (log calls : list Query) : option Reason * list Query :=
  match calls with
  | [] => (None, log)
  | q :: rest =>
      match prisma log q with
      | Resolved _ => replay (log ++ [q])%list rest
      | Rejected reason => (Some reason, (log ++ [q])%list)
      end
  end.

(** The calls that storing the two results takes: the update of the
    email when there is a classification; when there are todos, the
    lookup of the email and, if it is found, the insertion of one row
    per todo for the user of its account. *)
Definition plannedCalls (now : JSDate) (emailId : string)
  (classification : option EmailClassificationResult)
  (todoExtraction : option TodoExtractionResult) (log : list Query) : list Query :=
  let updates :=
    match classification with
    | Some c => [email_update emailId (updateData now c todoExtraction)]
    | None => []
    end in
  let inserts :=
    match todoExtraction with
    | Some t =>
        match todos t with
        | [] => []
        | _ :: _ =>
            if hasTodos t then
              email_findUnique emailId
              :: match prisma (log ++ updates)%list (email_findUnique emailId) with
                 | Resolved (Some userId) =>
                     [todo_createMany (map (todoRow emailId userId) (todos t))]
                 | _ => []
                 end
            else []
        end
    | None => []
    end in
  (updates ++ inserts)%list.

(** The classification that [processEmail] asks for. *)
Definition classificationOf (p : Processor) (email : EmailProcessingInput)
  : option EmailClassificationResult :=
  if enableCategorization (config p)
  then
    match EmailCategorizationService.classifyEmail
            (JStr (orEmpty (subject email))) (JStr (orEmpty (body email))) (sender email) with
    | Normal c => Some c
    | Throw _ => None
    end
  else None.

(** The todo extraction that [processEmail] asks for. *)
Definition extractionOf (now : JSDate) (p : Processor) (email : EmailProcessingInput)
  : option TodoExtractionResult :=
  if enableTodoExtraction (config p)
  then
    match fst (TodoExtractionService.extractTodos Date_parse now (todoExtractionService p)
                 (JStr (orEmpty (subject email))) (JStr (orEmpty (body email)))
                 (sender email)) with
    | Normal t => Some t
    | Throw _ => None
    end
  else None.

(** The place of a call in the order of [saveProcessingResults]. *)
Definition step (q : Query) : nat :=
  match q with
  | email_update _ _ => 0
  | email_findUnique _ => 1
  | todo_createMany _ => 2
  end.

(** The calls that one [processEmail] plans. *)
Definition callsOf (clock : Clock) (p : Processor) (email : EmailProcessingInput)
  (log : list Query) : list Query :=
  plannedCalls (savedAt clock) (id email) (classificationOf p email)
               (extractionOf (extractedAt clock) p email) log.

(** The emails processed one after the other, each to its end before
    the next one starts. *)
Fixpoint processInOrder (emails : list (Clock * EmailProcessingInput)) (p : Processor)
  (log : list Query) : list EmailProcessingResult * Processor * list Query :=
  match emails with
  | [] => ([], p, log)
  | (clock, email) :: rest =>
      let '(result, p1, log1) := processEmail Date_parse prisma clock email p log in
      let '(results, p2, log2) := processInOrder rest p1 log1 in
      (result :: results, p2, log2)
  end.

(** The same [processEmail], whatever is left of its saving. *)
Definition sameProcessing (a b : Running) : Prop :=
  running_email a = running_email b
  /\ running_clock a = running_clock b
  /\ running_classification a = running_classification b
  /\ running_todoExtraction a = running_todoExtraction b.

End Database.

End ProcessorSpec.

(** ** Reference behaviour of the header parser *)

Module HeaderSpec.
Import GmailFetcherService.

(** The headers that count: name and value non-empty; each with its name
    in lower case. *)
Definition usable (headers : list MessagePartHeader) : list (string * string) :=
  flat_map
    (fun header =>
       match name header, value header with
       | Some n, Some v =>
           if String.eqb n "" || String.eqb v "" || String.eqb (toLowerCase n) "__proto__"
           then []
           else [(toLowerCase n, v)]
       | _, _ => []
       end)
    headers.

(** An address as the parser returns it: trimmed, with an at sign and
    without a comma. *)
Definition address (email : string) : Prop :=
  trim email = email /\ includes email "@" = true /\ includes email "," = false.

End HeaderSpec.

(** ** Sample inputs *)

Module Sample.

Definition noDates (s : string) : option JSDate := None.

Definition aMonday : JSDate := {| date_day := 20759; date_ms := 0 |}.

Definition emails : list Batch.Email :=
  [ {| Batch.email_id := "e1"; Batch.email_subject := JStr "Weekly digest";
       Batch.email_body := JStr "Please review the report by Monday";
       Batch.email_sender := JStr "news@example.com" |};
    {| Batch.email_id := "e2"; Batch.email_subject := JNull;
       Batch.email_body := JStr "Call the bank about the invoice.";
       Batch.email_sender := JStr "billing@example.com" |};
    {| Batch.email_id := "e1"; Batch.email_subject := JStr "URGENT";
       Batch.email_body := JStr "We need to fix this immediately";
       Batch.email_sender := JStr "dev@example.com" |} ].

Definition configWith (threshold : Q) (size : Z) : AIProcessingConfig :=
  {| enableCategorization := true;
     enableTodoExtraction := true;
     enableNewsletterDetection := true;
     maxTokensPerEmail := 4000;
     confidenceThreshold := threshold;
     batchSize := size |}.

(** A service with the given threshold and batch size. *)
Definition service (threshold : Q) (size : Z) : TodoExtractionService.Service :=
  TodoExtractionService.new (configWith threshold size).

(** A database that resolves every call, and knows the account of every email. *)
Definition database (log : list AIEmailProcessorService.Query)
  (q : AIEmailProcessorService.Query) : AIEmailProcessorService.Reply :=
  match q with
  | AIEmailProcessorService.email_findUnique _ =>
      AIEmailProcessorService.Resolved (Some "user-1")
  | _ => AIEmailProcessorService.Resolved None
  end.

Definition clock : AIEmailProcessorService.Clock :=
  {| AIEmailProcessorService.startTime := 1000;
     AIEmailProcessorService.extractedAt := aMonday;
     AIEmailProcessorService.savedAt := aMonday;
     AIEmailProcessorService.endTime := 1012;
     AIEmailProcessorService.finishedAt := aMonday |}.

(** An email without subject. *)
Definition email : AIEmailProcessorService.EmailProcessingInput :=
  {| AIEmailProcessorService.id := "e2";
     AIEmailProcessorService.subject := JNull;
     AIEmailProcessorService.body := JStr "Call the bank about the invoice.";
     AIEmailProcessorService.sender := JStr "billing@example.com";
     AIEmailProcessorService.receivedAt := aMonday |}.

Definition onlyThreshold (threshold : Q) : AIEmailProcessorService.PartialConfig :=
  {| AIEmailProcessorService.new_enableCategorization := None;
     AIEmailProcessorService.new_enableTodoExtraction := None;
     AIEmailProcessorService.new_enableNewsletterDetection := None;
     AIEmailProcessorService.new_maxTokensPerEmail := None;
     AIEmailProcessorService.new_confidenceThreshold := Some threshold;
     AIEmailProcessorService.new_batchSize := None |}.

Definition bothDisabled : AIEmailProcessorService.PartialConfig :=
  {| AIEmailProcessorService.new_enableCategorization := Some false;
     AIEmailProcessorService.new_enableTodoExtraction := Some false;
     AIEmailProcessorService.new_enableNewsletterDetection := None;
     AIEmailProcessorService.new_maxTokensPerEmail := None;
     AIEmailProcessorService.new_confidenceThreshold := None;
     AIEmailProcessorService.new_batchSize := None |}.

Definition onlyBatchSize (size : Z) : AIEmailProcessorService.PartialConfig :=
  {| AIEmailProcessorService.new_enableCategorization := None;
     AIEmailProcessorService.new_enableTodoExtraction := None;
     AIEmailProcessorService.new_enableNewsletterDetection := None;
     AIEmailProcessorService.new_maxTokensPerEmail := None;
     AIEmailProcessorService.new_confidenceThreshold := None;
     AIEmailProcessorService.new_batchSize := Some size |}.

(** An email with a request and a weekday. *)
Definition request : AIEmailProcessorService.EmailProcessingInput :=
  {| AIEmailProcessorService.id := "e1";
     AIEmailProcessorService.subject := JStr "Weekly digest";
     AIEmailProcessorService.body := JStr "Please review the report by Monday";
     AIEmailProcessorService.sender := JStr "news@example.com";
     AIEmailProcessorService.receivedAt := aMonday |}.

Definition batch
  : list (AIEmailProcessorService.Clock * AIEmailProcessorService.EmailProcessingInput) :=
  [(clock, request); (clock, email); (clock, request)].

Definition addresses : list string := ["ann@example.com"; "Bob <bob@example.org>"].

End Sample.

(* ================================================================== *)
(** * Properties *)

(** ** The matcher only moves forward, and its fuel is enough *)

Section Forward.

Variable n : nat.

Local Abbreviation within := (Progress.within n).
Local Abbreviation reaches := (Progress.reaches n).
Local Abbreviation agree := (Progress.agree n).

Lemma reaches_refl s k e : within s -> k s = Some e -> reaches s k e.
Proof. intros W H. exists s. auto. Qed.

Lemma reaches_trans s s1 k e :
  m_pos s <= m_pos s1 -> reaches s1 k e -> reaches s k e.
Proof. intros L [s2 [W [L2 H]]]. exists s2. repeat split; auto; lia. Qed.

Lemma eat_reaches p k s e :
  within s -> eat p k s = Some e -> reaches s k e.
Proof.
  unfold eat, Progress.within. intros W H.
  destruct (m_rest s) as [|c rest] eqn:R; [discriminate|].
  destruct (p c); [|discriminate].
  eexists. split; [|split; [|exact H]]; unfold Progress.within; cbn in *; lia.
Qed.

Lemma eat_lit_reaches i l : forall k s e,
  within s -> eat_lit i l k s = Some e -> reaches s k e.
Proof.
  induction l as [|a l IH]; intros k s e W H; cbn in H.
  - now apply reaches_refl.
  - apply eat_reaches in H; [|assumption].
    destruct H as [s1 [W1 [L1 H1]]].
    apply reaches_trans with s1; [assumption|]. now apply IH.
Qed.

(** A loop whose body only moves forward only moves forward. *)
Lemma star_loop_reaches greedy (body : Cont -> Cont) k :
  (forall k' s e, within s -> body k' s = Some e -> reaches s k' e) ->
  forall fuel s e,
    within s -> star_loop greedy body k fuel s = Some e -> reaches s k e.
Proof.
  intros Hbody. induction fuel as [|fuel IH]; intros s e W H; cbn [star_loop] in H.
  - destruct greedy; [|destruct (k s) eqn:E; [injection H as <-|discriminate]];
      now apply reaches_refl.
  - assert (again : forall e',
               body (fun s' => if m_pos s' =? m_pos s then None
                               else star_loop greedy body k fuel s') s = Some e' ->
               reaches s k e').
    { intros e' H'. apply Hbody in H'; [|assumption].
      destruct H' as [s1 [W1 [L1 H1]]].
      destruct (m_pos s1 =? m_pos s); [discriminate|].
      apply reaches_trans with s1; [assumption|]. now apply IH. }
    destruct greedy.
    + destruct (body _ s) eqn:E.
      * injection H as <-. now apply again.
      * now apply reaches_refl.
    + destruct (k s) eqn:E.
      * injection H as <-. now apply reaches_refl.
      * now apply again.
Qed.

Lemma rmatch_reaches i r : forall k s e,
  within s -> rmatch i r k s = Some e -> reaches s k e.
Proof.
  induction r as [|l| |neg items|a IHa b IHb|a IHa b IHb|greedy a IHa|g a IHa| |];
    intros k s e W H; cbn [rmatch] in H.
  - now apply reaches_refl.
  - now apply eat_lit_reaches with i l.
  - now apply eat_reaches in H.
  - now apply eat_reaches in H.
  - apply IHa in H; [|assumption]. destruct H as [s1 [W1 [L1 H1]]].
    apply reaches_trans with s1; [assumption|]. now apply IHb.
  - destruct (rmatch i a k s) eqn:E.
    + injection H as <-. now apply IHa.
    + now apply IHb.
  - apply star_loop_reaches in H; assumption.
  - apply IHa in H; [|assumption]. destruct H as [s1 [W1 [L1 H1]]].
    exists (set_cap g (m_pos s) s1). repeat split; assumption.
  - destruct (m_pos s =? 0); [now apply reaches_refl | discriminate].
  - destruct (xorb (word_before s) (word_after s)); [now apply reaches_refl | discriminate].
Qed.

(** The result depends on the continuation only at the states that the
    match can reach. *)
Lemma agree_forward s s1 k1 k2 :
  m_pos s <= m_pos s1 -> agree s k1 k2 -> agree s1 k1 k2.
Proof. intros L A s' W' L'. apply A; [assumption | lia]. Qed.

Lemma eat_ext p k1 k2 s :
  within s -> agree s k1 k2 -> eat p k1 s = eat p k2 s.
Proof.
  unfold eat, Progress.within. intros W A.
  destruct (m_rest s) as [|c rest] eqn:R; [reflexivity|].
  destruct (p c); [|reflexivity].
  apply A; unfold Progress.within; cbn in *; lia.
Qed.

Lemma eat_lit_ext i l : forall k1 k2 s,
  within s -> agree s k1 k2 -> eat_lit i l k1 s = eat_lit i l k2 s.
Proof.
  induction l as [|a l IH]; intros k1 k2 s W A; cbn.
  - apply A; [assumption | lia].
  - apply eat_ext; [assumption|].
    intros s' W' L'. apply IH; [assumption|]. now apply agree_forward with s.
Qed.

Lemma star_loop_ext greedy (body : Cont -> Cont) k1 k2 :
  (forall c1 c2 s, within s -> agree s c1 c2 -> body c1 s = body c2 s) ->
  forall fuel s,
    within s -> agree s k1 k2 ->
    star_loop greedy body k1 fuel s = star_loop greedy body k2 fuel s.
Proof.
  intros Hbody. induction fuel as [|fuel IH]; intros s W A; cbn [star_loop].
  - rewrite (A s W (le_n _)). reflexivity.
  - rewrite (A s W (le_n _)).
    rewrite (Hbody (fun s' => if m_pos s' =? m_pos s then None
                              else star_loop greedy body k1 fuel s')
                   (fun s' => if m_pos s' =? m_pos s then None
                              else star_loop greedy body k2 fuel s') s W).
    + reflexivity.
    + intros s' W' L'. destruct (m_pos s' =? m_pos s); [reflexivity|].
      apply IH; [assumption|]. now apply agree_forward with s.
Qed.

Lemma rmatch_ext i r : forall k1 k2 s,
  within s -> agree s k1 k2 -> rmatch i r k1 s = rmatch i r k2 s.
Proof.
  induction r as [|l| |neg items|a IHa b IHb|a IHa b IHb|greedy a IHa|g a IHa| |];
    intros k1 k2 s W A; cbn [rmatch].
  - apply A; [assumption | lia].
  - now apply eat_lit_ext.
  - now apply eat_ext.
  - now apply eat_ext.
  - apply IHa; [assumption|].
    intros s' W' L'. apply IHb; [assumption|]. now apply agree_forward with s.
  - rewrite (IHa k1 k2 s W A), (IHb k1 k2 s W A). reflexivity.
  - apply star_loop_ext; assumption.
  - apply IHa; [assumption|].
    intros s' W' L'. apply A; assumption.
  - destruct (m_pos s =? 0); [apply A; [assumption | lia] | reflexivity].
  - destruct (xorb (word_before s) (word_after s)); [apply A; [assumption | lia] | reflexivity].
Qed.

(** No iteration of a repetition can start where no input is left. *)
Lemma body_stuck (body : Cont -> Cont) (k : Cont) s :
  (forall k' s e, within s -> body k' s = Some e -> reaches s k' e) ->
  within s ->
  (forall s', within s' -> m_pos s <= m_pos s' -> k s' = None) ->
  body k s = None.
Proof.
  intros Hbody W Hk. destruct (body k s) as [e|] eqn:E; [|reflexivity].
  apply Hbody in E; [|assumption]. destruct E as [s' [W' [L' H']]].
  rewrite Hk in H'; [discriminate | assumption | assumption].
Qed.

(** The fuel of a repetition: the length of the input that is left is
    enough, and more changes nothing. *)
Lemma star_loop_fuel greedy (body : Cont -> Cont) k :
  (forall k' s e, within s -> body k' s = Some e -> reaches s k' e) ->
  (forall c1 c2 s, within s -> agree s c1 c2 -> body c1 s = body c2 s) ->
  forall fuel1 fuel2 s,
    within s ->
    String.length (m_rest s) <= fuel1 ->
    String.length (m_rest s) <= fuel2 ->
    star_loop greedy body k fuel1 s = star_loop greedy body k fuel2 s.
Proof.
  intros Hreach Hext.
  assert (stuck : forall fuel s,
             within s -> String.length (m_rest s) = 0 ->
             body (fun s' => if m_pos s' =? m_pos s then None
                             else star_loop greedy body k fuel s') s = None).
  { intros fuel s W Z. apply body_stuck; [assumption | assumption |].
    intros s' W' L'. unfold Progress.within in W, W'.
    replace (m_pos s' =? m_pos s) with true; [reflexivity|].
    symmetry. apply Nat.eqb_eq. lia. }
  induction fuel1 as [|fuel1 IH]; intros fuel2 s W H1 H2.
  - destruct fuel2 as [|fuel2]; [reflexivity|].
    cbn [star_loop]. rewrite stuck; [reflexivity | assumption | lia].
  - destruct fuel2 as [|fuel2].
    + cbn [star_loop]. rewrite stuck; [reflexivity | assumption | lia].
    + cbn [star_loop].
      rewrite (Hext (fun s' => if m_pos s' =? m_pos s then None
                               else star_loop greedy body k fuel1 s')
                    (fun s' => if m_pos s' =? m_pos s then None
                               else star_loop greedy body k fuel2 s') s W).
      * reflexivity.
      * intros s' W' L'. destruct (Nat.eqb_spec (m_pos s') (m_pos s)); [reflexivity|].
        unfold Progress.within in W, W'. apply IH; [assumption | lia | lia].
Qed.

(** In [rmatch], a repetition run with any larger fuel matches the same. *)
Lemma rmatch_star_fuel i greedy a k s fuel :
  within s ->
  String.length (m_rest s) <= fuel ->
  rmatch i (RStar greedy a) k s = star_loop greedy (rmatch i a) k fuel s.
Proof.
  intros W H. cbn [rmatch].
  apply star_loop_fuel; try assumption.
  - intros k' s' e. apply rmatch_reaches.
  - intros c1 c2 s'. apply rmatch_ext.
  - apply le_n.
Qed.

(** A successful search ends within the input, at or after its start. *)
Lemma search_bounds i r : forall rest pos prev idx e,
  pos + String.length rest = n ->
  search i r pos prev rest = Some (idx, e) ->
  pos <= idx /\ idx <= m_pos e /\ m_pos e <= n.
Proof.
  induction rest as [|c rest IH]; intros pos prev idx e W H; cbn [search] in H.
  - destruct (rmatch i r Some _) as [e'|] eqn:E; [|discriminate].
    injection H as <- <-.
    apply rmatch_reaches in E; [|exact W].
    destruct E as [s' [W' [L' H']]]. injection H' as ->. unfold Progress.within in W'.
    cbn in *. lia.
  - destruct (rmatch i r Some _) as [e'|] eqn:E.
    + injection H as <- <-.
      apply rmatch_reaches in E; [|exact W].
      destruct E as [s' [W' [L' H']]]. injection H' as ->. unfold Progress.within in W'.
      cbn in *. lia.
    + apply IH in H; [lia | cbn in W; lia].
Qed.

End Forward.

Lemma seek_length : forall from input prev prev' rest,
  seek prev input from = Some (prev', rest) ->
  from + String.length rest = String.length input.
Proof.
  induction from as [|from IH]; intros input prev prev' rest H; cbn in H.
  - injection H as _ <-. reflexivity.
  - destruct input as [|c input]; [discriminate|].
    apply IH in H. cbn. lia.
Qed.

Lemma search_at_bounds i r input from m :
  search_at i r input from = Some m ->
  from <= mr_index m /\ mr_index m <= mr_end m /\ mr_end m <= String.length input.
Proof.
  unfold search_at. intro H.
  destruct (seek None input from) as [[prev rest]|] eqn:S; [|discriminate].
  apply seek_length in S.
  destruct (search i r from prev rest) as [[idx e]|] eqn:E; [|discriminate].
  injection H as <-. cbn.
  eapply search_bounds; eassumption.
Qed.

Lemma search_at_beyond i r input from :
  String.length input < from -> search_at i r input from = None.
Proof.
  intro H. unfold search_at.
  destruct (seek None input from) as [[prev rest]|] eqn:S; [|reflexivity].
  apply seek_length in S. lia.
Qed.

(** Enumerating the matches needs no more fuel than there are indices
    left: any larger amount gives the same list. *)
Lemma all_matches_fuel i r input : forall fuel1 fuel2 from,
  S (String.length input) - from <= fuel1 ->
  S (String.length input) - from <= fuel2 ->
  all_matches fuel1 i r input from = all_matches fuel2 i r input from.
Proof.
  induction fuel1 as [|fuel1 IH]; intros fuel2 from H1 H2.
  - assert (String.length input < from) as Hb by lia.
    destruct fuel2; cbn; [reflexivity|]. now rewrite search_at_beyond.
  - destruct fuel2 as [|fuel2].
    + assert (String.length input < from) as Hb by lia.
      cbn. now rewrite search_at_beyond.
    + cbn [all_matches].
      destruct (search_at i r input from) as [m|] eqn:E; [|reflexivity].
      apply search_at_bounds in E. f_equal.
      apply IH; destruct (Nat.eqb_spec (mr_end m) (mr_index m)); lia.
Qed.

Lemma match_here_bounds i r input q e :
  match_here i r input q = Some e -> q <= e /\ e <= String.length input.
Proof.
  unfold match_here. intro H.
  destruct (seek None input q) as [[prev rest]|] eqn:S; [|discriminate].
  apply seek_length in S.
  destruct (rmatch i r Some _) as [e'|] eqn:E; [|discriminate].
  injection H as <-.
  apply (rmatch_reaches (String.length input)) in E; [|exact S].
  destruct E as [s' [W' [L' H']]]. injection H' as ->. unfold Progress.within in W'.
  cbn in *. lia.
Qed.

(** The fuel of [split]: two steps at most pass before the probe
    advances, and more fuel changes nothing. *)
Lemma split_loop_fuel i r input : forall fuel1 fuel2 p q,
  p <= q ->
  2 * (String.length input - q) + (if p <? q then 1 else 0) <= fuel1 ->
  2 * (String.length input - q) + (if p <? q then 1 else 0) <= fuel2 ->
  split_loop fuel1 i r input p q = split_loop fuel2 i r input p q.
Proof.
  induction fuel1 as [|fuel1 IH]; intros fuel2 p q Hpq H1 H2.
  - assert (String.length input <= q) as Hq by lia.
    apply Nat.leb_le in Hq.
    destruct fuel2; cbn [split_loop]; [reflexivity | now rewrite Hq].
  - destruct fuel2 as [|fuel2].
    + assert (String.length input <= q) as Hq by lia.
      apply Nat.leb_le in Hq. cbn [split_loop]. now rewrite Hq.
    + cbn [split_loop].
      destruct (Nat.leb_spec (String.length input) q) as [Hq|Hq]; [reflexivity|].
      destruct (match_here i r input q) as [e|] eqn:E.
      * apply match_here_bounds in E.
        destruct (Nat.eqb_spec e p) as [->|Hne].
        -- apply IH; destruct (Nat.ltb_spec p q); destruct (Nat.ltb_spec p (S q)); lia.
        -- f_equal. apply IH; try rewrite Nat.ltb_irrefl;
             destruct (Nat.ltb_spec p q); lia.
      * apply IH; destruct (Nat.ltb_spec p q); destruct (Nat.ltb_spec p (S q)); lia.
Qed.


(** ** Classification: scoring *)

Section Accumulate.
Local Open Scope Z_scope.

(** A [forEach] that adds [f x] for every element adds their total. *)
Lemma fold_left_accumulate (f : string -> Z) (l : list string) (acc : Z) :
  fold_left (fun score x => score + f x) l acc = acc + ScoreSpec.total f l.
Proof.
  revert acc. induction l as [|x l IH]; intro acc; cbn.
  - lia.
  - rewrite IH. unfold ScoreSpec.total. cbn. lia.
Qed.

Lemma conditional_add (w : Z) (text pattern : string) (score : Z) :
  (if includes text pattern then score + w else score) = score + ScoreSpec.weight w text pattern.
Proof. unfold ScoreSpec.weight. destruct (includes text pattern); lia. Qed.

(** One of the four single-test loops of [calculateCategoryScore]. *)
Lemma fold_left_weight (w : Z) (text : string) (l : list string) (acc : Z) :
  fold_left (fun score pattern => if includes text pattern then score + w else score) l acc
  = acc + ScoreSpec.total (ScoreSpec.weight w text) l.
Proof.
  rewrite <- fold_left_accumulate. revert acc.
  induction l as [|x l IH]; intro acc; cbn; [reflexivity|].
  rewrite conditional_add. apply IH.
Qed.

(** The keyword loop, which tests the body and then the subject. *)
Lemma fold_left_keywords (subject body : string) (l : list string) (acc : Z) :
  fold_left (fun score keyword =>
               let score := if includes body keyword then score + 2 else score in
               if includes subject keyword then score + 3 else score) l acc
  = acc + ScoreSpec.total
            (fun keyword => ScoreSpec.weight 2 body keyword + ScoreSpec.weight 3 subject keyword) l.
Proof.
  rewrite <- fold_left_accumulate. revert acc.
  induction l as [|x l IH]; intro acc; cbn; [reflexivity|].
  rewrite !conditional_add, Z.add_assoc. apply IH.
Qed.

Lemma calculateCategoryScore_additive (p : CategoryPatterns) (subject body sender : string) :
  EmailCategorizationService.calculateCategoryScore p subject body sender
  = ScoreSpec.additiveScore p subject body sender.
Proof.
  unfold EmailCategorizationService.calculateCategoryScore, ScoreSpec.additiveScore.
  cbv zeta. rewrite !fold_left_weight, fold_left_keywords. lia.
Qed.

End Accumulate.

Lemma scoreCategories_strings (subject body sender : string) :
  EmailCategorizationService.scoreCategories EmailCategorizationService.categoryPatterns
    (JStr subject) (JStr body) (JStr sender) EmailCategorizationService.initScores
  = Normal (ScoreSpec.scoresOf subject body sender).
Proof. reflexivity. Qed.

(** C1.  For all strings [subject], [body], [sender]: the scoring loop of
    [classifyEmail] completes with a score for each of the thirteen
    categories, and the score of every category is the additive sum over
    its catalog entry, on the lower-cased texts: +2 per keyword in the
    body, +3 per keyword in the subject, +4 per sender pattern in the
    sender, +3 per subject pattern in the subject, +2 per body pattern in
    the body, +3 per domain pattern in the sender; a pattern that is not
    contained adds 0. *)
Theorem classifyEmail_scores_additive :
  forall (subject body sender : string),
    EmailCategorizationService.scoreCategories EmailCategorizationService.categoryPatterns
      (JStr subject) (JStr body) (JStr sender) EmailCategorizationService.initScores
    = Normal (ScoreSpec.scoresOf subject body sender)
    /\ forall c : EmailCategory,
         EmailCategorizationService.get_score c (ScoreSpec.scoresOf subject body sender)
         = Some (ScoreSpec.additiveScore
                   (EmailCategorizationService.patternsOf
                      EmailCategorizationService.categoryPatterns c)
                   (toLowerCase subject) (toLowerCase body) (toLowerCase sender)).
Proof.
  intros subject body sender. split.
  - apply scoreCategories_strings.
  - intro c. rewrite <- calculateCategoryScore_additive.
    destruct c; reflexivity.
Qed.

(** ** Classification: faults *)

(** C2.  [classifyEmail] and [extractTodos] complete normally on every
    input, [null] and [undefined] included: neither lets an exception
    reach the caller.  The result of [classifyEmail] is the result of its
    [try] block, or, when that block throws, exactly the record of the
    [catch] block (category other, no subcategories, confidence 0, not a
    newsletter, no priority, the failure note as reasoning); a [null] or
    [undefined] subject, body or sender is such a fault. *)
Theorem engines_never_throw :
  (forall subject body sender : JSVal,
      EmailCategorizationService.classifyEmail subject body sender
      = Normal (match EmailCategorizationService.classifyEmail_try subject body sender with
                | Normal r => r
                | Throw _ => EmailCategorizationService.classificationFailed
                end))
  /\ (forall body sender : JSVal,
         EmailCategorizationService.classifyEmail JNull body sender
         = Normal EmailCategorizationService.classificationFailed
         /\ EmailCategorizationService.classifyEmail JUndefined body sender
            = Normal EmailCategorizationService.classificationFailed)
  /\ (forall subject sender : JSVal,
         EmailCategorizationService.classifyEmail subject JNull sender
         = Normal EmailCategorizationService.classificationFailed
         /\ EmailCategorizationService.classifyEmail subject JUndefined sender
            = Normal EmailCategorizationService.classificationFailed)
  /\ (forall subject body : JSVal,
         EmailCategorizationService.classifyEmail subject body JNull
         = Normal EmailCategorizationService.classificationFailed
         /\ EmailCategorizationService.classifyEmail subject body JUndefined
            = Normal EmailCategorizationService.classificationFailed)
  /\ EmailCategorizationService.classificationFailed
     = {| category := other; subcategories := []; confidence := 0;
          isNewsletter := false; priority := None;
          reasoning := "Classification failed due to error" |}
  /\ (forall Date_parse now svc (subject body sender : JSVal),
         exists r,
           fst (TodoExtractionService.extractTodos Date_parse now svc subject body sender)
           = Normal r).
Proof.
  split; [|split; [|split; [|split; [|split]]]].
  - intros subject body sender.
    unfold EmailCategorizationService.classifyEmail, try_catch.
    destruct (EmailCategorizationService.classifyEmail_try subject body sender); reflexivity.
  - intros body sender. split; destruct body, sender; reflexivity.
  - intros subject sender. split; destruct subject, sender; reflexivity.
  - intros subject body. split; destruct subject, body; reflexivity.
  - reflexivity.
  - intros Date_parse now svc subject body sender.
    unfold TodoExtractionService.extractTodos, TodoExtractionService.extractTodos_try.
    destruct (TodoExtractionService.findActionItems _ _ _ _) as [actionItems svc1].
    destruct (TodoExtractionService.extractExplicitTodos _ _ _ _) as [explicitTodos svc2].
    cbn. eexists. reflexivity.
Qed.

(** ** Newsletter detection *)

Lemma existsb_eqb_In (x : string) (l : list string) :
  existsb (String.eqb x) l = true <-> In x l.
Proof.
  rewrite existsb_exists. split.
  - intros [y [Hy Heq]]. apply String.eqb_eq in Heq. now subst.
  - intro H. exists x. split; [assumption | apply String.eqb_refl].
Qed.







(** The detector on input with no other newsletter signal: score 4 from
    the word "unsubscribe" in the body, confidence 0.9. *)
Example detectNewsletter_anchor :
  EmailCategorizationService.detectNewsletter EmptyString unsubscribeAnchor EmptyString
  = {| nl_isNewsletter := true;
       nl_confidence := 9 # 10;
       unsubscribeLinks := ["https://x.com/unsubscribe?x=1"];
       senderReputation := unknown_reputation;
       frequency := unknown_frequency |}.
Proof. vm_compute. reflexivity. Qed.

(** ** Classification: the all-zero case *)

(** C4.  With an empty subject, an empty body and the sender
    "test@example.com" every category scores 0; the stable sort leaves
    the catalog order, so the first key, newsletter, is the primary
    category, and the email is flagged as a newsletter.  No exception is
    raised and the confidence is 0. *)
Theorem classifyEmail_all_zero :
  EmailCategorizationService.classifyEmail
    (JStr EmptyString) (JStr EmptyString) (JStr "test@example.com")
  = Normal {| category := newsletter; subcategories := []; confidence := 0;
              isNewsletter := true; priority := None;
              reasoning := "Primary indicators: " |}.
Proof. vm_compute. reflexivity. Qed.

(** The fixture [edgeCaseEmails.emptySubject] of the repository's tests. *)
Example classifyEmail_emptySubject_fixture :
  EmailCategorizationService.classifyEmail
    (JStr EmptyString) (JStr "This email has no subject line.") (JStr "test@example.com")
  = Normal {| category := newsletter; subcategories := []; confidence := 0;
              isNewsletter := true; priority := None;
              reasoning := "Primary indicators: " |}.
Proof. vm_compute. reflexivity. Qed.

(** C5.  Two calls of [extractTodos] in succession on one service, with
    the same arguments, the same configuration and the same clock
    reading: the first call resolves the due date of "by Monday"; it
    leaves [lastIndex = 34] in the weekday RegExp, so in the second call
    [exec] starts at the end of the text and finds nothing, and the todo
    has no due date.  The two results differ. *)
Theorem extractTodos_second_call_differs :
  forall (Date_parse : string -> option JSDate) (now : JSDate),
    let call svc :=
      TodoExtractionService.extractTodos Date_parse now svc
        (JStr EmptyString) (JStr "Please review the report by Monday") (JStr "a@b.c") in
    let first := call (TodoExtractionService.new Scenario.defaultConfig) in
    let second := call (snd first) in
    (exists d, map dueDate (Scenario.todosOf (fst first)) = [Some d])
    /\ map dueDate (Scenario.todosOf (fst second)) = [None]
    /\ map lastIndex (TodoExtractionService.timePatterns (snd first)) = [0; 34; 0; 0; 0; 0]
    /\ fst first <> fst second.
Proof.
  intros Date_parse now call first second.
  assert (H1 : exists d, map dueDate (Scenario.todosOf (fst first)) = [Some d]).
  { vm_compute. eexists. reflexivity. }
  assert (H2 : map dueDate (Scenario.todosOf (fst second)) = [None]).
  { vm_compute. reflexivity. }
  split; [exact H1 | split; [exact H2 | split]].
  - vm_compute. reflexivity.
  - intro E. destruct H1 as [d H1]. rewrite E, H2 in H1. discriminate H1.
Qed.

(** C6.  Subject "Duplicate tasks", body the three numbered items, default
    threshold: the sentences give three candidates, the numbered items
    three more; only the two candidates for "Review the attached
    document" share a signature, so five todos are returned. *)
Theorem extractTodos_review_list :
  forall (Date_parse : string -> option JSDate) (now : JSDate),
    let r :=
      fst (TodoExtractionService.extractTodos Date_parse now
             (TodoExtractionService.new Scenario.defaultConfig)
             (JStr "Duplicate tasks") (JStr Scenario.reviewList) (JStr "manager@company.com")) in
    List.length (Scenario.todosOf r) = 5
    /\ map description (Scenario.todosOf r)
       = [ "Review the document" ++ newline ++ "2";
           "Please review the document" ++ newline ++ "3";
           "Review the attached document";
           "Review the document";
           "Please review the document" ]
    /\ NoDup (map TodoExtractionService.normalizedSignature (Scenario.todosOf r)).
Proof.
  intros Date_parse now r.
  assert (H : map TodoExtractionService.normalizedSignature (Scenario.todosOf r)
              = [ "reviewthedocument2_reviewthedocument2";
                  "reviewthedocument3_pleasereviewthedocument3";
                  "reviewtheattacheddocument_reviewtheattacheddocumen";
                  "reviewthedocument_reviewthedocument";
                  "reviewthedocument_pleasereviewthedocument" ]).
  { vm_compute. reflexivity. }
  split; [vm_compute; reflexivity | split; [vm_compute; reflexivity |]].
  rewrite H. repeat constructor; cbn; intuition discriminate.
Qed.

(** C7.  [extractTodos(null, undefined, sender)]: the template literal
    turns the arguments into the text "null undefined", the [try] block
    completes, and the reasoning is that of an email without action
    items; it does not contain "failed". *)
Theorem extractTodos_null_undefined :
  forall (Date_parse : string -> option JSDate) (now : JSDate)
         (cfg : AIProcessingConfig) (sender : JSVal),
    let r :=
      fst (TodoExtractionService.extractTodos Date_parse now
             (TodoExtractionService.new cfg) JNull JUndefined sender) in
    r = Normal {| todos := []; hasTodos := false; te_confidence := 0;
                  te_reasoning := "No actionable items detected in email content" |}
    /\ includes (Scenario.reasoningOf r) "failed" = false.
Proof.
  intros Date_parse now cfg sender r.
  assert (H : r = Normal {| todos := []; hasTodos := false; te_confidence := 0;
                            te_reasoning := "No actionable items detected in email content" |}).
  { vm_compute. reflexivity. }
  split; [exact H | rewrite H; vm_compute; reflexivity].
Qed.

(** A [null] subject next to an actionable body yields a todo whose text
    starts with the word "null". *)
Example extractTodos_null_subject :
  forall (Date_parse : string -> option JSDate) (now : JSDate),
    map description
        (Scenario.todosOf
           (fst (TodoExtractionService.extractTodos Date_parse now
                   (TodoExtractionService.new Scenario.defaultConfig)
                   JNull (JStr "Please review the report urgently") (JStr "a@b.c"))))
    = ["null Please review the report urgently"].
Proof. intros. vm_compute. reflexivity. Qed.

(** C9.  "Please submit your timesheet by Monday": the sentence contains
    no keyword of the four action tiers, does not start with one of the
    imperative verbs and contains no modal phrase, and the text has no
    list item; no todo is extracted, with or without the subject and the
    final period of the repository's test. *)
Theorem extractTodos_timesheet :
  forall (Date_parse : string -> option JSDate) (now : JSDate) (cfg : AIProcessingConfig),
    TodoExtractionService.findActionInSentence "Please submit your timesheet by Monday" = None
    /\ Scenario.todosOf
         (fst (TodoExtractionService.extractTodos Date_parse now (TodoExtractionService.new cfg)
                 (JStr EmptyString) (JStr "Please submit your timesheet by Monday")
                 (JStr "hr@company.com"))) = []
    /\ Scenario.todosOf
         (fst (TodoExtractionService.extractTodos Date_parse now (TodoExtractionService.new cfg)
                 (JStr "Submit by Monday") (JStr "Please submit your timesheet by Monday.")
                 (JStr "hr@company.com"))) = [].
Proof.
  intros Date_parse now cfg.
  split; [|split]; vm_compute; reflexivity.
Qed.

(** C10.  A numbered item that starts with U+00DF and is longer than 60
    code units: the title is cut to 57 code units plus "...", and the
    upper-casing of its first code unit then yields "SS"; the title of the
    returned todo has 61 code units. *)
Theorem extractTodos_title_61 :
  forall (Date_parse : string -> option JSDate) (now : JSDate),
    String.length (TodoExtractionService.generateTodoTitle Scenario.sharpItem) = 61
    /\ map (fun t => String.length (title t))
           (Scenario.todosOf
              (fst (TodoExtractionService.extractTodos Date_parse now
                      (TodoExtractionService.new Scenario.defaultConfig)
                      (JStr EmptyString) (JStr ("1. " ++ Scenario.sharpItem)) (JStr "a@b.c"))))
       = [61].
Proof.
  intros Date_parse now. split; vm_compute; reflexivity.
Qed.

(** ** Explicit lists *)

Section ExplicitLists.
Import TodoExtractionService.

Variable Date_parse : string -> option JSDate.
Variable now : JSDate.

Lemma createTodoFromText_plain (svc : Service) (content : string) :
  plain content pending (fst (createTodoFromText Date_parse now svc content medium)).
Proof.
  unfold createTodoFromText.
  destruct (extractDueDate Date_parse now (timePatterns svc) content) as [d ps].
  cbn. repeat split.
Qed.

Lemma listTodos_plain (contents : list string) :
  forall svc,
    Forall2 (fun content t => plain content pending t)
            (filter looksLikeTodo contents)
            (fst (listTodos Date_parse now svc contents)).
Proof.
  induction contents as [|content rest IH]; intro svc; cbn [listTodos filter].
  - constructor.
  - destruct (looksLikeTodo content).
    + pose proof (createTodoFromText_plain svc content) as Ht.
      destruct (createTodoFromText Date_parse now svc content medium) as [t svc1].
      specialize (IH svc1).
      destruct (listTodos Date_parse now svc1 rest) as [ts svc2].
      cbn in *. constructor; assumption.
    + apply IH.
Qed.

Lemma checkboxTodos_plain (boxes : list string) :
  forall svc,
    Forall2 (fun box t => plain (checkboxContent box) (checkboxStatus box) t)
            boxes
            (fst (checkboxTodos Date_parse now svc boxes)).
Proof.
  induction boxes as [|box rest IH]; intro svc; cbn [checkboxTodos].
  - constructor.
  - pose proof (createTodoFromText_plain svc (checkboxContent box)) as Ht.
    destruct (createTodoFromText Date_parse now svc (checkboxContent box) medium) as [t svc1].
    specialize (IH svc1).
    destruct (checkboxTodos Date_parse now svc1 rest) as [ts svc2].
    cbn in *. constructor; [|assumption].
    unfold plain in *. cbn. tauto.
Qed.

Lemma Forall2_map_fields (f : string -> string) (g : string -> TodoStatus)
      (items : list string) (ts : list TodoItem) :
  Forall2 (fun item t => plain (f item) (g item) t) items ts ->
  map description ts = map f items
  /\ map status ts = map g items
  /\ Forall (fun t => todo_priority t = medium /\ todo_confidence t = 7 # 10) ts.
Proof.
  induction 1 as [|item t items ts Hp _ IH]; cbn.
  - repeat split. constructor.
  - destruct IH as [Hd [Hs Hf]]. destruct Hp as [H1 [_ [H3 [H4 H5]]]].
    rewrite Hd, Hs, H1, H5. repeat split. constructor; [split|]; assumption.
Qed.

Lemma extractExplicitTodos_fields (svc : Service) (text : string) :
  let accepted items := filter looksLikeTodo items in
  let numbered := accepted (map numberedContent (numberedItems text)) in
  let bullets := accepted (map bulletContent (bulletItems text)) in
  let boxes := checkboxItems text in
  let found := fst (extractExplicitTodos Date_parse now svc text) in
  map description found = (numbered ++ bullets ++ map checkboxContent boxes)%list
  /\ map status found
     = (map (fun _ => pending) numbered ++ map (fun _ => pending) bullets
        ++ map checkboxStatus boxes)%list
  /\ Forall (fun t => todo_priority t = medium /\ todo_confidence t = 7 # 10) found.
Proof.
  intros accepted numbered bullets boxes found.
  unfold found, extractExplicitTodos.
  pose proof (listTodos_plain (map numberedContent (numberedItems text)) svc) as H1.
  destruct (listTodos Date_parse now svc _) as [l1 svc1].
  pose proof (listTodos_plain (map bulletContent (bulletItems text)) svc1) as H2.
  destruct (listTodos Date_parse now svc1 _) as [l2 svc2].
  pose proof (checkboxTodos_plain (checkboxItems text) svc2) as H3.
  destruct (checkboxTodos Date_parse now svc2 _) as [l3 svc3].
  cbn [fst] in *.
  apply (Forall2_map_fields (fun c => c) (fun _ => pending)) in H1.
  apply (Forall2_map_fields (fun c => c) (fun _ => pending)) in H2.
  apply (Forall2_map_fields checkboxContent checkboxStatus) in H3.
  destruct H1 as [D1 [S1 F1]], H2 as [D2 [S2 F2]], H3 as [D3 [S3 F3]].
  rewrite map_id in D1, D2.
  rewrite !map_app, D1, D2, D3, S1, S2, S3.
  repeat split. rewrite !Forall_app. auto.
Qed.

End ExplicitLists.

(** A checkbox item marked [x] or [X] is a completed one. *)
Lemma checked_box_completed (rest : string) :
  checkboxStatus ("[x]" ++ rest) = completed /\ checkboxStatus ("[X]" ++ rest) = completed.
Proof. split; reflexivity. Qed.

(** C8, as the claim states it, fails: the unchecked box "[ ] buy milk"
    becomes a todo although its content does not look like a todo. *)
Lemma checkbox_items_not_tested :
  exists (text : string) (t : TodoItem),
    In t (fst (TodoExtractionService.extractExplicitTodos
                 (fun _ => None) {| date_day := 0; date_ms := 0 |}
                 (TodoExtractionService.new Scenario.defaultConfig) text))
    /\ TodoExtractionService.checkboxItems text = [text]
    /\ description t = TodoExtractionService.checkboxContent text
    /\ TodoExtractionService.looksLikeTodo (description t) = false.
Proof.
  exists "[ ] buy milk".
  exists {| title := "Buy milk"; description := "buy milk"; todo_priority := medium;
            status := pending; dueDate := None; todo_confidence := 7 # 10;
            context := "buy milk"; actionKeywords := [] |}.
  split; [vm_compute; left; reflexivity |].
  split; [|split]; vm_compute; reflexivity.
Qed.

(** C8, amended.  In [extractExplicitTodos], for every text and every
    state of the service: the contents of the numbered items and of the
    bullet items are tested with [looksLikeTodo], and the accepted ones
    become candidates, in order, with status pending; every checkbox item
    becomes a candidate without that test, with status completed when its
    text contains "[x]" in either case (so when it is marked [x] or [X])
    and pending otherwise; every candidate has priority medium and
    confidence 0.7. *)
Theorem extractExplicitTodos_candidates :
  forall (Date_parse : string -> option JSDate) (now : JSDate)
         (svc : TodoExtractionService.Service) (text : string),
    let accepted items := filter TodoExtractionService.looksLikeTodo items in
    let numbered :=
      accepted (map TodoExtractionService.numberedContent
                    (TodoExtractionService.numberedItems text)) in
    let bullets :=
      accepted (map TodoExtractionService.bulletContent
                    (TodoExtractionService.bulletItems text)) in
    let boxes := TodoExtractionService.checkboxItems text in
    let found := fst (TodoExtractionService.extractExplicitTodos Date_parse now svc text) in
    map description found
    = (numbered ++ bullets ++ map TodoExtractionService.checkboxContent boxes)%list
    /\ map status found
       = (map (fun _ => pending) numbered ++ map (fun _ => pending) bullets
          ++ map (fun box =>
                    if test true TodoExtractionService.checkedBox box
                    then completed else pending) boxes)%list
    /\ Forall (fun t => todo_priority t = medium /\ todo_confidence t = 7 # 10) found
    /\ (forall rest : string,
           test true TodoExtractionService.checkedBox ("[x]" ++ rest) = true
           /\ test true TodoExtractionService.checkedBox ("[X]" ++ rest) = true).
Proof.
  intros Date_parse now svc text accepted numbered bullets boxes found.
  destruct (extractExplicitTodos_fields Date_parse now svc text) as [D [S F]].
  split; [exact D | split; [exact S | split; [exact F |]]].
  intro rest. split; reflexivity.
Qed.

(** ** Due dates *)

Section Weekdays.
Import TodoExtractionService.
Local Open Scope Z_scope.

Variable Date_parse : string -> option JSDate.
Variable now : JSDate.



End Weekdays.

(** On a fresh service, a sentence with "by Monday" that also carries a
    request keyword gets its due date from the weekday RegExp. *)
Example extractTodos_review_by_monday :
  forall (Date_parse : string -> option JSDate),
    map (fun t => option_map getDay (dueDate t))
        (Scenario.todosOf
           (fst (TodoExtractionService.extractTodos Date_parse
                   {| date_day := 20759; date_ms := 0 |}
                   (TodoExtractionService.new Scenario.defaultConfig)
                   (JStr EmptyString) (JStr "Please review your timesheet by Monday")
                   (JStr "hr@company.com"))))
    = [Some 1%Z].
Proof. intros. vm_compute. reflexivity. Qed.

(** ** Titles *)

Lemma length_append (s1 s2 : string) :
  String.length (s1 ++ s2) = String.length s1 + String.length s2.
Proof. induction s1 as [|c s1 IH]; cbn; [reflexivity | now rewrite IH]. Qed.

Lemma length_substring_0 (n : nat) (s : string) :
  String.length (substring 0 n s) = Nat.min n (String.length s).
Proof.
  revert n. induction s as [|c s IH]; intros [|n]; cbn; try reflexivity.
  now rewrite IH.
Qed.

(** Every code unit but U+00DF has an upper-case form of one code unit. *)
Lemma upper_unit_single (c : ascii) :
  code c <> 223 -> String.length (upper_unit c) = 1.
Proof.
  intro H. unfold upper_unit.
  destruct (in_range 97 122 c); [reflexivity|].
  destruct (code c =? 223) eqn:E; [apply Nat.eqb_eq in E; contradiction|].
  destruct (in_range 224 254 c && negb (code c =? 247)); reflexivity.
Qed.

Lemma limitedTitle_length (content : string) :
  String.length (limitedTitle content) <= 60.
Proof.
  unfold limitedTitle. cbv zeta.
  destruct (60 <? String.length _) eqn:E.
  - unfold substring_to. rewrite length_append, length_substring_0.
    cbn [String.length]. lia.
  - apply Nat.ltb_ge in E. exact E.
Qed.

(** The bound of 60 holds for every title that does not start with
    U+00DF: for those, capitalisation keeps the length. *)
Lemma generateTodoTitle_length (content : string) :
  (forall c rest, limitedTitle content = String c rest -> code c <> 223) ->
  String.length (TodoExtractionService.generateTodoTitle content) <= 60.
Proof.
  intro H.
  pose proof (limitedTitle_length content) as L.
  change (TodoExtractionService.generateTodoTitle content)
    with (toUpperCase (charAt0 (limitedTitle content)) ++ slice1 (limitedTitle content)).
  destruct (limitedTitle content) as [|c rest]; cbn [charAt0 slice1 toUpperCase].
  - cbn. lia.
  - rewrite !length_append, (upper_unit_single c (H c rest eq_refl)). cbn in *. lia.
Qed.

(* ================================================================== *)
(** * Further properties of the code *)
(** ** Ranking of the categories *)

Section Sorting.
Import EmailCategorizationService SortSpec.
Local Open Scope Z_scope.

Lemma insert_sorted_perm x l : Permutation (insert_sorted x l) (x :: l).
Proof.
  induction l as [|y l IH]; cbn; [reflexivity|].
  destruct (snd y <=? snd x); [reflexivity|].
  rewrite IH. apply perm_swap.
Qed.

Lemma sortByScore_perm l : Permutation (sortByScore l) l.
Proof.
  induction l as [|x l IH]; cbn; [reflexivity|].
  unfold sortByScore in *. rewrite insert_sorted_perm. now constructor.
Qed.

Lemma insert_sorted_sorted x l :
  StronglySorted descending l -> StronglySorted descending (insert_sorted x l).
Proof.
  induction 1 as [|y l S IH F]; cbn.
  - repeat constructor.
  - destruct (Z.leb_spec (snd y) (snd x)) as [L|L].
    + constructor; [now constructor|].
      constructor; [exact L|].
      eapply Forall_impl; [|exact F]. unfold descending. intros; lia.
    + constructor; [exact IH|].
      rewrite (Forall_forall). intros z Hz.
      apply (Permutation_in _ (insert_sorted_perm x l)) in Hz.
      destruct Hz as [<-|Hz]; [unfold descending; lia|].
      rewrite Forall_forall in F. now apply F.
Qed.

Lemma sortByScore_sorted l : StronglySorted descending (sortByScore l).
Proof.
  induction l as [|x l IH]; cbn; [constructor|].
  now apply insert_sorted_sorted.
Qed.

Lemma sortByScore_head l : hd_error (sortByScore l) = firstMax l.
Proof.
  induction l as [|x l IH]; cbn; [reflexivity|].
  change (fold_right insert_sorted [] l) with (sortByScore l).
  rewrite <- IH. destruct (sortByScore l) as [|y r]; cbn; [reflexivity|].
  destruct (snd y <=? snd x); reflexivity.
Qed.

(** [firstMax] picks an entry with no larger score after it and only
    smaller scores before it. *)
Lemma firstMax_spec l x :
  firstMax l = Some x ->
  exists l1 l2,
    l = (l1 ++ x :: l2)%list
    /\ Forall (fun y => snd y < snd x) l1
    /\ Forall (fun y => snd y <= snd x) l2.
Proof.
  revert x. induction l as [|y l IH]; intros x H; cbn in H; [discriminate|].
  destruct (firstMax l) as [z|] eqn:E.
  - destruct (IH z eq_refl) as [l1 [l2 [-> [F1 F2]]]].
    destruct (Z.leb_spec (snd z) (snd y)) as [L|L]; injection H as <-.
    + exists [], (l1 ++ z :: l2)%list. repeat split; [constructor|].
      apply Forall_app. split.
      * eapply Forall_impl; [|exact F1]. cbn. intros; lia.
      * constructor; [exact L|]. eapply Forall_impl; [|exact F2]. cbn. intros; lia.
    + exists (y :: l1), l2. repeat split; [|exact F2].
      constructor; [exact L | exact F1].
  - injection H as <-. destruct l; [|cbn in E; destruct (firstMax l); [destruct (_ <=? _)|]; discriminate].
    exists [], []. repeat split; constructor.
Qed.

End Sorting.

Section Classification.
Import EmailCategorizationService SortSpec.

Lemma firstMax_cons_Some x l : exists p, firstMax (x :: l) = Some p.
Proof.
  cbn. destruct (firstMax l) as [y|]; [destruct (snd y <=? snd x)%Z|]; eexists; reflexivity.
Qed.

(** What [classifyEmail] returns for three strings. *)
Lemma classifyEmail_strings (subject body sender : string) :
  exists p,
    firstMax (ScoreSpec.scoresOf subject body sender) = Some p
    /\ classifyEmail (JStr subject) (JStr body) (JStr sender)
       = Normal
           {| category := fst p;
              subcategories :=
                map fst
                    (firstn 3
                       (filter (fun e => negb (EmailCategory_eqb (fst e) (fst p)) && (2 <? snd e)%Z)
                               (sortByScore (ScoreSpec.scoresOf subject body sender))));
              confidence := Math_min (Qred (snd p # 10)) 1;
              isNewsletter :=
                EmailCategory_eqb (fst p) newsletter
                || nl_isNewsletter (detectNewsletter subject body sender);
              priority := determinePriority subject body;
              reasoning :=
                "Primary indicators: "
                ++ join ", " (getTopIndicators (patternsOf categoryPatterns (fst p))
                                               subject body sender) |}.
Proof.
  destruct (firstMax_cons_Some
              (newsletter,
               calculateCategoryScore newsletterPatterns
                 (toLowerCase subject) (toLowerCase body) (toLowerCase sender))
              (tl (ScoreSpec.scoresOf subject body sender))) as [p Hp].
  exists p. split; [exact Hp|].
  change (firstMax (ScoreSpec.scoresOf subject body sender) = Some p) in Hp.
  rewrite <- sortByScore_head in Hp.
  unfold classifyEmail, classifyEmail_try.
  rewrite scoreCategories_strings. cbn [bind].
  destruct (sortByScore (ScoreSpec.scoresOf subject body sender)) as [|[c v] rest];
    [discriminate Hp|].
  injection Hp as <-. cbn [fst snd receiver bind ToString try_catch].
  destruct (EmailCategory_eqb c newsletter); reflexivity.
Qed.

Lemma total_nonneg (f : string -> Z) (l : list string) :
  (forall x, 0 <= f x)%Z -> (0 <= ScoreSpec.total f l)%Z.
Proof.
  intro H. induction l as [|x l IH]; cbn; [lia|].
  specialize (H x). unfold ScoreSpec.total in IH. lia.
Qed.

Lemma weight_nonneg (w : Z) (text pattern : string) :
  (0 <= w)%Z -> (0 <= ScoreSpec.weight w text pattern)%Z.
Proof. intro H. unfold ScoreSpec.weight. destruct (includes text pattern); lia. Qed.

Lemma calculateCategoryScore_nonneg (p : CategoryPatterns) (subject body sender : string) :
  (0 <= calculateCategoryScore p subject body sender)%Z.
Proof.
  rewrite calculateCategoryScore_additive. unfold ScoreSpec.additiveScore.
  pose proof (total_nonneg (fun k => ScoreSpec.weight 2 body k + ScoreSpec.weight 3 subject k)%Z
                (keywords p)) as H1.
  pose proof (total_nonneg (ScoreSpec.weight 4 sender) (senderPatterns p)) as H2.
  pose proof (total_nonneg (ScoreSpec.weight 3 subject) (subjectPatterns p)) as H3.
  pose proof (total_nonneg (ScoreSpec.weight 2 body) (bodyPatterns p)) as H4.
  pose proof (total_nonneg (ScoreSpec.weight 3 sender) (domainPatterns p)) as H5.
  assert (forall w t x, (0 <= w -> 0 <= ScoreSpec.weight w t x)%Z) as W
      by (intros; now apply weight_nonneg).
  specialize (H1 ltac:(intro x; pose proof (W 2%Z body x); pose proof (W 3%Z subject x); lia)).
  specialize (H2 ltac:(intro x; apply W; lia)).
  specialize (H3 ltac:(intro x; apply W; lia)).
  specialize (H4 ltac:(intro x; apply W; lia)).
  specialize (H5 ltac:(intro x; apply W; lia)).
  lia.
Qed.

(** Every entry of the [scores] object pairs a category with the score of
    its catalog entry. *)
Lemma scoresOf_In (subject body sender : string) (e : EmailCategory * Z) :
  In e (ScoreSpec.scoresOf subject body sender) ->
  snd e = calculateCategoryScore (patternsOf categoryPatterns (fst e))
            (toLowerCase subject) (toLowerCase body) (toLowerCase sender).
Proof.
  unfold ScoreSpec.scoresOf. cbn [map categoryPatterns initializeCategoryPatterns fst snd].
  intro H. repeat (destruct H as [<-|H]; [reflexivity|]). destruct H.
Qed.

End Classification.

Section ClassificationResults.
Import EmailCategorizationService SortSpec.

Lemma EmailCategory_eqb_eq (a b : EmailCategory) : EmailCategory_eqb a b = true <-> a = b.
Proof. destruct a, b; cbn; split; intro H; try reflexivity; discriminate H. Qed.

Lemma EmailCategory_eqb_neq (a b : EmailCategory) : EmailCategory_eqb a b = false <-> a <> b.
Proof.
  rewrite <- EmailCategory_eqb_eq. destruct (EmailCategory_eqb a b); split; intro H;
    try discriminate H; try reflexivity; try (intro H'; discriminate H').
  exfalso. now apply H.
Qed.

Lemma scoresOf_cons (subject body sender : string) :
  ScoreSpec.scoresOf subject body sender
  = (newsletter,
     calculateCategoryScore newsletterPatterns
       (toLowerCase subject) (toLowerCase body) (toLowerCase sender))
      :: tl (ScoreSpec.scoresOf subject body sender).
Proof. reflexivity. Qed.

Lemma scoresOf_keys (subject body sender : string) :
  map fst (ScoreSpec.scoresOf subject body sender)
  = [newsletter; social; promotional; work; personal; finance; travel; shopping;
     support; spam; important; todo; other].
Proof. reflexivity. Qed.

(** The first maximum is never the last entry, ['other'], whose score is 0. *)
Lemma firstMax_not_other (subject body sender : string) (p : EmailCategory * Z) :
  firstMax (ScoreSpec.scoresOf subject body sender) = Some p -> fst p <> other.
Proof.
  intros Hp Hc. apply firstMax_spec in Hp. destruct Hp as [l1 [l2 [Hl [F1 _]]]].
  assert (Hin : In p (ScoreSpec.scoresOf subject body sender))
    by (rewrite Hl; apply in_elt).
  apply scoresOf_In in Hin. rewrite Hc in Hin.
  change (snd p = 0%Z) in Hin.
  rewrite scoresOf_cons in Hl.
  destruct l1 as [|y l1]; cbn [app] in Hl; injection Hl as Hy _.
  - rewrite <- Hy in Hc. discriminate Hc.
  - inversion F1 as [|? ? Hlt _]; subst y. cbn [snd] in Hlt.
    pose proof (calculateCategoryScore_nonneg newsletterPatterns
                  (toLowerCase subject) (toLowerCase body) (toLowerCase sender)).
    lia.
Qed.

(** X1.  For all strings [subject], [body], [sender], [classifyEmail]
    returns a category of the catalog other than ['other']: ['other'] is
    the last entry and always scores 0, so an earlier entry wins every
    tie.  In particular the result is never the record of the [catch]
    block. *)
Theorem classifyEmail_strings_never_other :
  forall subject body sender : string,
  exists r,
    classifyEmail (JStr subject) (JStr body) (JStr sender) = Normal r
    /\ category r <> other
    /\ r <> classificationFailed.
Proof.
  intros subject body sender.
  destruct (classifyEmail_strings subject body sender) as [p [Hp Hr]].
  eexists. split; [exact Hr|].
  pose proof (firstMax_not_other _ _ _ _ Hp) as Hne.
  split; [exact Hne|].
  intro E. apply Hne. apply (f_equal category) in E. exact E.
Qed.

(** X2.  For all strings, the category that [classifyEmail] returns
    is the first one, in catalog order, among those of highest score: every
    earlier category scores strictly less, every later one at most as
    much; and the confidence is that score divided by 10, capped at 1. *)
Theorem classifyEmail_primary_is_first_maximum :
  forall subject body sender : string,
  exists r v before after,
    classifyEmail (JStr subject) (JStr body) (JStr sender) = Normal r
    /\ ScoreSpec.scoresOf subject body sender = (before ++ (category r, v) :: after)%list
    /\ Forall (fun e => (snd e < v)%Z) before
    /\ Forall (fun e => (snd e <= v)%Z) after
    /\ confidence r = Math_min (Qred (v # 10)) 1.
Proof.
  intros subject body sender.
  destruct (classifyEmail_strings subject body sender) as [[c v] [Hp Hr]].
  apply firstMax_spec in Hp. destruct Hp as [l1 [l2 [Hl [F1 F2]]]].
  eexists. exists v, l1, l2. split; [exact Hr|].
  cbn [category confidence fst snd] in *. repeat split; assumption.
Qed.

Lemma classifyEmail_not_strings (subject body sender : JSVal) :
  match subject, body, sender with
  | JStr _, JStr _, JStr _ => True
  | _, _, _ => classifyEmail subject body sender = Normal classificationFailed
  end.
Proof. destruct subject, body, sender; try exact I; reflexivity. Qed.

Lemma Math_min_unit (a : Q) : (0 <= a -> 0 <= Math_min a 1 /\ Math_min a 1 <= 1)%Q.
Proof.
  intro H. unfold Math_min. destruct (Qle_bool a 1) eqn:E.
  - apply Qle_bool_iff in E. split; assumption.
  - split; [discriminate | apply Qle_refl].
Qed.

(** X3.  For every input, [null] and [undefined] included, the
    confidence that [classifyEmail] returns lies between 0 and 1. *)
Theorem classifyEmail_confidence_unit :
  forall subject body sender : JSVal,
  exists r,
    classifyEmail subject body sender = Normal r
    /\ (0 <= confidence r)%Q /\ (confidence r <= 1)%Q.
Proof.
  intros subject body sender.
  pose proof (classifyEmail_not_strings subject body sender) as H.
  destruct subject as [| |s]; try (eexists; split; [exact H | split; discriminate]).
  destruct body as [| |b]; try (eexists; split; [exact H | split; discriminate]).
  destruct sender as [| |d]; try (eexists; split; [exact H | split; discriminate]).
  clear H.
  destruct (classifyEmail_strings s b d) as [p [Hp Hr]].
  eexists. split; [exact Hr|]. cbn [confidence].
  apply Math_min_unit. rewrite Qred_correct.
  apply firstMax_spec in Hp. destruct Hp as [l1 [l2 [Hl _]]].
  assert (Hin : In p (ScoreSpec.scoresOf s b d)) by (rewrite Hl; apply in_elt).
  apply scoresOf_In in Hin.
  pose proof (calculateCategoryScore_nonneg (patternsOf categoryPatterns (fst p))
                (toLowerCase s) (toLowerCase b) (toLowerCase d)).
  unfold Qle. cbn [Qnum Qden]. lia.
Qed.

Lemma StronglySorted_filter {A} (R : A -> A -> Prop) (f : A -> bool) (l : list A) :
  StronglySorted R l -> StronglySorted R (filter f l).
Proof.
  induction 1 as [|a l S IH F]; cbn; [constructor|].
  destruct (f a); [|exact IH].
  constructor; [exact IH|].
  rewrite Forall_forall in *. intros x Hx. apply filter_In in Hx. now apply F.
Qed.

Lemma StronglySorted_app_inv {A} (R : A -> A -> Prop) (l1 l2 : list A) :
  StronglySorted R (l1 ++ l2) ->
  StronglySorted R l1 /\ forall a b, In a l1 -> In b l2 -> R a b.
Proof.
  induction l1 as [|x l1 IH]; cbn; intro S.
  - split; [constructor | intros a b []].
  - inversion S as [|? ? S' F]; subst. destruct (IH S') as [S1 H1].
    rewrite Forall_forall in F. split.
    + constructor; [exact S1|]. rewrite Forall_forall. intros y Hy. apply F.
      apply in_or_app. now left.
    + intros a b [<-|Ha] Hb; [apply F; apply in_or_app; now right | now apply H1].
Qed.

(** X4.  For all strings, the subcategories of [classifyEmail] are
    at most three categories, pairwise different, none of them the primary
    category, each with a score above 2, in descending order of score; a
    category with a score above 2 is left out only when three categories
    with at least its score are listed. *)
Theorem classifyEmail_subcategories :
  forall subject body sender : string,
  exists r entries,
    classifyEmail (JStr subject) (JStr body) (JStr sender) = Normal r
    /\ subcategories r = map fst entries
    /\ List.length entries <= 3
    /\ NoDup (subcategories r)
    /\ StronglySorted descending entries
    /\ Forall (fun e => In e (ScoreSpec.scoresOf subject body sender)
                        /\ fst e <> category r /\ (2 < snd e)%Z) entries
    /\ (forall e,
           In e (ScoreSpec.scoresOf subject body sender) ->
           fst e <> category r -> (2 < snd e)%Z ->
           In e entries
           \/ (List.length entries = 3 /\ Forall (fun e' => (snd e <= snd e')%Z) entries)).
Proof.
  intros subject body sender.
  destruct (classifyEmail_strings subject body sender) as [p [_ Hr]].
  set (scores := ScoreSpec.scoresOf subject body sender) in *.
  set (keep := fun e : EmailCategory * Z =>
                 negb (EmailCategory_eqb (fst e) (fst p)) && (2 <? snd e)%Z) in *.
  set (F := filter keep (sortByScore scores)) in *.
  assert (Hkeep : forall e, In e F <-> In e scores /\ fst e <> fst p /\ (2 < snd e)%Z).
  { intro e. unfold F. rewrite filter_In. unfold keep.
    rewrite andb_true_iff, negb_true_iff, Z.ltb_lt.
    rewrite EmailCategory_eqb_neq.
    split; intros [H1 H2]; (split; [|exact H2]).
    - apply (Permutation_in _ (sortByScore_perm scores)). exact H1.
    - apply (Permutation_in _ (Permutation_sym (sortByScore_perm scores))). exact H1. }
  assert (HS : StronglySorted descending F)
    by (apply StronglySorted_filter, sortByScore_sorted).
  assert (HN : NoDup (map fst F)).
  { assert (NoDup (map fst (sortByScore scores))) as N.
    { apply (Permutation_NoDup (l := map fst scores)).
      - apply Permutation_map, Permutation_sym, sortByScore_perm.
      - unfold scores. rewrite scoresOf_keys.
        repeat constructor; cbn; intuition discriminate. }
    unfold F. clear -N. induction (sortByScore scores) as [|x l IH]; cbn; [constructor|].
    inversion N as [|? ? Hx N']; subst. destruct (keep x); [|now apply IH].
    cbn. constructor; [|now apply IH].
    intro Hin. apply Hx. apply in_map_iff in Hin. destruct Hin as [y [Hy Hf]].
    apply in_map_iff. exists y. split; [exact Hy|]. now apply filter_In in Hf. }
  rewrite <- (firstn_skipn 3 F) in HS, HN.
  apply StronglySorted_app_inv in HS. destruct HS as [HS1 HS2].
  rewrite map_app in HN. apply NoDup_app_remove_r in HN.
  eexists. exists (firstn 3 F). split; [exact Hr|].
  cbn [subcategories category].
  split; [reflexivity|]. split; [apply firstn_le_length|].
  split; [exact HN|]. split; [exact HS1|]. split.
  - rewrite Forall_forall. intros e He. apply Hkeep.
    rewrite <- (firstn_skipn 3 F). apply in_or_app. now left.
  - intros e H1 H2 H3.
    assert (In e F) as HF by (apply Hkeep; auto).
    rewrite <- (firstn_skipn 3 F) in HF. apply in_app_or in HF.
    destruct HF as [HF|HF]; [now left | right].
    split.
    + assert (3 < List.length F \/ List.length F <= 3) as [L|L] by lia.
      * rewrite length_firstn. lia.
      * rewrite skipn_all2 in HF by exact L. destruct HF.
    + rewrite Forall_forall. intros e' He'. exact (HS2 e' e He' HF).
Qed.

End ClassificationResults.

(** ** Priority of an email *)

Section Priority.
Import EmailCategorizationService PrioritySpec.

Lemma prefix_app (p a b : string) : prefix p a = true -> prefix p (a ++ b) = true.
Proof.
  revert a. induction p as [|c p IH]; intros a H; [now destruct (a ++ b)|].
  destruct a as [|c' a]; [discriminate H|]. cbn in *.
  destruct (ascii_dec c c'); [now apply IH | discriminate H].
Qed.

Lemma includes_app (a b p : string) : includes a p = true -> includes (a ++ b) p = true.
Proof.
  induction a as [|c a IH]; cbn [includes]; intro H.
  - destruct (prefix p EmptyString) eqn:E; [|discriminate H].
    destruct p; [|discriminate E]. destruct b; reflexivity.
  - destruct (prefix p (String c a)) eqn:E.
    + change (String c a ++ b) with (String c (a ++ b)). cbn [includes].
      change (String c (a ++ b)) with (String c a ++ b).
      now rewrite (prefix_app _ _ b E).
    + change (String c a ++ b) with (String c (a ++ b)). cbn [includes].
      rewrite (IH H). now destruct (prefix p (String c (a ++ b))).
Qed.

Lemma toLowerCase_app (a b : string) :
  toLowerCase (a ++ b) = toLowerCase a ++ toLowerCase b.
Proof. induction a as [|c a IH]; cbn; [reflexivity | now rewrite IH]. Qed.

Lemma append_assoc (a b c : string) : (a ++ b) ++ c = a ++ (b ++ c).
Proof. induction a as [|x a IH]; cbn; [reflexivity | now rewrite IH]. Qed.

(** X5.  [determinePriority] never answers ['low'], and text added
    at the end of the body never lowers the priority: the order is none,
    medium, high, urgent. *)
Theorem determinePriority_monotone :
  forall subject body extra : string,
    priorityRank (determinePriority subject body)
    <= priorityRank (determinePriority subject (body ++ extra))
    /\ determinePriority subject body <> Some low.
Proof.
  intros subject body extra. unfold determinePriority. cbv zeta.
  replace (subject ++ " " ++ body ++ extra) with ((subject ++ " " ++ body) ++ extra)
    by (rewrite !append_assoc; reflexivity).
  rewrite (toLowerCase_app (subject ++ " " ++ body) extra).
  set (t := toLowerCase (subject ++ " " ++ body)).
  set (x := toLowerCase extra).
  assert (M : forall w, includes t w = true -> includes (t ++ x) w = true)
    by (intros w; apply includes_app).
  split.
  - repeat match goal with
           | |- context [includes t ?w] =>
               let E := fresh "E" in
               destruct (includes t w) eqn:E;
               [rewrite (M w E) | clear E]
           end;
      cbn [orb priorityRank];
      repeat match goal with
             | |- context [includes (t ++ x) ?w] => destruct (includes (t ++ x) w)
             end;
      cbn [orb priorityRank]; lia.
  - repeat match goal with
           | |- context [includes t ?w] => destruct (includes t w)
           end; cbn [orb]; discriminate.
Qed.

End Priority.

(** ** Deduplication *)

Section Dedup.
Import TodoExtractionService.

Lemma deduplicate_loop_spec (l : list TodoItem) : forall seen,
  NoDup (map normalizedSignature (deduplicate_loop seen l))
  /\ (forall t, In t (deduplicate_loop seen l) ->
                In t l /\ ~ In (normalizedSignature t) seen)
  /\ (forall t, In t l ->
                In (normalizedSignature t) seen
                \/ In (normalizedSignature t)
                      (map normalizedSignature (deduplicate_loop seen l))).
Proof.
  induction l as [|x l IH]; intro seen; cbn [deduplicate_loop].
  - repeat split; [constructor | destruct H | destruct H | intros t []].
  - cbv zeta. destruct (existsb (String.eqb (normalizedSignature x)) seen) eqn:E.
    + apply existsb_eqb_In in E. destruct (IH seen) as [N [S C]].
      split; [exact N|]. split.
      * intros t Ht. destruct (S t Ht). split; [now right | assumption].
      * intros t [<-|Ht]; [now left | now apply C].
    + assert (~ In (normalizedSignature x) seen) as Hx
          by (intro H; apply existsb_eqb_In in H; congruence).
      destruct (IH (normalizedSignature x :: seen)) as [N [S C]].
      split; [|split].
      * cbn. constructor; [|exact N]. intro Hin. apply in_map_iff in Hin.
        destruct Hin as [t [Ht1 Ht2]]. destruct (S t Ht2) as [_ Hn].
        apply Hn. left. now symmetry.
      * intros t [<-|Ht]; [split; [now left | exact Hx]|].
        destruct (S t Ht) as [H1 H2]. split; [now right|].
        intro H. apply H2. now right.
      * intros t [<-|Ht]; [right; now left|].
        destruct (C t Ht) as [[H|H]|H]; [right; left; exact H | now left | right; now right].
Qed.

(** A list whose signatures are distinct and unseen is kept as it is. *)
Lemma deduplicate_loop_fixed (l : list TodoItem) : forall seen,
  NoDup (map normalizedSignature l) ->
  (forall t, In t l -> ~ In (normalizedSignature t) seen) ->
  deduplicate_loop seen l = l.
Proof.
  induction l as [|x l IH]; intros seen N D; cbn [deduplicate_loop]; [reflexivity|].
  cbv zeta. inversion N as [|? ? Hx N']; subst.
  destruct (existsb (String.eqb (normalizedSignature x)) seen) eqn:E.
  - apply existsb_eqb_In in E. exfalso. apply (D x); [now left | exact E].
  - f_equal. apply IH; [exact N'|].
    intros t Ht [H|H].
    + apply Hx. rewrite H. now apply in_map.
    + apply (D t); [now right | exact H].
Qed.

Lemma deduplicateTodos_incl (l : list TodoItem) (t : TodoItem) :
  In t (deduplicateTodos l) -> In t l.
Proof.
  unfold deduplicateTodos. intro H.
  now apply (proj1 (proj2 (deduplicate_loop_spec l [])) t).
Qed.


(** X6.  [deduplicateTodos] returns todos of its argument with
    pairwise different signatures; every todo of the argument has its
    signature among them; the first todo is always kept; and a second
    pass changes nothing. *)
Theorem deduplicateTodos_spec :
  forall l : list TodoItem,
    NoDup (map normalizedSignature (deduplicateTodos l))
    /\ (forall t, In t (deduplicateTodos l) -> In t l)
    /\ (forall t, In t l ->
                  exists t', In t' (deduplicateTodos l)
                             /\ normalizedSignature t' = normalizedSignature t)
    /\ hd_error (deduplicateTodos l) = hd_error l
    /\ deduplicateTodos (deduplicateTodos l) = deduplicateTodos l.
Proof.
  intro l. unfold deduplicateTodos.
  destruct (deduplicate_loop_spec l []) as [N [S C]].
  split; [exact N|]. split; [intros t Ht; now apply S|]. split; [|split].
  - intros t Ht. destruct (C t Ht) as [[]|H].
    apply in_map_iff in H. destruct H as [t' [H1 H2]]. now exists t'.
  - destruct l; reflexivity.
  - apply deduplicate_loop_fixed; [exact N | intros t _ []].
Qed.

End Dedup.

(** ** Sentences and candidates *)

Section Trim.

Lemma trimStart_head (s : string) :
  trimStart s = EmptyString
  \/ exists c t, trimStart s = String c t /\ is_space c = false.
Proof.
  induction s as [|c s IH]; cbn; [now left|].
  destruct (is_space c) eqn:E; [exact IH | right; now exists c, s].
Qed.

Lemma trimEnd_head (c : ascii) (s : string) :
  trimEnd (String c s) = EmptyString \/ exists t, trimEnd (String c s) = String c t.
Proof.
  cbn. destruct (trimEnd s); [destruct (is_space c); [now left | right; eauto] | right; eauto].
Qed.

Lemma trimEnd_idempotent (s : string) : trimEnd (trimEnd s) = trimEnd s.
Proof.
  induction s as [|c s IH]; [reflexivity|].
  cbn [trimEnd]. destruct (trimEnd s) as [|d t] eqn:E.
  - destruct (is_space c) eqn:Ec; [reflexivity|]. cbn. now rewrite Ec.
  - cbn [trimEnd] in *. now rewrite IH.
Qed.

(** [trim] leaves a trimmed string as it is. *)
Lemma trim_idempotent (s : string) : trim (trim s) = trim s.
Proof.
  unfold trim. destruct (trimStart_head s) as [->|[c [t [-> Hc]]]]; [reflexivity|].
  pose proof (trimEnd_idempotent (String c t)) as I.
  destruct (trimEnd_head c t) as [E|[t' E]]; rewrite E in *; [reflexivity|].
  cbn [trimStart]. rewrite Hc. exact I.
Qed.

End Trim.

Section Sentences.
Import TodoExtractionService ExtractionSpec.

Lemma splitIntoSentences_In (text sentence : string) :
  In sentence (splitIntoSentences text) ->
  trim sentence = sentence /\ 10 < String.length sentence.
Proof.
  unfold splitIntoSentences. rewrite filter_In, in_map_iff, Nat.ltb_lt.
  intros [[piece [<- _]] H]. split; [apply trim_idempotent | exact H].
Qed.

Lemma findActionInSentence_tier (sentence : string) (a : ActionPattern) :
  findActionInSentence sentence = Some a ->
  In (ap_priority a, ap_confidence a) tiers.
Proof.
  unfold findActionInSentence. cbv zeta.
  destruct (find _ actionPatterns) as [p|] eqn:F.
  - intro H. injection H as <-. apply find_some in F. destruct F as [F _].
    cbn in F. unfold tiers.
    destruct F as [<-|[<-|[<-|[<-|[]]]]]; cbn; tauto.
  - destruct (existsb _ imperativePatterns); [|discriminate].
    intro H. injection H as <-. cbn. tauto.
Qed.

Lemma Forall2_fromSentence (sentences : list string) (ts : list TodoItem) :
  Forall (fun s => trim s = s /\ 10 < String.length s) sentences ->
  Forall2 fromSentence sentences ts ->
  map context ts = sentences
  /\ Forall (fun t =>
               description t = context t
               /\ title t = generateTodoTitle (context t)
               /\ status t = pending
               /\ 10 < String.length (description t) <= 200
               /\ exists a,
                    findActionInSentence (context t) = Some a
                    /\ todo_priority t = ap_priority a
                    /\ todo_confidence t = ap_confidence a
                    /\ In (todo_priority t, todo_confidence t) tiers) ts.
Proof.
  intros HS H. induction H as [|s t sentences ts Hst _ IH]; [split; constructor|].
  inversion HS as [|? ? [Htrim Hlen] HS']; subst.
  destruct (IH HS') as [IH1 IH2].
  destruct Hst as [Hc [Hd [Ht [Hp [Hl [a [Ha [H1 [H2 _]]]]]]]]].
  rewrite Htrim in *. cbn [map]. rewrite IH1, Hc. split; [reflexivity|].
  constructor; [|exact IH2].
  rewrite Hc, Hd, Ht. repeat split; try assumption; try lia.
  exists a. repeat split; try assumption.
  rewrite H1, H2. now apply findActionInSentence_tier with s.
Qed.

Lemma splitIntoSentences_accepted (text : string) :
  Forall (fun s => trim s = s /\ 10 < String.length s)
         (filter accepted (splitIntoSentences text)).
Proof.
  rewrite Forall_forall. intros s Hs. apply filter_In in Hs.
  now apply splitIntoSentences_In with text.
Qed.

End Sentences.

Section Extraction.
Import TodoExtractionService ExtractionSpec.

Variable Date_parse : string -> option JSDate.
Variable now : JSDate.

Lemma findActionItems_loop_spec (sentences : list string) : forall svc,
  Forall2 fromSentence (filter accepted sentences)
          (fst (findActionItems_loop Date_parse now svc sentences)).
Proof.
  induction sentences as [|sentence rest IH]; intro svc; cbn [findActionItems_loop filter].
  - constructor.
  - unfold accepted at 1.
    destruct (findActionInSentence sentence) as [a|] eqn:A; [|apply IH].
    unfold createTodoFromSentence. cbv zeta.
    destruct ((String.length (trim sentence) <? 10) || (200 <? String.length (trim sentence)))
      eqn:L; cbn [negb].
    + specialize (IH svc).
      destruct (findActionItems_loop Date_parse now svc rest) as [ts svc2]. exact IH.
    + destruct (extractDueDate Date_parse now (timePatterns svc) sentence) as [d ps].
      specialize (IH (set_timePatterns svc ps)).
      destruct (findActionItems_loop Date_parse now (set_timePatterns svc ps) rest) as [ts svc2].
      cbn [fst] in *. constructor; [|exact IH].
      apply orb_false_iff in L. destruct L as [L1 L2].
      apply Nat.ltb_ge in L1, L2.
      unfold fromSentence. cbn. repeat split; try assumption.
      exists a. repeat split. exact A.
Qed.

End Extraction.

Section ExtractionResults.
Import TodoExtractionService ExtractionSpec.

Variable Date_parse : string -> option JSDate.
Variable now : JSDate.

(** X7.  The todos of [findActionItems] are, in order, those of the
    sentences of the text for which [findActionInSentence] finds an action
    and whose trimmed length is between 10 and 200.  Each has the trimmed
    sentence as description and as context, the generated title, status
    pending, a description of 11 to 200 characters, and the priority and
    confidence of the action found: one of the four keyword tiers or the
    imperative fallback. *)
Theorem findActionItems_candidates :
  forall (svc : Service) (text : string),
    let found := fst (findActionItems Date_parse now svc text) in
    map context found = filter accepted (splitIntoSentences text)
    /\ Forall (fun t =>
                 description t = context t
                 /\ title t = generateTodoTitle (context t)
                 /\ status t = pending
                 /\ 10 < String.length (description t) <= 200
                 /\ exists a,
                      findActionInSentence (context t) = Some a
                      /\ todo_priority t = ap_priority a
                      /\ todo_confidence t = ap_confidence a
                      /\ In (todo_priority t, todo_confidence t) tiers) found.
Proof.
  intros svc text found. unfold found, findActionItems.
  apply Forall2_fromSentence.
  - apply splitIntoSentences_accepted.
  - apply findActionItems_loop_spec.
Qed.

Lemma candidates_tiers (svc : Service) (subject body : JSVal) :
  Forall (fun t => In (todo_priority t, todo_confidence t) tiers)
         (candidates Date_parse now svc subject body).
Proof.
  unfold candidates. cbv zeta.
  set (text := ToString subject ++ " " ++ ToString body).
  pose proof (Forall2_fromSentence _ _ (splitIntoSentences_accepted text)
                (findActionItems_loop_spec Date_parse now (splitIntoSentences text) svc))
    as [_ H1].
  fold (findActionItems Date_parse now svc text) in H1.
  destruct (findActionItems Date_parse now svc text) as [a svc1]. cbn [fst] in H1.
  pose proof (extractExplicitTodos_fields Date_parse now svc1 text) as [_ [_ H2]].
  destruct (extractExplicitTodos Date_parse now svc1 text) as [e svc2]. cbn [fst] in H2.
  apply Forall_app. split.
  - eapply Forall_impl; [|exact H1]. cbn beta.
    intros t [_ [_ [_ [_ [a' [_ [_ [_ H]]]]]]]]. exact H.
  - eapply Forall_impl; [|exact H2]. cbn beta.
    intros t [-> ->]. cbn. tauto.
Qed.

Lemma tiers_bounds (p : TodoPriority) (c : Q) :
  In (p, c) tiers -> (6 # 10 <= c)%Q /\ (c <= 9 # 10)%Q.
Proof.
  unfold tiers. cbn.
  intros [H|[H|[H|[H|[H|[]]]]]]; injection H as _ <-; split; discriminate.
Qed.





(** The result of [extractTodos]: the candidates, deduplicated, then filtered. *)
Lemma extractTodos_todos (svc : Service) (subject body sender : JSVal) :
  exists r,
    fst (extractTodos Date_parse now svc subject body sender) = Normal r
    /\ todos r
       = filter (fun t => Qle_bool (confidenceThreshold (config svc)) (todo_confidence t))
                (deduplicateTodos (candidates Date_parse now svc subject body))
    /\ hasTodos r = (0 <? List.length (todos r))
    /\ te_confidence r
       = (if 0 <? List.length (todos r)
          then Qred (fold_left (fun sum t => sum + todo_confidence t)%Q (todos r) 0%Q
                     / inject_Z (Z.of_nat (List.length (todos r))))%Q
          else 0%Q)
    /\ te_reasoning r = generateReasoning (todos r).
Proof.
  unfold extractTodos, extractTodos_try, candidates. cbv zeta.
  destruct (findActionItems Date_parse now svc _) as [a svc1].
  destruct (extractExplicitTodos Date_parse now svc1 _) as [e svc2].
  cbn [fst try_catch]. eexists. split; [reflexivity|]. cbn. repeat split.
Qed.


(** X9.  With a threshold of at most 0.6 the filter of [extractTodos]
    removes nothing: the todos are the deduplicated candidates. *)
Theorem extractTodos_low_threshold_keeps_all :
  forall (svc : Service) (subject body sender : JSVal),
    (confidenceThreshold (config svc) <= 6 # 10)%Q ->
    exists r,
      fst (extractTodos Date_parse now svc subject body sender) = Normal r
      /\ todos r = deduplicateTodos (candidates Date_parse now svc subject body).
Proof.
  intros svc subject body sender Hthr.
  destruct (extractTodos_todos svc subject body sender) as [r [Hr [Ht _]]].
  exists r. split; [exact Hr|]. rewrite Ht.
  apply forallb_filter_id. apply forallb_forall. intros t Hin.
  apply Qle_bool_iff.
  apply deduplicateTodos_incl in Hin.
  pose proof (candidates_tiers svc subject body) as T.
  rewrite Forall_forall in T.
  destruct (tiers_bounds _ _ (T t Hin)) as [Hlo _].
  eapply Qle_trans; eassumption.
Qed.

End ExtractionResults.

(** ** Batches *)

Section BatchLoop.
Import Batch.

Context {St Res : Type}.
Variable call : St -> Email -> Completion Res * St.
Hypothesis call_completes : forall st email, exists r, fst (call st email) = Normal r.


Local Abbreviation inOrder := (Batch.inOrder call).

Lemma batchPromises_inOrder (batch : list Email) : forall st,
  Promise_all (fst (batchPromises call st batch)) = Normal (fst (inOrder st batch))
  /\ snd (batchPromises call st batch) = snd (inOrder st batch).
Proof.
  induction batch as [|email rest IH]; intro st; cbn; [split; reflexivity|].
  destruct (call_completes st email) as [r Hr].
  destruct (call st email) as [c st1]. cbn in Hr. subst c.
  destruct (IH st1) as [I1 I2].
  destruct (batchPromises call st1 rest) as [rs st2].
  destruct (inOrder st1 rest) as [rs' st2']. cbn in *.
  rewrite I1. cbn. now subst.
Qed.

Lemma inOrder_app (l1 l2 : list Email) : forall st,
  inOrder st (l1 ++ l2)
  = (fst (inOrder st l1) ++ fst (inOrder (snd (inOrder st l1)) l2),
     snd (inOrder (snd (inOrder st l1)) l2))%list.
Proof.
  induction l1 as [|email l1 IH]; intro st; cbn.
  - now destruct (inOrder st l2).
  - destruct (call st email) as [[r|e] st1].
    + rewrite IH. destruct (inOrder st1 l1) as [rs st2]. cbn.
      now destruct (inOrder st2 l2).
    + apply IH.
Qed.

Lemma slice_chunk {A} (l : list A) (i n : nat) :
  i < List.length l -> 1 <= n ->
  slice l (Z.of_nat i) (Z.of_nat i + Z.of_nat n) = firstn n (skipn i l).
Proof.
  intros Hi Hn. unfold slice, relative_index. cbv zeta.
  destruct (Z.ltb_spec (Z.of_nat i) 0); [lia|].
  destruct (Z.ltb_spec (Z.of_nat i + Z.of_nat n) 0); [lia|].
  rewrite (Z.min_l (Z.of_nat i)) by lia.
  replace (Z.to_nat (Z.of_nat i)) with i by lia.
  destruct (Z.min_spec (Z.of_nat i + Z.of_nat n) (Z.of_nat (List.length l))) as [[Hm ->]|[Hm ->]].
  - f_equal. lia.
  - replace (Z.to_nat (Z.of_nat (List.length l) - Z.of_nat i)) with (List.length (skipn i l))
      by (rewrite length_skipn; lia).
    rewrite firstn_all. symmetry. apply firstn_all2. rewrite length_skipn. lia.
Qed.

(** With a batch size of at least 1 the loop ends, and the batches do not
    show in the result: it is that of the emails taken in order. *)
Lemma batchLoop_inOrder (emails : list Email) (n : nat) :
  1 <= n ->
  forall fuel i results st,
    List.length emails - i <= fuel ->
    batchLoop call fuel emails (Z.of_nat n) (Z.of_nat i) results st
    = Some (Normal (setAll results (fst (inOrder st (skipn i emails)))),
            snd (inOrder st (skipn i emails))).
Proof.
  intros Hn. induction fuel as [|fuel IH]; intros i results st Hf.
  - cbn [batchLoop].
    destruct (Z.ltb_spec (Z.of_nat i) (Z.of_nat (List.length emails))); [lia|].
    rewrite skipn_all2 by lia. reflexivity.
  - cbn [batchLoop].
    destruct (Z.ltb_spec (Z.of_nat i) (Z.of_nat (List.length emails))) as [Hi|Hi].
    + rewrite slice_chunk by lia.
      destruct (batchPromises_inOrder (firstn n (skipn i emails)) st) as [P1 P2].
      destruct (batchPromises call st (firstn n (skipn i emails))) as [promises st1].
      cbn [fst snd] in P1, P2. rewrite P1.
      replace (Z.of_nat i + Z.of_nat n)%Z with (Z.of_nat (i + n)) by lia.
      rewrite IH by lia.
      assert (E : inOrder st (skipn i emails)
                  = inOrder st (firstn n (skipn i emails) ++ skipn (i + n) emails))
        by (rewrite (Nat.add_comm i n), <- skipn_skipn, firstn_skipn; reflexivity).
      rewrite E, inOrder_app. cbn [fst snd]. subst st1.
      unfold setAll. rewrite fold_left_app. reflexivity.
    + rewrite skipn_all2 by lia. reflexivity.
Qed.

(** With a batch size of 0 or less the index never passes the length:
    on a non-empty array the loop does not end. *)
Lemma batchLoop_diverges (emails : list Email) (batchSize : Z) :
  (batchSize <= 0)%Z -> emails <> [] ->
  forall fuel i results st,
    (i <= 0)%Z ->
    batchLoop call fuel emails batchSize i results st = None.
Proof.
  intros Hb He. induction fuel as [|fuel IH]; intros i results st Hi; cbn [batchLoop].
  - destruct (Z.ltb_spec i (Z.of_nat (List.length emails))); [reflexivity|].
    destruct emails; [congruence | cbn in *; lia].
  - destruct (Z.ltb_spec i (Z.of_nat (List.length emails)));
      [|destruct emails; [congruence | cbn in *; lia]].
    destruct (batchPromises_inOrder (slice emails i (i + batchSize)) st) as [P1 _].
    destruct (batchPromises call st (slice emails i (i + batchSize))) as [promises st1].
    cbn [fst] in P1. rewrite P1. apply IH; lia.
Qed.

End BatchLoop.

(** ** Thresholds *)

Section Thresholds.
Import TodoExtractionService ExtractionSpec.

Variable Date_parse : string -> option JSDate.
Variable now : JSDate.

Lemma filter_none {A} (p : A -> bool) (l : list A) :
  (forall x, In x l -> p x = false) -> filter p l = [].
Proof.
  induction l as [|x l IH]; cbn; intro H; [reflexivity|].
  rewrite (H x (or_introl eq_refl)). apply IH. intros y Hy. apply H. now right.
Qed.

(** X10.  With a threshold above 0.9 [extractTodos] returns the empty
    result for every input: no candidate has a higher confidence than
    0.9. *)
Theorem extractTodos_high_threshold_empty :
  forall (svc : Service) (subject body sender : JSVal),
    (9 # 10 < confidenceThreshold (config svc))%Q ->
    fst (extractTodos Date_parse now svc subject body sender)
    = Normal {| todos := []; hasTodos := false; te_confidence := 0;
                te_reasoning := "No actionable items detected in email content" |}.
Proof.
  intros svc subject body sender Hthr.
  destruct (extractTodos_todos Date_parse now svc subject body sender)
    as [r [Hr [Ht [Hh [Hc Hre]]]]].
  rewrite Hr. f_equal.
  assert (E : todos r = []).
  { rewrite Ht. apply filter_none. intros t Hin.
    apply deduplicateTodos_incl in Hin.
    pose proof (candidates_tiers Date_parse now svc subject body) as T.
    rewrite Forall_forall in T.
    destruct (tiers_bounds _ _ (T t Hin)) as [_ Hhi].
    destruct (Qle_bool (confidenceThreshold (config svc)) (todo_confidence t)) eqn:Q;
      [|reflexivity].
    apply Qle_bool_iff in Q. exfalso.
    apply (Qlt_irrefl (9 # 10)). eapply Qlt_le_trans; [exact Hthr|].
    eapply Qle_trans; eassumption. }
  rewrite E in Hh, Hc, Hre. clear Hr Ht.
  destruct r as [ts h c re]. cbn in E, Hh, Hc, Hre. now subst.
Qed.

End Thresholds.

(** ** Relative dates *)

Section RelativeDates.
Import TodoExtractionService.
Local Open Scope Z_scope.

Variable Date_parse : string -> option JSDate.
Variable now : JSDate.





End RelativeDates.

(** ** The result maps of the batch methods *)

Section Maps.
Import Batch BatchSpec.

Context {V : Type}.

Lemma Map_get_set_same (k : string) (v : V) (m : Map V) :
  Map_get k (Map_set k v m) = Some v.
Proof.
  induction m as [|[k' v'] m IH]; cbn.
  - now rewrite String.eqb_refl.
  - destruct (String.eqb k' k) eqn:E; cbn.
    + now rewrite String.eqb_refl.
    + now rewrite E.
Qed.

Lemma Map_get_set_other (k k' : string) (v : V) (m : Map V) :
  k' <> k -> Map_get k (Map_set k' v m) = Map_get k m.
Proof.
  intro Hne. induction m as [|[k'' v''] m IH]; cbn.
  - apply String.eqb_neq in Hne. now rewrite Hne.
  - destruct (String.eqb k'' k') eqn:E; cbn.
    + apply String.eqb_eq in E. subst k''.
      apply String.eqb_neq in Hne. now rewrite Hne.
    + destruct (String.eqb k'' k); [reflexivity | exact IH].
Qed.

Lemma Map_set_keys (k : string) (v : V) (m : Map V) :
  NoDup (map fst m) ->
  NoDup (map fst (Map_set k v m))
  /\ forall x, In x (map fst (Map_set k v m)) <-> x = k \/ In x (map fst m).
Proof.
  induction m as [|[k' v'] m IH]; cbn; intro N.
  - split; [repeat constructor; intros [] | intro x; intuition].
  - inversion N as [|? ? Hk N']; subst. destruct (String.eqb k' k) eqn:E; cbn.
    + apply String.eqb_eq in E. subst k'. split; [exact N | intro x; intuition].
    + destruct (IH N') as [I1 I2]. apply String.eqb_neq in E. split.
      * constructor; [|exact I1]. rewrite I2. intros [H|H]; [now apply E | now apply Hk].
      * intro x. rewrite I2. intuition.
Qed.

Lemma setAll_snoc (m : Map V) (l : list (string * V)) (e : string * V) :
  setAll m (l ++ [e]) = Map_set (fst e) (snd e) (setAll m l).
Proof. unfold setAll. now rewrite fold_left_app. Qed.

Lemma lastWith_snoc (k : string) (l : list (string * V)) (e : string * V) :
  lastWith k (l ++ [e]) = if String.eqb (fst e) k then Some (snd e) else lastWith k l.
Proof. unfold lastWith. now rewrite fold_left_app. Qed.

(** After the [set] calls a key holds the value of its last entry, and
    every key occurs once. *)
Lemma setAll_spec (l : list (string * V)) :
  NoDup (map fst (setAll [] l))
  /\ forall k, Map_get k (setAll [] l) = lastWith k l.
Proof.
  induction l as [|e l IH] using rev_ind.
  - split; [constructor | reflexivity].
  - destruct IH as [N G]. rewrite setAll_snoc. split.
    + now apply Map_set_keys.
    + intro k. rewrite lastWith_snoc.
      destruct (String.eqb (fst e) k) eqn:E.
      * apply String.eqb_eq in E. subst k. apply Map_get_set_same.
      * apply String.eqb_neq in E. rewrite Map_get_set_other by exact E. apply G.
Qed.

End Maps.

Section BatchMethods.
Import Batch BatchSpec.

Variable Date_parse : string -> option JSDate.
Variable now : JSDate.

Lemma classifyEmail_completes (subject body sender : JSVal) :
  exists r, EmailCategorizationService.classifyEmail subject body sender = Normal r.
Proof.
  unfold EmailCategorizationService.classifyEmail, try_catch.
  destruct (EmailCategorizationService.classifyEmail_try subject body sender);
    eexists; reflexivity.
Qed.

Lemma extractTodos_completes (svc : TodoExtractionService.Service) (subject body sender : JSVal) :
  exists r,
    fst (TodoExtractionService.extractTodos Date_parse now svc subject body sender) = Normal r.
Proof.
  destruct (extractTodos_todos Date_parse now svc subject body sender) as [r [Hr _]].
  now exists r.
Qed.

Lemma inOrder_classified (emails : list Email) :
  inOrder (fun (st : unit) email =>
             (EmailCategorizationService.classifyEmail
                (email_subject email) (email_body email) (email_sender email), st))
          tt emails
  = (map (fun email => (email_id email, classified email)) emails, tt).
Proof.
  induction emails as [|email rest IH]; cbn [inOrder map]; [reflexivity|].
  unfold classified at 1.
  destruct (classifyEmail_completes (email_subject email) (email_body email)
              (email_sender email)) as [r ->].
  now rewrite IH.
Qed.

Lemma inOrder_extracted (emails : list Email) : forall svc,
  inOrder (fun st email =>
             TodoExtractionService.extractTodos Date_parse now st
               (email_subject email) (email_body email) (email_sender email))
          svc emails
  = extractedInOrder Date_parse now svc emails.
Proof.
  induction emails as [|email rest IH]; intro svc; cbn [inOrder extractedInOrder];
    [reflexivity|].
  destruct (extractTodos_completes svc (email_subject email) (email_body email)
              (email_sender email)) as [r Hr].
  destruct (TodoExtractionService.extractTodos Date_parse now svc _ _ _) as [c svc1].
  cbn [fst] in Hr. subst c. now rewrite IH.
Qed.

(** X12.  With a batch size of at least 1, [batchClassifyEmails]
    ends after at most one round per email and returns a map in which every
    key occurs once and holds the classification of the last email with
    that id; an id that no email has is absent. *)
Theorem batchClassifyEmails_in_order :
  forall (cfg : AIProcessingConfig) (emails : list Email) (fuel : nat),
    (1 <= batchSize cfg)%Z ->
    List.length emails <= fuel ->
    exists results,
      batchClassifyEmails fuel cfg emails = Some (Normal results)
      /\ NoDup (map fst results)
      /\ forall k,
           Map_get k results
           = lastWith k (map (fun email => (email_id email, classified email)) emails).
Proof.
  intros cfg emails fuel Hb Hf. unfold batchClassifyEmails.
  replace (batchSize cfg) with (Z.of_nat (Z.to_nat (batchSize cfg))) by lia.
  change 0%Z with (Z.of_nat 0).
  rewrite batchLoop_inOrder;
    [| intros st email; apply classifyEmail_completes | lia | lia].
  cbn [skipn option_map fst]. rewrite inOrder_classified. cbn [fst].
  eexists. split; [reflexivity|]. apply setAll_spec.
Qed.

(** X13.  With a batch size of at least 1, [batchExtractTodos] ends
    and gives what extracting the emails one after the other on the same
    service gives, whatever the batch size: the map holds, for every id,
    the result of the last email with that id, and the service is left as
    by the last of these calls. *)
Theorem batchExtractTodos_in_order :
  forall (svc : TodoExtractionService.Service) (emails : list Email) (fuel : nat),
    (1 <= batchSize (TodoExtractionService.config svc))%Z ->
    List.length emails <= fuel ->
    exists results,
      batchExtractTodos Date_parse now fuel svc emails
      = Some (Normal results, snd (extractedInOrder Date_parse now svc emails))
      /\ NoDup (map fst results)
      /\ forall k,
           Map_get k results = lastWith k (fst (extractedInOrder Date_parse now svc emails)).
Proof.
  intros svc emails fuel Hb Hf. unfold batchExtractTodos.
  replace (batchSize (TodoExtractionService.config svc))
    with (Z.of_nat (Z.to_nat (batchSize (TodoExtractionService.config svc)))) by lia.
  change 0%Z with (Z.of_nat 0).
  rewrite batchLoop_inOrder;
    [| intros st email; apply extractTodos_completes | lia | lia].
  cbn [skipn]. rewrite inOrder_extracted.
  eexists. split; [reflexivity|]. apply setAll_spec.
Qed.

(** X14.  With a batch size of 0 or less and at least one email, the
    loops of [batchClassifyEmails] and [batchExtractTodos] never end: no
    number of rounds is enough. *)
Theorem batch_without_progress_never_ends :
  forall (svc : TodoExtractionService.Service) (emails : list Email) (fuel : nat),
    (batchSize (TodoExtractionService.config svc) <= 0)%Z ->
    emails <> [] ->
    batchClassifyEmails fuel (TodoExtractionService.config svc) emails = None
    /\ batchExtractTodos Date_parse now fuel svc emails = None.
Proof.
  intros svc emails fuel Hb He. split.
  - unfold batchClassifyEmails.
    rewrite batchLoop_diverges;
      [reflexivity | intros st email; apply classifyEmail_completes | exact Hb | exact He | lia].
  - unfold batchExtractTodos.
    apply batchLoop_diverges;
      [intros st email; apply extractTodos_completes | exact Hb | exact He | lia].
Qed.

End BatchMethods.

(** ** The processor *)

Section Processor.
Import AIEmailProcessorService ProcessorSpec.

Variable Date_parse : string -> option JSDate.
Variable prisma : list Query -> Query -> Reply.

(** [saveProcessingResults] makes the planned calls in order, until one
    is rejected. *)
Lemma saveProcessingResults_replay :
  forall (now : JSDate) (emailId : string)
         (classification : option EmailClassificationResult)
         (todoExtraction : option TodoExtractionResult) (log : list Query),
    let planned := plannedCalls prisma now emailId classification todoExtraction log in
    run prisma (saveProcessingResults now emailId classification todoExtraction) log
    = (match fst (replay prisma log planned) with
       | None => Fulfilled tt
       | Some reason => Failed reason
       end,
       snd (replay prisma log planned)).
Proof.
  intros now emailId classification todoExtraction log. cbv zeta.
  unfold saveProcessingResults, plannedCalls, await, resolve. cbv zeta.
  assert (T : forall log' : list Query,
             run prisma
               match todoExtraction with
               | Some t =>
                   if hasTodos t && (0 <? List.length (todos t))
                   then
                     Await (email_findUnique emailId)
                       (fun reply =>
                          match reply with
                          | Resolved None => Settle (Fulfilled tt)
                          | Resolved (Some userId) =>
                              Await (todo_createMany (map (todoRow emailId userId) (todos t)))
                                (fun reply0 =>
                                   match reply0 with
                                   | Resolved _ => Settle (Fulfilled tt)
                                   | Rejected reason => Settle (Failed reason)
                                   end)
                          | Rejected reason => Settle (Failed reason)
                          end)
                   else Settle (Fulfilled tt)
               | None => Settle (Fulfilled tt)
               end log'
             = (match
                  fst (replay prisma log'
                         match todoExtraction with
                         | Some t =>
                             match todos t with
                             | [] => []
                             | _ :: _ =>
                                 if hasTodos t
                                 then
                                   email_findUnique emailId
                                   :: match prisma log' (email_findUnique emailId) with
                                      | Resolved (Some userId) =>
                                          [todo_createMany
                                             (map (todoRow emailId userId) (todos t))]
                                      | _ => []
                                      end
                                 else []
                             end
                         | None => []
                         end)
                with
                | None => Fulfilled tt
                | Some reason => Failed reason
                end,
                snd (replay prisma log'
                       match todoExtraction with
                       | Some t =>
                           match todos t with
                           | [] => []
                           | _ :: _ =>
                               if hasTodos t
                               then
                                 email_findUnique emailId
                                 :: match prisma log' (email_findUnique emailId) with
                                    | Resolved (Some userId) =>
                                        [todo_createMany
                                           (map (todoRow emailId userId) (todos t))]
                                    | _ => []
                                    end
                               else []
                           end
                       | None => []
                       end))).
  { intro log'. destruct todoExtraction as [t|]; [|reflexivity].
    destruct (todos t) as [|item items] eqn:T; cbn [List.length Nat.ltb Nat.leb];
      [rewrite andb_false_r; reflexivity|].
    rewrite andb_true_r. destruct (hasTodos t); [|reflexivity].
    cbn [run replay].
    destruct (prisma log' (email_findUnique emailId)) as [[userId|]|reason];
      try reflexivity.
    cbn [run replay]. destruct (prisma _ (todo_createMany _)); reflexivity. }
  destruct classification as [c|].
  - cbn [run app replay].
    destruct (prisma log (email_update emailId _)) as [v|reason]; [|reflexivity].
    apply T.
  - cbn [app]. rewrite app_nil_r. apply T.
Qed.

(** [processEmail], with the two results it asks for and the calls it plans. *)
Lemma processEmail_replay (clock : Clock) (email : EmailProcessingInput) (p : Processor)
  (log : list Query) :
  let planned := callsOf Date_parse prisma clock p email log in
  let classification := classificationOf p email in
  let todoExtraction := extractionOf Date_parse (extractedAt clock) p email in
  exists p1,
    config p1 = config p
    /\ (enableTodoExtraction (config p) = false -> p1 = p)
    /\ processEmail Date_parse prisma clock email p log
       = (match fst (replay prisma log planned) with
          | None =>
              {| emailId := id email;
                 classification :=
                   match classification with
                   | Some c => c
                   | None => placeholder "Classification disabled or failed"
                   end;
                 todoExtraction :=
                   match todoExtraction with
                   | Some t => t
                   | None => noTodos "Todo extraction disabled or failed"
                   end;
                 metadata :=
                   {| processedAt := finishedAt clock;
                      processingVersion := "1.0.0";
                      tokensUsed :=
                        estimateTokensUsed (orEmpty (subject email)) (orEmpty (body email));
                      processingTime := (endTime clock - startTime clock)%Z;
                      errors := [] |};
                 success := true;
                 error := None |}
          | Some reason =>
              {| emailId := id email;
                 classification := placeholder "Processing failed due to error";
                 todoExtraction := noTodos "Processing failed due to error";
                 metadata :=
                   {| processedAt := finishedAt clock;
                      processingVersion := "1.0.0";
                      tokensUsed := 0;
                      processingTime := (endTime clock - startTime clock)%Z;
                      errors := [errorMessage reason] |};
                 success := false;
                 error := Some (errorMessage reason) |}
          end, p1, snd (replay prisma log planned)).
Proof.
  cbv zeta. unfold processEmail, start, finish, callsOf, classificationOf, extractionOf.
  destruct (enableTodoExtraction (config p)) eqn:ET.
  - destruct (TodoExtractionService.extractTodos Date_parse (extractedAt clock)
                (todoExtractionService p) _ _ _) as [result svc].
    cbn [fst]. eexists. split; [|split; [discriminate|]].
    2:{ cbn [running_save]. rewrite saveProcessingResults_replay. cbv zeta.
        destruct (enableCategorization (config p));
          [destruct (EmailCategorizationService.classifyEmail _ _ _)|];
          destruct result; cbn [fulfilledValue];
          destruct (fst (replay prisma log _)); reflexivity. }
    reflexivity.
  - exists p. split; [reflexivity|]. split; [reflexivity|].
    cbn [running_save]. rewrite saveProcessingResults_replay. cbv zeta.
    destruct (enableCategorization (config p));
      [destruct (EmailCategorizationService.classifyEmail _ _ _)|];
      cbn [fulfilledValue];
      destruct (fst (replay prisma log _)); reflexivity.
Qed.


(** X16.  [processEmail] makes the database calls it plans, in order,
    and stops at the first one that is rejected.  The result carries the id
    of the email and the configuration is left as it was.  When no call is
    rejected the result is a success without error; otherwise it is a
    failure with the message of the rejection, 0 tokens, and the
    placeholder results of a failed processing, whatever the two engines
    had found. *)
Theorem processEmail_outcome :
  forall (clock : Clock) (email : EmailProcessingInput) (p : Processor) (log : list Query),
    let planned := callsOf Date_parse prisma clock p email log in
    let result := fst (fst (processEmail Date_parse prisma clock email p log)) in
    let after := snd (fst (processEmail Date_parse prisma clock email p log)) in
    emailId result = id email
    /\ config after = config p
    /\ snd (processEmail Date_parse prisma clock email p log) = snd (replay prisma log planned)
    /\ match fst (replay prisma log planned) with
       | None =>
           success result = true
           /\ error result = None
           /\ errors (metadata result) = []
       | Some reason =>
           success result = false
           /\ error result = Some (errorMessage reason)
           /\ errors (metadata result) = [errorMessage reason]
           /\ tokensUsed (metadata result) = 0%Z
           /\ classification result = placeholder "Processing failed due to error"
           /\ todoExtraction result = noTodos "Processing failed due to error"
       end.
Proof.
  intros clock email p log. cbv zeta.
  destruct (processEmail_replay clock email p log) as [p1 [Hc [_ ->]]]. cbv zeta.
  cbn [fst snd].
  destruct (fst (replay prisma log _)); cbn; repeat split; exact Hc.
Qed.


Lemma estimateTokensUsed_bounds (subject body : string) :
  (4 * estimateTokensUsed subject body - 3
   <= Z.of_nat (String.length subject + String.length body)
   <= 4 * estimateTokensUsed subject body)%Z.
Proof.
  unfold estimateTokensUsed, ceil_div. cbv zeta.
  set (n := Z.of_nat (String.length subject + String.length body)).
  pose proof (Z.div_mod (- n) 4 ltac:(lia)) as E.
  pose proof (Z.mod_pos_bound (- n) 4 ltac:(lia)) as B.
  lia.
Qed.

Lemma classifyEmail_sender (subject body : string) (sender : JSVal) :
  exists c,
    EmailCategorizationService.classifyEmail (JStr subject) (JStr body) sender = Normal c
    /\ match sender with
       | JStr _ => category c <> other
       | JNull | JUndefined => c = EmailCategorizationService.classificationFailed
       end.
Proof.
  destruct sender as [| |s].
  - eexists. split; reflexivity.
  - eexists. split; reflexivity.
  - destruct (classifyEmail_strings subject body s) as [q [Hq Hr]].
    eexists. split; [exact Hr|]. cbn [category]. now apply firstMax_not_other in Hq.
Qed.

Lemma extractTodos_threshold (now : JSDate) (svc : TodoExtractionService.Service)
  (subject body sender : JSVal) :
  exists t,
    fst (TodoExtractionService.extractTodos Date_parse now svc subject body sender) = Normal t
    /\ Forall (fun item =>
                 (confidenceThreshold (TodoExtractionService.config svc)
                  <= todo_confidence item)%Q) (todos t)
    /\ hasTodos t = (0 <? List.length (todos t)).
Proof.
  destruct (extractTodos_todos Date_parse now svc subject body sender)
    as [t [Ht [Hf [Hh _]]]].
  exists t. split; [exact Ht|]. split; [|exact Hh].
  rewrite Hf, Forall_forall. intros item Hin. apply filter_In in Hin.
  now apply Qle_bool_iff.
Qed.

(** X17.  In a successful result of [processEmail] the classification
    is that of [classifyEmail] with [''] in place of a missing subject or
    body, so for a string sender its category is not ['other'], while a
    missing sender gives the record of a failed classification; the todo
    extraction is that of [extractTodos], every todo meeting the threshold;
    a disabled engine gives its placeholder; and the token estimate is the
    number of characters of subject and body divided by 4, rounded up. *)
Theorem processEmail_success_results :
  forall (clock : Clock) (email : EmailProcessingInput) (p : Processor) (log : list Query),
    let result := fst (fst (processEmail Date_parse prisma clock email p log)) in
    let subjectText := orEmpty (subject email) in
    let bodyText := orEmpty (body email) in
    success result = true ->
    (if enableCategorization (config p)
     then
       EmailCategorizationService.classifyEmail
         (JStr subjectText) (JStr bodyText) (sender email)
       = Normal (classification result)
       /\ match sender email with
          | JStr _ => category (classification result) <> other
          | JNull | JUndefined =>
              classification result = EmailCategorizationService.classificationFailed
          end
     else classification result = placeholder "Classification disabled or failed")
    /\ (if enableTodoExtraction (config p)
        then
          fst (TodoExtractionService.extractTodos Date_parse (extractedAt clock)
                 (todoExtractionService p) (JStr subjectText) (JStr bodyText)
                 (sender email))
          = Normal (todoExtraction result)
          /\ Forall (fun item => (confidenceThreshold (config p) <= todo_confidence item)%Q)
                    (todos (todoExtraction result))
        else todoExtraction result = noTodos "Todo extraction disabled or failed")
    /\ (4 * tokensUsed (metadata result) - 3
        <= Z.of_nat (String.length subjectText + String.length bodyText)
        <= 4 * tokensUsed (metadata result))%Z.
Proof.
  intros clock email p log. cbv zeta.
  destruct (processEmail_replay clock email p log) as [p1 [_ [_ ->]]]. cbv zeta.
  cbn [fst].
  destruct (fst (replay prisma log _)); [discriminate 1|]. intros _.
  cbn [classification todoExtraction metadata tokensUsed].
  split; [|split; [|apply estimateTokensUsed_bounds]].
  - unfold classificationOf. destruct (enableCategorization (config p)); [|reflexivity].
    destruct (classifyEmail_sender (orEmpty (subject email))
                (orEmpty (body email)) (sender email)) as [c [-> Hc]].
    split; [reflexivity | exact Hc].
  - unfold extractionOf. destruct (enableTodoExtraction (config p)); [|reflexivity].
    destruct (extractTodos_threshold (extractedAt clock) (todoExtractionService p)
                (JStr (orEmpty (subject email)))
                (JStr (orEmpty (body email))) (sender email))
      as [t [-> [Ht _]]].
    split; [reflexivity | exact Ht].
Qed.


Lemma replay_made (calls : list Query) : forall log,
  exists made rest,
    snd (replay prisma log calls) = (log ++ made)%list
    /\ calls = (made ++ rest)%list
    /\ (fst (replay prisma log calls) = None -> rest = []).
Proof.
  induction calls as [|q calls IH]; intro log; cbn [replay].
  - exists [], []. rewrite app_nil_r. repeat split.
  - destruct (prisma log q) as [v|reason].
    + destruct (IH (log ++ [q])%list) as [made [rest [H1 [H2 H3]]]].
      exists (q :: made), rest. rewrite H1, <- app_assoc. cbn [app].
      split; [reflexivity|]. split; [now rewrite H2 | exact H3].
    + exists [q], calls. cbn [snd fst app]. repeat split. discriminate 1.
Qed.

Lemma determinePriority_not_low (subject body : string) :
  EmailCategorizationService.determinePriority subject body <> Some low.
Proof.
  unfold EmailCategorizationService.determinePriority. cbv zeta.
  repeat match goal with |- context [if ?b then _ else _] => destruct b end; discriminate.
Qed.

Lemma classifyEmail_priority (subject body : string) (sender : JSVal)
  (c : EmailClassificationResult) :
  EmailCategorizationService.classifyEmail (JStr subject) (JStr body) sender = Normal c ->
  (1 <= storedPriority (priority c) <= 3)%Z.
Proof.
  intro H.
  assert (priority c <> Some low) as Hp.
  { destruct sender as [| |s].
    - injection H as <-. discriminate.
    - injection H as <-. discriminate.
    - destruct (classifyEmail_strings subject body s) as [q [_ Hr]].
      rewrite Hr in H. injection H as <-. apply determinePriority_not_low. }
  destruct (priority c) as [[]|]; cbn; try lia. congruence.
Qed.

(** X18.  The database calls of one [processEmail]: at most one
    update of the email, then at most one lookup, then at most one
    insertion, all for the id of the email.  The update is made only with
    categorization enabled and stores a priority of 1, 2 or 3; the lookup
    and the insertion are made only with todo extraction enabled; the
    inserted rows are not empty, carry the id of the email and a confidence
    of at least the threshold. *)
Theorem processEmail_calls :
  forall (clock : Clock) (email : EmailProcessingInput) (p : Processor) (log : list Query),
  exists made,
    snd (processEmail Date_parse prisma clock email p log) = (log ++ made)%list
    /\ StronglySorted lt (map step made)
    /\ Forall (fun q =>
                 match q with
                 | email_update where_id data =>
                     where_id = id email
                     /\ enableCategorization (config p) = true
                     /\ (1 <= stored_priority data <= 3)%Z
                 | email_findUnique where_id =>
                     where_id = id email
                     /\ enableTodoExtraction (config p) = true
                 | todo_createMany data =>
                     data <> []
                     /\ enableTodoExtraction (config p) = true
                     /\ Forall (fun row =>
                                  row_emailId row = id email
                                  /\ (confidenceThreshold (config p) <= row_confidence row)%Q)
                               data
                 end) made.
Proof.
  intros clock email p log.
  destruct (processEmail_replay clock email p log) as [p1 [_ [_ ->]]]. cbv zeta.
  cbn [snd].
  destruct (replay_made (callsOf Date_parse prisma clock p email log) log)
    as [made [rest [H1 [H2 _]]]].
  exists made. split; [exact H1|].
  set (P := fun q => match q with
                     | email_update _ _ => _
                     | email_findUnique _ => _
                     | todo_createMany _ => _
                     end).
  assert (StronglySorted lt (map step (made ++ rest)) /\ Forall P (made ++ rest)) as [S F].
  { rewrite <- H2. clear H1 H2. unfold callsOf, plannedCalls. cbv zeta.
    assert (U : exists updates,
               match classificationOf p email with
               | Some c =>
                   [email_update (id email)
                      (updateData (savedAt clock) c
                         (extractionOf Date_parse (extractedAt clock) p email))]
               | None => []
               end = updates
               /\ Forall P updates
               /\ Forall (fun q => step q = 0) updates
               /\ List.length updates <= 1).
    { unfold classificationOf. destruct (enableCategorization (config p)) eqn:EC.
      - destruct (EmailCategorizationService.classifyEmail _ _ _) as [c|e] eqn:C.
        + eexists. split; [reflexivity|].
          split; [|split; [repeat constructor | cbn; lia]].
          constructor; [|constructor]. unfold P.
          split; [reflexivity|]. split; [first [exact EC | reflexivity]|].
          apply classifyEmail_priority in C. exact C.
        + exists []. repeat constructor.
      - exists []. repeat constructor. }
    destruct U as [updates [-> [U1 [U2 U3]]]].
    assert (I : exists inserts,
               match extractionOf Date_parse (extractedAt clock) p email with
               | Some t =>
                   match todos t with
                   | [] => []
                   | _ :: _ =>
                       if hasTodos t
                       then email_findUnique (id email)
                            :: match prisma (log ++ updates)%list
                                       (email_findUnique (id email)) with
                               | Resolved (Some userId) =>
                                   [todo_createMany
                                      (map (todoRow (id email) userId) (todos t))]
                               | _ => []
                               end
                       else []
                   end
               | None => []
               end = inserts
               /\ Forall P inserts
               /\ StronglySorted lt (map step inserts)
               /\ Forall (fun q => 0 < step q) inserts).
    { unfold extractionOf. destruct (enableTodoExtraction (config p)) eqn:ET;
        [|exists []; repeat constructor].
      destruct (extractTodos_threshold (extractedAt clock) (todoExtractionService p)
                  (JStr (orEmpty (subject email))) (JStr (orEmpty (body email)))
                  (sender email)) as [t [-> [Ht _]]].
      destruct (todos t) as [|item items] eqn:T; [exists []; repeat constructor|].
      destruct (hasTodos t); [|exists []; repeat constructor].
      assert (L : P (email_findUnique (id email))) by (split; [reflexivity | first [exact ET | reflexivity]]).
      destruct (prisma _ (email_findUnique (id email))) as [[userId|]|reason];
        eexists; (split; [reflexivity|]);
        try (split; [repeat constructor; exact L | split; repeat constructor]).
      split; [|split; repeat constructor].
      constructor; [exact L|]. constructor; [|constructor]. unfold P.
      split; [discriminate 1|]. split; [first [exact ET | reflexivity]|].
      rewrite Forall_map. eapply Forall_impl; [|exact Ht]. cbn beta.
      intros x Hx. split; [reflexivity | exact Hx]. }
    destruct I as [inserts [-> [I1 [I2 I3]]]].
    split; [|apply Forall_app; now split].
    rewrite map_app. destruct updates as [|u [|u' updates]]; cbn [app map].
    - exact I2.
    - constructor; [exact I2|]. inversion U2 as [|? ? Hu _]; subst.
      rewrite Hu, Forall_map. exact I3.
    - cbn in U3. lia. }
  split.
  - rewrite map_app in S. now apply StronglySorted_app_inv in S.
  - apply Forall_app in F. tauto.
Qed.


Lemma extractTodos_at_most (now : JSDate) (svc : TodoExtractionService.Service)
  (subject body sender : JSVal) (t : TodoExtractionResult) :
  fst (TodoExtractionService.extractTodos Date_parse now svc subject body sender) = Normal t ->
  Forall (fun item => (todo_confidence item <= 9 # 10)%Q) (todos t).
Proof.
  intro H.
  destruct (extractTodos_todos Date_parse now svc subject body sender)
    as [t' [Ht [Hf _]]].
  rewrite Ht in H. injection H as <-.
  rewrite Hf, Forall_forall. intros item Hin. apply filter_In in Hin.
  destruct Hin as [Hin _]. apply deduplicateTodos_incl in Hin.
  pose proof (candidates_tiers Date_parse now svc subject body) as T.
  rewrite Forall_forall in T.
  now apply (tiers_bounds (todo_priority item)), T.
Qed.

(** X19.  After [updateProcessingConfig] with a new threshold,
    [getProcessingConfig] shows it and the todo extraction of the next
    [processEmail] obeys it: the services share the configuration object
    of the processor.  With a threshold above 0.9 no todo is returned. *)
Theorem updateProcessingConfig_takes_effect :
  forall (p : Processor) (newConfig : PartialConfig) (threshold : Q)
         (clock : Clock) (email : EmailProcessingInput) (log : list Query),
    new_confidenceThreshold newConfig = Some threshold ->
    let updated := updateProcessingConfig p newConfig in
    let result := fst (fst (processEmail Date_parse prisma clock email updated log)) in
    confidenceThreshold (getProcessingConfig updated) = threshold
    /\ Forall (fun item => (threshold <= todo_confidence item)%Q)
              (todos (todoExtraction result))
    /\ ((9 # 10 < threshold)%Q -> todos (todoExtraction result) = []).
Proof.
  intros p newConfig threshold clock email log Hn. cbv zeta.
  assert (E : confidenceThreshold (config (updateProcessingConfig p newConfig)) = threshold).
  { cbn. now rewrite Hn. }
  split; [exact E|].
  destruct (processEmail_replay clock email (updateProcessingConfig p newConfig) log)
    as [p1 [_ [_ ->]]]. cbv zeta. cbn [fst].
  destruct (fst (replay prisma log _)); cbn [todoExtraction];
    [split; [constructor | reflexivity]|].
  unfold extractionOf.
  destruct (enableTodoExtraction (config (updateProcessingConfig p newConfig)));
    [|split; [constructor | reflexivity]].
  destruct (extractTodos_threshold (extractedAt clock)
              (todoExtractionService (updateProcessingConfig p newConfig))
              (JStr (orEmpty (subject email))) (JStr (orEmpty (body email)))
              (sender email)) as [t [Ht [Hthr _]]].
  pose proof (extractTodos_at_most _ _ _ _ _ _ Ht) as Hmost.
  rewrite Ht.
  change (TodoExtractionService.config
            (todoExtractionService (updateProcessingConfig p newConfig)))
    with (config (updateProcessingConfig p newConfig)) in Hthr.
  rewrite E in Hthr. split; [exact Hthr|].
  intro Hlt. destruct (todos t) as [|item items]; [reflexivity|].
  pose proof (Forall_inv Hthr) as H1. pose proof (Forall_inv Hmost) as H2.
  cbn beta in H1, H2.
  exfalso. apply (Qlt_irrefl threshold).
  eapply Qle_lt_trans; [exact H1|]. eapply Qle_lt_trans; [exact H2 | exact Hlt].
Qed.

(** X20.  With both engines disabled [processEmail] makes no database
    call, leaves the processor as it is, and reports success with the two
    placeholder results. *)
Theorem processEmail_disabled :
  forall (clock : Clock) (email : EmailProcessingInput) (p : Processor) (log : list Query),
    enableCategorization (config p) = false ->
    enableTodoExtraction (config p) = false ->
    processEmail Date_parse prisma clock email p log
    = ({| emailId := id email;
          classification := placeholder "Classification disabled or failed";
          todoExtraction := noTodos "Todo extraction disabled or failed";
          metadata :=
            {| processedAt := finishedAt clock;
               processingVersion := "1.0.0";
               tokensUsed :=
                 estimateTokensUsed (orEmpty (subject email)) (orEmpty (body email));
               processingTime := (endTime clock - startTime clock)%Z;
               errors := [] |};
          success := true;
          error := None |}, p, log).
Proof.
  intros clock email p log HC HT. unfold processEmail, start. now rewrite HC, HT.
Qed.

End Processor.

(** ** Headers and address lists *)

Section Headers.
Import Batch BatchSpec GmailFetcherService HeaderSpec.

Lemma lower_unit_idempotent (c : ascii) : lower_unit (lower_unit c) = lower_unit c.
Proof. destruct c as [[] [] [] [] [] [] [] []]; reflexivity. Qed.

Lemma toLowerCase_idempotent (s : string) : toLowerCase (toLowerCase s) = toLowerCase s.
Proof.
  induction s as [|c s IH]; cbn; [reflexivity|]. now rewrite lower_unit_idempotent, IH.
Qed.

Lemma toLowerCase_empty (s : string) : toLowerCase s = "" -> s = "".
Proof. destruct s; [reflexivity | discriminate]. Qed.

Lemma Map_set_Forall {V : Type} (P : string * V -> Prop) (k : string) (v : V) (m : Map V) :
  P (k, v) -> Forall P m -> Forall P (Map_set k v m).
Proof.
  intros Hk. induction m as [|[k' v'] m IH]; cbn; intro F.
  - now constructor.
  - inversion F as [|? ? H1 H2]; subst.
    destruct (String.eqb k' k); constructor; auto.
Qed.

Lemma setAll_Forall {V : Type} (P : string * V -> Prop) (l : list (string * V)) :
  forall m, Forall P l -> Forall P m -> Forall P (setAll m l).
Proof.
  induction l as [|[k v] l IH]; intros m Hl Hm; cbn; [exact Hm|].
  inversion Hl as [|? ? H1 H2]; subst.
  apply IH; [exact H2|]. now apply Map_set_Forall.
Qed.

Lemma parseHeaders_usable (headers : list MessagePartHeader) : forall m : EmailHeaders,
  fold_left
    (fun parsedHeaders header =>
       match name header, value header with
       | Some n, Some v =>
           if truthy (name header) && truthy (value header)
           then assignProperty (toLowerCase n) v parsedHeaders
           else parsedHeaders
       | _, _ => parsedHeaders
       end)
    headers m
  = setAll m (usable headers).
Proof.
  induction headers as [|[n v] headers IH]; intro m; [reflexivity|].
  cbn [fold_left usable flat_map name value]. rewrite IH. clear IH.
  fold (usable headers).
  destruct n as [n|]; [|reflexivity]. destruct v as [v|]; [|reflexivity].
  unfold truthy, assignProperty.
  destruct (String.eqb n ""); [reflexivity|].
  destruct (String.eqb v ""); [reflexivity|].
  cbn [negb andb orb].
  destruct (String.eqb (toLowerCase n) "__proto__"); reflexivity.
Qed.

Lemma usable_entries (headers : list MessagePartHeader) :
  Forall (fun entry : string * string =>
            toLowerCase (fst entry) = fst entry /\ fst entry <> "" /\ snd entry <> "")
         (usable headers).
Proof.
  induction headers as [|[n v] headers IH]; [constructor|].
  cbn [usable flat_map name value]. fold (usable headers).
  destruct n as [n|]; [|exact IH]. destruct v as [v|]; [|exact IH].
  destruct (String.eqb n "") eqn:En; [exact IH|].
  destruct (String.eqb v "") eqn:Ev; [exact IH|].
  cbn [orb]. destruct (String.eqb (toLowerCase n) "__proto__"); [exact IH|].
  cbn [app]. constructor; [|exact IH]. cbn [fst snd].
  apply String.eqb_neq in En, Ev.
  split; [apply toLowerCase_idempotent|]. split; [|exact Ev].
  intro H. apply En. now apply toLowerCase_empty.
Qed.

(** X21.  [parseHeaders] keeps every name once, in lower case, with a
    non-empty value; looking a name up gives the value of the last header
    with that name, letter case ignored, among those whose name and value
    are not empty; a header named [__proto__] is not kept. *)
Theorem parseHeaders_lookup :
  forall headers : list MessagePartHeader,
    NoDup (map fst (parseHeaders headers))
    /\ Forall (fun entry : string * string =>
                 toLowerCase (fst entry) = fst entry /\ fst entry <> "" /\ snd entry <> "")
              (parseHeaders headers)
    /\ forall key, Map_get key (parseHeaders headers) = lastWith key (usable headers).
Proof.
  intro headers. unfold parseHeaders. rewrite parseHeaders_usable.
  destruct (setAll_spec (usable headers)) as [N G].
  split; [exact N|]. split; [|exact G].
  apply setAll_Forall; [apply usable_entries | constructor].
Qed.

End Headers.

Section Addresses.
Import GmailFetcherService HeaderSpec.

Lemma includes_unit (sep c : ascii) (s : string) :
  includes (String c s) (String sep "")
  = Ascii.eqb c sep || includes s (String sep "").
Proof.
  cbn [includes prefix].
  destruct (ascii_dec sep c) as [->|Hne].
  - rewrite Ascii.eqb_refl. now destruct s.
  - assert (Ascii.eqb c sep = false) as -> by (apply Ascii.eqb_neq; congruence).
    reflexivity.
Qed.

Lemma split_unit_none (sep : ascii) (s : string) :
  includes s (String sep "") = false -> split_unit sep s = [s].
Proof.
  induction s as [|c s IH]; [reflexivity|].
  rewrite includes_unit. intro H. apply orb_false_iff in H. destruct H as [Hc Hs].
  cbn [split_unit]. now rewrite Hc, (IH Hs).
Qed.

Lemma split_unit_app (sep : ascii) (a b : string) :
  includes a (String sep "") = false ->
  split_unit sep (a ++ String sep b) = a :: split_unit sep b.
Proof.
  induction a as [|c a IH].
  - intros _. cbn. now rewrite Ascii.eqb_refl.
  - rewrite includes_unit. intro H. apply orb_false_iff in H. destruct H as [Hc Ha].
    cbn [append split_unit]. now rewrite Hc, (IH Ha).
Qed.

Lemma split_unit_pieces (sep : ascii) (s : string) :
  split_unit sep s <> []
  /\ Forall (fun piece => includes piece (String sep "") = false) (split_unit sep s).
Proof.
  induction s as [|c s [IH1 IH2]]; cbn [split_unit].
  - split; [discriminate | repeat constructor].
  - destruct (Ascii.eqb c sep) eqn:E.
    + split; [discriminate|]. constructor; [reflexivity | exact IH2].
    + destruct (split_unit sep s) as [|piece pieces]; [congruence|].
      split; [discriminate|]. inversion IH2 as [|? ? H1 H2]; subst.
      constructor; [|exact H2]. rewrite includes_unit, E. exact H1.
Qed.

Lemma trimStart_without (sep : ascii) (s : string) :
  includes s (String sep "") = false -> includes (trimStart s) (String sep "") = false.
Proof.
  induction s as [|c s IH]; [reflexivity|].
  intro H. cbn [trimStart]. destruct (is_space c); [|exact H].
  rewrite includes_unit in H. apply orb_false_iff in H. now apply IH.
Qed.

Lemma trimEnd_without (sep : ascii) (s : string) :
  includes s (String sep "") = false -> includes (trimEnd s) (String sep "") = false.
Proof.
  induction s as [|c s IH]; [reflexivity|].
  rewrite includes_unit. intro H. apply orb_false_iff in H. destruct H as [Hc Hs].
  specialize (IH Hs). cbn [trimEnd].
  destruct (trimEnd s) as [|d t].
  - destruct (is_space c); [reflexivity|]. rewrite includes_unit, Hc. reflexivity.
  - rewrite includes_unit, Hc. exact IH.
Qed.

Lemma parseEmailString_addresses (s : string) : Forall address (parseEmailString s).
Proof.
  unfold parseEmailString. destruct (String.eqb s ""); [constructor|].
  rewrite Forall_forall. intros email Hin. apply filter_In in Hin.
  destruct Hin as [Hin Hat]. apply in_map_iff in Hin. destruct Hin as [piece [<- Hp]].
  destruct (split_unit_pieces "," s) as [_ F]. rewrite Forall_forall in F.
  repeat split.
  - apply trim_idempotent.
  - exact Hat.
  - unfold trim. apply trimEnd_without, trimStart_without. now apply F.
Qed.

(** X22.  Every entry that [parseEmailList] returns is trimmed,
    contains an at sign and contains no comma. *)
Theorem parseEmailList_addresses :
  forall emailString : EmailList, Forall address (parseEmailList emailString).
Proof.
  intros [|s|l]; cbn [parseEmailList].
  - constructor.
  - apply parseEmailString_addresses.
  - rewrite Forall_forall. intros email Hin. apply in_flat_map in Hin.
    destruct Hin as [s [_ Hin]].
    pose proof (parseEmailString_addresses s) as F. rewrite Forall_forall in F.
    now apply F.
Qed.

Lemma address_padded (email : string) :
  address email ->
  trim (" " ++ email) = email /\ includes (" " ++ email) "," = false /\ email <> "".
Proof.
  intros [Ht [Hat Hc]]. split; [exact Ht|]. split.
  - change (" " ++ email) with (String " " email). rewrite includes_unit. exact Hc.
  - intro E. rewrite E in Hat. discriminate Hat.
Qed.

Lemma split_join (l : list string) :
  l <> [] -> Forall address l ->
  map trim (split_unit "," (join ", " l)) = l
  /\ map trim (split_unit "," (" " ++ join ", " l)) = l.
Proof.
  induction l as [|x l IH]; [congruence|]. intros _ F.
  inversion F as [|? ? Hx Hl]; subst.
  pose proof (address_padded x Hx) as [P1 [P2 _]]. destruct Hx as [Ht [_ Hc]].
  destruct l as [|y l].
  - cbn [join]. rewrite (split_unit_none "," x Hc), (split_unit_none "," (" " ++ x) P2).
    cbn [map]. now rewrite Ht, P1.
  - destruct (IH ltac:(discriminate) Hl) as [_ IH2].
    change (join ", " (x :: y :: l)) with (x ++ ", " ++ join ", " (y :: l)).
    change (x ++ ", " ++ join ", " (y :: l))
      with (x ++ String "," (" " ++ join ", " (y :: l))).
    replace (" " ++ x ++ String "," (" " ++ join ", " (y :: l)))
      with ((" " ++ x) ++ String "," (" " ++ join ", " (y :: l))) by reflexivity.
    rewrite (split_unit_app "," x _ Hc), (split_unit_app "," (" " ++ x) _ P2).
    cbn [map]. now rewrite IH2, Ht, P1.
Qed.

Lemma filter_all {A : Type} (f : A -> bool) (l : list A) :
  Forall (fun x => f x = true) l -> filter f l = l.
Proof.
  induction 1 as [|x l Hx _ IH]; cbn; [reflexivity|]. now rewrite Hx, IH.
Qed.

Lemma join_nonempty (x : string) (l : list string) :
  x <> "" -> String.eqb (join ", " (x :: l)) "" = false.
Proof.
  intro Hx. destruct x as [|c x]; [congruence|]. destruct l; reflexivity.
Qed.

Lemma parseEmailString_join (l : list string) :
  Forall address l -> parseEmailString (join ", " l) = l.
Proof.
  intro F. destruct l as [|x l]; [reflexivity|].
  unfold parseEmailString.
  assert (x <> "") as Hx by (inversion F as [|? ? H _]; now apply address_padded in H).
  rewrite (join_nonempty x l Hx).
  destruct (split_join (x :: l) ltac:(discriminate) F) as [-> _].
  apply filter_all. eapply Forall_impl; [|exact F]. intros a [_ [H _]]. exact H.
Qed.

(** X23.  [parseEmailList] gives a list of addresses back: from the
    addresses joined with a comma and a space, and from the array of the
    addresses, when every address is trimmed, contains an at sign and no
    comma. *)
Theorem parseEmailList_join :
  forall l : list string,
    Forall address l ->
    parseEmailList (Text (join ", " l)) = l
    /\ parseEmailList (Texts l) = l.
Proof.
  intros l F. split; [now apply parseEmailString_join|].
  cbn [parseEmailList]. induction F as [|x l Hx F IH]; [reflexivity|].
  cbn [flat_map]. rewrite IH.
  change (parseEmailString x) with (parseEmailString (join ", " [x])).
  rewrite parseEmailString_join by (constructor; [exact Hx | constructor]).
  reflexivity.
Qed.

End Addresses.

(** ** Titles *)

Section Titles.
Import TodoExtractionService ExtractionSpec.

Variable Date_parse : string -> option JSDate.
Variable now : JSDate.






End Titles.

(** ** The state of the service only reaches the due dates *)

Section Dateless.
Import TodoExtractionService DatelessSpec.

Variable Date_parse : string -> option JSDate.
Variable now : JSDate.

Lemma findActionItems_loop_dateless (sentences : list string) : forall svc,
  map withoutDueDate (fst (findActionItems_loop Date_parse now svc sentences))
  = flat_map sentenceTodo sentences.
Proof.
  induction sentences as [|sentence rest IH]; intro svc;
    cbn [findActionItems_loop flat_map]; [reflexivity|].
  unfold sentenceTodo at 1.
  destruct (findActionInSentence sentence) as [action|]; [|apply IH].
  unfold createTodoFromSentence. cbv zeta.
  destruct ((String.length (trim sentence) <? 10) || (200 <? String.length (trim sentence))).
  - specialize (IH svc).
    destruct (findActionItems_loop Date_parse now svc rest) as [ts svc2]. exact IH.
  - destruct (extractDueDate Date_parse now (timePatterns svc) sentence) as [d ps].
    specialize (IH (set_timePatterns svc ps)).
    destruct (findActionItems_loop Date_parse now (set_timePatterns svc ps) rest)
      as [ts svc2].
    cbn [fst map app] in *. now rewrite IH.
Qed.

Lemma listTodos_dateless (contents : list string) : forall svc,
  map withoutDueDate (fst (listTodos Date_parse now svc contents))
  = map (itemTodo pending) (filter looksLikeTodo contents).
Proof.
  induction contents as [|content rest IH]; intro svc; cbn [listTodos filter];
    [reflexivity|].
  destruct (looksLikeTodo content); [|apply IH].
  unfold createTodoFromText.
  destruct (extractDueDate Date_parse now (timePatterns svc) content) as [d ps].
  specialize (IH (set_timePatterns svc ps)).
  destruct (listTodos Date_parse now (set_timePatterns svc ps) rest) as [ts svc2].
  cbn [fst map] in *. now rewrite IH.
Qed.

Lemma checkboxTodos_dateless (boxes : list string) : forall svc,
  map withoutDueDate (fst (checkboxTodos Date_parse now svc boxes))
  = map (fun box => itemTodo (checkboxStatus box) (checkboxContent box)) boxes.
Proof.
  induction boxes as [|box rest IH]; intro svc; cbn [checkboxTodos]; [reflexivity|].
  cbv zeta. unfold createTodoFromText.
  destruct (extractDueDate Date_parse now (timePatterns svc) (checkboxContent box))
    as [d ps].
  specialize (IH (set_timePatterns svc ps)).
  destruct (checkboxTodos Date_parse now (set_timePatterns svc ps) rest) as [ts svc2].
  cbn [fst map] in *. now rewrite IH.
Qed.

Lemma candidates_dateless (svc : Service) (subject body : JSVal) :
  map withoutDueDate (ExtractionSpec.candidates Date_parse now svc subject body)
  = candidates (ToString subject ++ " " ++ ToString body).
Proof.
  unfold ExtractionSpec.candidates, candidates. cbv zeta.
  set (text := ToString subject ++ " " ++ ToString body).
  unfold findActionItems.
  pose proof (findActionItems_loop_dateless (splitIntoSentences text) svc) as H0.
  destruct (findActionItems_loop Date_parse now svc (splitIntoSentences text)) as [a svc1].
  unfold extractExplicitTodos.
  pose proof (listTodos_dateless (map numberedContent (numberedItems text)) svc1) as H1.
  destruct (listTodos Date_parse now svc1 _) as [l1 svc2].
  pose proof (listTodos_dateless (map bulletContent (bulletItems text)) svc2) as H2.
  destruct (listTodos Date_parse now svc2 _) as [l2 svc3].
  pose proof (checkboxTodos_dateless (checkboxItems text) svc3) as H3.
  destruct (checkboxTodos Date_parse now svc3 _) as [l3 svc4].
  cbn [fst] in H0, H1, H2, H3. rewrite !map_app, H0, H1, H2, H3. reflexivity.
Qed.

End Dateless.

Section DatelessLists.
Import TodoExtractionService DatelessSpec.

Lemma deduplicate_loop_dateless (l : list TodoItem) : forall seen,
  map withoutDueDate (deduplicate_loop seen l) = deduplicate_loop seen (map withoutDueDate l).
Proof.
  induction l as [|x l IH]; intro seen; cbn [deduplicate_loop map]; [reflexivity|].
  cbv zeta. change (normalizedSignature (withoutDueDate x)) with (normalizedSignature x).
  destruct (existsb (String.eqb (normalizedSignature x)) seen); [apply IH|].
  cbn [map]. now rewrite IH.
Qed.

Lemma filter_dateless (threshold : Q) (l : list TodoItem) :
  map withoutDueDate (filter (fun item => Qle_bool threshold (todo_confidence item)) l)
  = filter (fun item => Qle_bool threshold (todo_confidence item)) (map withoutDueDate l).
Proof.
  induction l as [|x l IH]; cbn [filter map]; [reflexivity|].
  change (todo_confidence (withoutDueDate x)) with (todo_confidence x).
  destruct (Qle_bool threshold (todo_confidence x)); cbn [map]; now rewrite IH.
Qed.

Lemma sum_dateless (l : list TodoItem) : forall a : Q,
  fold_left (fun sum item => sum + todo_confidence item)%Q (map withoutDueDate l) a
  = fold_left (fun sum item => sum + todo_confidence item)%Q l a.
Proof. induction l as [|x l IH]; intro a; cbn [fold_left map]; [reflexivity | apply IH]. Qed.

Lemma reasons_dateless (l : list TodoItem) : forall index,
  reasons index (map withoutDueDate l) = reasons index l.
Proof.
  induction l as [|x l IH]; intro index; cbn [reasons map]; [reflexivity|].
  cbv zeta. now rewrite IH.
Qed.

Lemma generateReasoning_dateless (l : list TodoItem) :
  generateReasoning (map withoutDueDate l) = generateReasoning l.
Proof.
  destruct l as [|x l]; [reflexivity|].
  unfold generateReasoning. cbn [map]. 
  change (withoutDueDate x :: map withoutDueDate l) with (map withoutDueDate (x :: l)).
  now rewrite reasons_dateless.
Qed.

End DatelessLists.

Section DatelessResult.
Import TodoExtractionService DatelessSpec.

Variable Date_parse : string -> option JSDate.
Variable now : JSDate.

(** X24.  Apart from the due dates, [extractTodos] is a function of
    the threshold, the subject and the body: whatever the [lastIndex] of
    the time patterns, the clock and the sender, the todos without their
    due dates, [hasTodos], the confidence and the reasoning are those of
    the stateless extraction. *)
Theorem extractTodos_dates_apart :
  forall (svc : Service) (subject body sender : JSVal),
    let expected := result (confidenceThreshold (config svc)) subject body in
    exists r,
      fst (extractTodos Date_parse now svc subject body sender) = Normal r
      /\ map withoutDueDate (todos r) = todos expected
      /\ hasTodos r = hasTodos expected
      /\ te_confidence r = te_confidence expected
      /\ te_reasoning r = te_reasoning expected.
Proof.
  intros svc subject body sender. cbv zeta.
  destruct (extractTodos_todos Date_parse now svc subject body sender)
    as [r [Hr [Ht [Hh [Hc Hre]]]]].
  exists r. split; [exact Hr|].
  assert (E : map withoutDueDate (todos r)
              = todos (result (confidenceThreshold (config svc)) subject body)).
  { rewrite Ht. unfold result. cbv zeta. cbn [todos].
    rewrite filter_dateless. unfold deduplicateTodos.
    now rewrite deduplicate_loop_dateless, candidates_dateless. }
  split; [exact E|].
  assert (L : List.length (todos r)
              = List.length (todos (result (confidenceThreshold (config svc)) subject body)))
    by (rewrite <- E; symmetry; apply length_map).
  unfold result in *. cbv zeta in *. cbn [todos hasTodos te_confidence te_reasoning] in *.
  rewrite Hh, Hc, Hre, L, <- E, sum_dateless, generateReasoning_dateless.
  repeat split.
Qed.

End DatelessResult.

(** ** What a call leaves of the service *)

Section Frame.
Import TodoExtractionService StateSpec.

Variable Date_parse : string -> option JSDate.
Variable now : JSDate.

Lemma exec_unindexed (re : RegExp) (input : string) :
  unindexed (snd (exec re input)) = unindexed re.
Proof.
  unfold exec. destruct (global re) eqn:G; [|reflexivity].
  destruct (search_at (ignoreCase re) (source re) input (lastIndex re));
    unfold unindexed; cbn; now rewrite G.
Qed.

Lemma extractDueDate_unindexed (patterns : list RegExp) (text : string) :
  map unindexed (snd (extractDueDate Date_parse now patterns text)) = map unindexed patterns.
Proof.
  induction patterns as [|pattern rest IH]; cbn [extractDueDate]; [reflexivity|].
  pose proof (exec_unindexed pattern text) as E.
  destruct (exec pattern text) as [m pattern']. cbn [snd] in E.
  destruct m as [r|].
  - cbn [snd map]. now rewrite E.
  - destruct (extractDueDate Date_parse now rest text) as [d rest'].
    cbn [snd map] in *. now rewrite E, IH.
Qed.

Lemma sameService_refl (svc : Service) : sameService svc svc.
Proof. split; reflexivity. Qed.

Lemma sameService_trans (a b c : Service) :
  sameService a b -> sameService b c -> sameService a c.
Proof. intros [H1 H2] [H3 H4]. split; congruence. Qed.

Lemma set_timePatterns_same (svc : Service) (text : string) :
  sameService
    (set_timePatterns svc (snd (extractDueDate Date_parse now (timePatterns svc) text)))
    svc.
Proof. split; [reflexivity | apply extractDueDate_unindexed]. Qed.

Lemma findActionItems_loop_same (sentences : list string) : forall svc,
  sameService (snd (findActionItems_loop Date_parse now svc sentences)) svc.
Proof.
  induction sentences as [|sentence rest IH]; intro svc; cbn [findActionItems_loop].
  - apply sameService_refl.
  - destruct (findActionInSentence sentence) as [action|]; [|apply IH].
    unfold createTodoFromSentence. cbv zeta.
    destruct ((String.length (trim sentence) <? 10) || (200 <? String.length (trim sentence))).
    + specialize (IH svc).
      destruct (findActionItems_loop Date_parse now svc rest) as [ts svc2]. exact IH.
    + pose proof (set_timePatterns_same svc sentence) as S.
      destruct (extractDueDate Date_parse now (timePatterns svc) sentence) as [d ps].
      cbn [snd] in S. specialize (IH (set_timePatterns svc ps)).
      destruct (findActionItems_loop Date_parse now (set_timePatterns svc ps) rest)
        as [ts svc2].
      cbn [snd] in *. now apply sameService_trans with (set_timePatterns svc ps).
Qed.

Lemma listTodos_same (contents : list string) : forall svc,
  sameService (snd (listTodos Date_parse now svc contents)) svc.
Proof.
  induction contents as [|content rest IH]; intro svc; cbn [listTodos].
  - apply sameService_refl.
  - destruct (looksLikeTodo content); [|apply IH].
    unfold createTodoFromText.
    pose proof (set_timePatterns_same svc content) as S.
    destruct (extractDueDate Date_parse now (timePatterns svc) content) as [d ps].
    cbn [snd] in S. specialize (IH (set_timePatterns svc ps)).
    destruct (listTodos Date_parse now (set_timePatterns svc ps) rest) as [ts svc2].
    cbn [snd] in *. now apply sameService_trans with (set_timePatterns svc ps).
Qed.

Lemma checkboxTodos_same (boxes : list string) : forall svc,
  sameService (snd (checkboxTodos Date_parse now svc boxes)) svc.
Proof.
  induction boxes as [|box rest IH]; intro svc; cbn [checkboxTodos].
  - apply sameService_refl.
  - cbv zeta. unfold createTodoFromText.
    pose proof (set_timePatterns_same svc (checkboxContent box)) as S.
    destruct (extractDueDate Date_parse now (timePatterns svc) (checkboxContent box))
      as [d ps].
    cbn [snd] in S. specialize (IH (set_timePatterns svc ps)).
    destruct (checkboxTodos Date_parse now (set_timePatterns svc ps) rest) as [ts svc2].
    cbn [snd] in *. now apply sameService_trans with (set_timePatterns svc ps).
Qed.

(** X25.  [extractTodos] leaves the configuration of the service and
    its time patterns as they are, up to the [lastIndex] of the
    patterns. *)
Theorem extractTodos_keeps_service :
  forall (svc : Service) (subject body sender : JSVal),
    sameService (snd (extractTodos Date_parse now svc subject body sender)) svc.
Proof.
  intros svc subject body sender. unfold extractTodos, extractTodos_try. cbv zeta.
  set (text := ToString subject ++ " " ++ ToString body).
  unfold findActionItems.
  pose proof (findActionItems_loop_same (splitIntoSentences text) svc) as H0.
  destruct (findActionItems_loop Date_parse now svc (splitIntoSentences text)) as [a svc1].
  unfold extractExplicitTodos.
  pose proof (listTodos_same (map numberedContent (numberedItems text)) svc1) as H1.
  destruct (listTodos Date_parse now svc1 _) as [l1 svc2].
  pose proof (listTodos_same (map bulletContent (bulletItems text)) svc2) as H2.
  destruct (listTodos Date_parse now svc2 _) as [l2 svc3].
  pose proof (checkboxTodos_same (checkboxItems text) svc3) as H3.
  destruct (checkboxTodos Date_parse now svc3 _) as [l3 svc4].
  cbn [snd] in *.
  eapply sameService_trans; [exact H3|].
  eapply sameService_trans; [exact H2|].
  eapply sameService_trans; [exact H1 | exact H0].
Qed.

End Frame.

(** ** The reasoning of a classification *)

Section Indicators.
Import EmailCategorizationService SortSpec IndicatorSpec.

Lemma fold_left_collect {A : Type} (keep : A -> bool) (label : A -> string) (l : list A) :
  forall found : list string,
    fold_left (fun indicators x =>
                 if keep x then (indicators ++ [label x])%list else indicators) l found
    = (found ++ map label (filter keep l))%list.
Proof.
  induction l as [|x l IH]; intro found; cbn [fold_left filter].
  - now rewrite app_nil_r.
  - rewrite IH. destruct (keep x); [|reflexivity].
    cbn [map]. now rewrite <- app_assoc.
Qed.

Lemma Forall_firstn_of {A : Type} (P : A -> Prop) (n : nat) (l : list A) :
  Forall P l -> Forall P (firstn n l).
Proof.
  intro F. rewrite <- (firstn_skipn n l) in F. apply Forall_app in F. tauto.
Qed.

Lemma getTopIndicators_spec (patterns : CategoryPatterns) (subject body sender : string) :
  List.length (getTopIndicators patterns subject body sender) <= 3
  /\ Forall (indicator patterns subject body sender)
            (getTopIndicators patterns subject body sender).
Proof.
  unfold getTopIndicators. cbv zeta. split; [apply firstn_le_length|].
  apply Forall_firstn_of.
  rewrite (fold_left_collect (fun keyword => includes subject keyword || includes body keyword)
             (fun keyword => "keyword: " ++ keyword)).
  rewrite (fold_left_collect (fun pattern => includes sender pattern)
             (fun pattern => "sender pattern: " ++ pattern)).
  cbn [app]. apply Forall_app. split; rewrite Forall_forall; intros x Hx;
    apply in_map_iff in Hx; destruct Hx as [y [<- Hy]]; apply filter_In in Hy;
    destruct Hy as [Hin Hk].
  - left. now exists y.
  - right. now exists y.
Qed.

(** X26.  For string arguments the reasoning of [classifyEmail] is
    "Primary indicators: " followed by at most three indicators, joined
    by ", ": each is a keyword of the primary category contained in the
    subject or the body, or a sender pattern of that category contained in
    the sender, where the texts are taken as written, not in lower case as
    for the scores. *)
Theorem classifyEmail_reasoning :
  forall subject body sender : string,
  exists r indicators,
    classifyEmail (JStr subject) (JStr body) (JStr sender) = Normal r
    /\ reasoning r = "Primary indicators: " ++ join ", " indicators
    /\ List.length indicators <= 3
    /\ Forall (indicator (patternsOf categoryPatterns (category r)) subject body sender)
              indicators.
Proof.
  intros subject body sender.
  destruct (classifyEmail_strings subject body sender) as [p [_ Hr]].
  eexists. exists (getTopIndicators (patternsOf categoryPatterns (fst p)) subject body sender).
  split; [exact Hr|]. cbn [reasoning category]. split; [reflexivity|].
  apply getTopIndicators_spec.
Qed.

End Indicators.

(** ** Batches of the processor *)

Section ProcessorBatches.
Import AIEmailProcessorService ProcessorSpec.

Variable Date_parse : string -> option JSDate.
Variable prisma : list Query -> Query -> Reply.

Local Abbreviation inOrder := (processInOrder Date_parse prisma).

Lemma processInOrder_app (l1 l2 : list (Clock * EmailProcessingInput)) : forall p log,
  inOrder (l1 ++ l2) p log
  = (let '(results1, p1, log1) := inOrder l1 p log in
     let '(results2, p2, log2) := inOrder l2 p1 log1 in
     ((results1 ++ results2)%list, p2, log2)).
Proof.
  induction l1 as [|[clock email] l1 IH]; intros p log; cbn [app processInOrder].
  - now destruct (inOrder l2 p log) as [[results2 p2] log2].
  - destruct (processEmail Date_parse prisma clock email p log) as [[result p1] log1].
    rewrite IH. destruct (inOrder l1 p1 log1) as [[results1 p2] log2].
    now destruct (inOrder l2 p2 log2) as [[results2 p3] log3].
Qed.

(** Without overlap a batch is processed as its emails in order: the
    services do not call the database and the saving does not touch the
    services. *)
Lemma settleAll_inOrder (batch : list (Clock * EmailProcessingInput)) : forall p log,
  (let (threads, p1) := startAll Date_parse batch p in
   let (settled, log1) := settleAll prisma threads log in
   (map (fun entry => pushResult (finishedAt (running_clock (fst entry))) entry) settled,
    p1, log1))
  = inOrder batch p log.
Proof.
  induction batch as [|[clock email] rest IH]; intros p log;
    cbn [startAll processInOrder]; [reflexivity|].
  unfold processEmail.
  destruct (start Date_parse clock email p) as [t p1].
  specialize (IH p1). destruct (startAll Date_parse rest p1) as [ts p2].
  cbn [settleAll].
  destruct (run prisma (running_save t) log) as [saved log1].
  specialize (IH log1). destruct (settleAll prisma ts log1) as [settled log2].
  rewrite <- IH. reflexivity.
Qed.

Lemma processBatchLoop_inOrder (emails : list (Clock * EmailProcessingInput)) (n : nat) :
  1 <= n ->
  forall fuel i results p log,
    List.length emails - i <= fuel ->
    processBatchLoop Date_parse prisma fuel emails (Z.of_nat n) (Z.of_nat i) [] results p log
    = Some (let '(rest, p1, log1) := inOrder (skipn i emails) p log in
            ((results ++ rest)%list, p1, log1)).
Proof.
  intros Hn. induction fuel as [|fuel IH]; intros i results p log Hf.
  - cbn [processBatchLoop].
    destruct (Z.ltb_spec (Z.of_nat i) (Z.of_nat (List.length emails))); [lia|].
    rewrite skipn_all2 by lia. cbn [processInOrder]. now rewrite app_nil_r.
  - cbn [processBatchLoop].
    destruct (Z.ltb_spec (Z.of_nat i) (Z.of_nat (List.length emails))) as [Hi|Hi].
    + rewrite slice_chunk by lia. cbn [hd tl interleave].
      pose proof (settleAll_inOrder (firstn n (skipn i emails)) p log) as B.
      destruct (startAll Date_parse (firstn n (skipn i emails)) p) as [threads p1].
      destruct (settleAll prisma threads log) as [settled log1].
      replace (Z.of_nat i + Z.of_nat n)%Z with (Z.of_nat (i + n)) by lia.
      rewrite IH by lia.
      assert (E : inOrder (skipn i emails) p log
                  = inOrder (firstn n (skipn i emails) ++ skipn (i + n) emails) p log)
        by (rewrite (Nat.add_comm i n), <- skipn_skipn, firstn_skipn; reflexivity).
      rewrite E, processInOrder_app, <- B.
      destruct (inOrder (skipn (i + n) emails) p1 log1) as [[rest p2] log2].
      now rewrite <- app_assoc.
    + rewrite skipn_all2 by lia. cbn [processInOrder]. now rewrite app_nil_r.
Qed.

(** X28.  When the calls of a batch reach the database email by
    email, [processBatchEmails] with a batch size of at least 1 is
    [processEmail] applied to the emails in order, whatever the batch
    size: the same results, the same processor, the same calls. *)
Theorem processBatchEmails_without_overlap :
  forall (emails : list (Clock * EmailProcessingInput)) (p : Processor)
         (log : list Query) (fuel : nat),
    (1 <= batchSize (config p))%Z ->
    List.length emails <= fuel ->
    processBatchEmails Date_parse prisma fuel emails [] p log
    = Some (processInOrder Date_parse prisma emails p log).
Proof.
  intros emails p log fuel Hb Hf. unfold processBatchEmails.
  replace (batchSize (config p)) with (Z.of_nat (Z.to_nat (batchSize (config p)))) by lia.
  change 0%Z with (Z.of_nat 0).
  rewrite processBatchLoop_inOrder by lia.
  cbn [skipn app]. now destruct (inOrder emails p log) as [[rest p1] log1].
Qed.


Lemma startAll_app (l1 l2 : list (Clock * EmailProcessingInput)) : forall p,
  startAll Date_parse (l1 ++ l2) p
  = (let (threads1, p1) := startAll Date_parse l1 p in
     let (threads2, p2) := startAll Date_parse l2 p1 in
     ((threads1 ++ threads2)%list, p2)).
Proof.
  induction l1 as [|[clock email] l1 IH]; intro p; cbn [app startAll].
  - now destruct (startAll Date_parse l2 p).
  - destruct (start Date_parse clock email p) as [t p1]. rewrite IH.
    destruct (startAll Date_parse l1 p1) as [threads1 p2].
    now destruct (startAll Date_parse l2 p2).
Qed.

Lemma sameProcessing_all (threads : list Running) : Forall2 sameProcessing threads threads.
Proof. induction threads; constructor; [repeat split | assumption]. Qed.

Lemma sameProcessing_trans (l1 l2 l3 : list Running) :
  Forall2 sameProcessing l1 l2 -> Forall2 sameProcessing l2 l3 ->
  Forall2 sameProcessing l1 l3.
Proof.
  intro H. revert l3. induction H as [|a b l1 l2 [A1 [A2 [A3 A4]]] _ IH]; intros l3 H3.
  - inversion H3. constructor.
  - inversion H3 as [|? c ? l3' [B1 [B2 [B3 B4]]] H3']; subst.
    constructor; [repeat split; congruence | now apply IH].
Qed.

Lemma finish_same (a b : Running) (saved : Settled unit) :
  sameProcessing a b -> finish a saved = finish b saved.
Proof. intros [H1 [H2 [H3 H4]]]. unfold finish. now rewrite H1, H2, H3, H4. Qed.

Lemma stepAt_same (threads : list Running) : forall i log,
  Forall2 sameProcessing threads (fst (stepAt prisma i threads log)).
Proof.
  induction threads as [|t rest IH]; intros i log; cbn [stepAt]; [constructor|].
  destruct i as [|i].
  - destruct (running_save t); cbn [fst].
    + apply sameProcessing_all.
    + constructor; [repeat split | apply sameProcessing_all].
  - specialize (IH i log). destruct (stepAt prisma i rest log) as [rest' log'].
    cbn [fst] in *. constructor; [repeat split | exact IH].
Qed.

Lemma interleave_same (schedule : list nat) : forall threads log,
  Forall2 sameProcessing threads (fst (interleave prisma schedule threads log)).
Proof.
  induction schedule as [|i later IH]; intros threads log; cbn [interleave];
    [apply sameProcessing_all|].
  pose proof (stepAt_same threads i log) as S.
  destruct (stepAt prisma i threads log) as [threads1 log1]. cbn [fst] in S.
  eapply sameProcessing_trans; [exact S | apply IH].
Qed.

(** Each result of a batch is the end of the [processEmail] started for
    its email, after some outcome of the saving. *)
Lemma settleAll_finish (threads : list Running) : forall log,
  Forall2 (fun t result => exists saved, result = finish t saved)
          threads
          (map (fun entry => pushResult (finishedAt (running_clock (fst entry))) entry)
               (fst (settleAll prisma threads log))).
Proof.
  induction threads as [|t rest IH]; intro log; cbn [settleAll]; [constructor|].
  destruct (run prisma (running_save t) log) as [saved log1].
  specialize (IH log1). destruct (settleAll prisma rest log1) as [settled log2].
  cbn [fst map] in *. constructor; [|exact IH]. now exists saved.
Qed.

Lemma finished_same (l1 l2 : list Running) (results : list EmailProcessingResult) :
  Forall2 sameProcessing l1 l2 ->
  Forall2 (fun t result => exists saved, result = finish t saved) l2 results ->
  Forall2 (fun t result => exists saved, result = finish t saved) l1 results.
Proof.
  intro H. revert results. induction H as [|a b l1 l2 Hab _ IH]; intros results F.
  - inversion F. constructor.
  - inversion F as [|? r ? rs [saved ->] F']; subst.
    constructor; [|now apply IH]. exists saved. symmetry. now apply finish_same.
Qed.

Lemma processBatchLoop_finish (emails : list (Clock * EmailProcessingInput)) (n : nat) :
  1 <= n ->
  forall fuel i schedules results p log,
    List.length emails - i <= fuel ->
    exists rest log1,
      processBatchLoop Date_parse prisma fuel emails (Z.of_nat n) (Z.of_nat i)
        schedules results p log
      = Some ((results ++ rest)%list, snd (startAll Date_parse (skipn i emails) p), log1)
      /\ Forall2 (fun t result => exists saved, result = finish t saved)
                 (fst (startAll Date_parse (skipn i emails) p)) rest.
Proof.
  intros Hn. induction fuel as [|fuel IH]; intros i schedules results p log Hf.
  - cbn [processBatchLoop].
    destruct (Z.ltb_spec (Z.of_nat i) (Z.of_nat (List.length emails))); [lia|].
    rewrite skipn_all2 by lia. exists [], log. rewrite app_nil_r. split; [reflexivity|].
    constructor.
  - cbn [processBatchLoop].
    destruct (Z.ltb_spec (Z.of_nat i) (Z.of_nat (List.length emails))) as [Hi|Hi].
    + rewrite slice_chunk by lia.
      assert (E : startAll Date_parse (skipn i emails) p
                  = startAll Date_parse
                      (firstn n (skipn i emails) ++ skipn (i + n) emails) p)
        by (rewrite (Nat.add_comm i n), <- skipn_skipn, firstn_skipn; reflexivity).
      rewrite E, startAll_app. clear E.
      destruct (startAll Date_parse (firstn n (skipn i emails)) p) as [threads p1].
      pose proof (interleave_same (hd [] schedules) threads log) as S.
      destruct (interleave prisma (hd [] schedules) threads log) as [threads1 log1].
      pose proof (settleAll_finish threads1 log1) as F.
      destruct (settleAll prisma threads1 log1) as [settled log2].
      cbn [fst] in S, F.
      replace (Z.of_nat i + Z.of_nat n)%Z with (Z.of_nat (i + n)) by lia.
      destruct (IH (i + n) (tl schedules)
                  (results
                   ++ map (fun entry =>
                             pushResult (finishedAt (running_clock (fst entry))) entry)
                          settled)%list p1 log2 ltac:(lia)) as [rest [log3 [H1 H2]]].
      rewrite H1.
      destruct (startAll Date_parse (skipn (i + n) emails) p1) as [threads2 p2].
      cbn [fst snd] in *.
      eexists. exists log3. rewrite <- app_assoc. split; [reflexivity|].
      apply Forall2_app; [|exact H2]. now apply finished_same with threads1.
    + rewrite skipn_all2 by lia. exists [], log. rewrite app_nil_r.
      split; [reflexivity | constructor].
Qed.


Lemma start_email (clock : Clock) (email : EmailProcessingInput) (p : Processor) :
  running_email (fst (start Date_parse clock email p)) = email.
Proof.
  unfold start. destruct (enableTodoExtraction (config p)); [|reflexivity].
  now destruct (TodoExtractionService.extractTodos Date_parse (extractedAt clock)
                  (todoExtractionService p) _ _ _).
Qed.

Lemma startAll_emails (emails : list (Clock * EmailProcessingInput)) : forall p,
  map running_email (fst (startAll Date_parse emails p)) = map snd emails.
Proof.
  induction emails as [|[clock email] rest IH]; intro p; cbn [startAll]; [reflexivity|].
  pose proof (start_email clock email p) as E.
  destruct (start Date_parse clock email p) as [t p1].
  specialize (IH p1). destruct (startAll Date_parse rest p1) as [ts p2].
  cbn [fst map snd] in *. now rewrite E, IH.
Qed.

Lemma finished_ids (threads : list Running) (results : list EmailProcessingResult) :
  Forall2 (fun t result => exists saved, result = finish t saved) threads results ->
  map emailId results = map (fun t => id (running_email t)) threads.
Proof.
  induction 1 as [|t r threads results [saved ->] _ IH]; [reflexivity|].
  cbn [map]. rewrite IH. f_equal. now destruct saved.
Qed.

Lemma finished_agree (threads : list Running) (l1 l2 : list EmailProcessingResult) :
  Forall2 (fun t result => exists saved, result = finish t saved) threads l1 ->
  Forall2 (fun t result => exists saved, result = finish t saved) threads l2 ->
  Forall2 (fun expected result =>
             emailId result = emailId expected
             /\ (success result = true -> success expected = true -> result = expected))
          l1 l2.
Proof.
  intro H. revert l2. induction H as [|t r threads l1 [saved ->] _ IH]; intros l2 H2.
  - inversion H2. constructor.
  - inversion H2 as [|? r2 ? l2' [saved2 ->] H2']; subst.
    constructor; [|now apply IH].
    destruct saved as [[]|e], saved2 as [[]|e2]; cbn; split; try reflexivity;
      intros; try reflexivity; discriminate.
Qed.

Lemma processInOrder_finish (emails : list (Clock * EmailProcessingInput)) (p : Processor)
  (log : list Query) :
  snd (fst (processInOrder Date_parse prisma emails p log))
  = snd (startAll Date_parse emails p)
  /\ Forall2 (fun t result => exists saved, result = finish t saved)
             (fst (startAll Date_parse emails p))
             (fst (fst (processInOrder Date_parse prisma emails p log))).
Proof.
  rewrite <- settleAll_inOrder.
  destruct (startAll Date_parse emails p) as [threads p1].
  pose proof (settleAll_finish threads log) as F.
  destruct (settleAll prisma threads log) as [settled log1].
  cbn [fst snd] in *. split; [reflexivity | exact F].
Qed.

(** X27.  With a batch size of at least 1, [processBatchEmails] ends
    and returns one result per email, in the order of the emails and each
    with the id of its email, in whatever order the calls of the
    [processEmail] running side by side reach the database.  The
    processor is left as by processing the emails one after the other,
    and a result that is a success is the result of that processing in
    order whenever that one is a success as well: the order of the calls
    decides at most which savings fail. *)
Theorem processBatchEmails_results :
  forall (emails : list (Clock * EmailProcessingInput)) (schedules : list (list nat))
         (p : Processor) (log : list Query) (fuel : nat),
    (1 <= batchSize (config p))%Z ->
    List.length emails <= fuel ->
    let expected := processInOrder Date_parse prisma emails p log in
    exists results calls,
      processBatchEmails Date_parse prisma fuel emails schedules p log
      = Some (results, snd (fst expected), calls)
      /\ map emailId results = map (fun entry => id (snd entry)) emails
      /\ Forall2 (fun inOrder result =>
                    emailId result = emailId inOrder
                    /\ (success result = true -> success inOrder = true ->
                        result = inOrder))
                 (fst (fst expected)) results.
Proof.
  intros emails schedules p log fuel Hb Hf. cbv zeta. unfold processBatchEmails.
  replace (batchSize (config p)) with (Z.of_nat (Z.to_nat (batchSize (config p)))) by lia.
  change 0%Z with (Z.of_nat 0).
  destruct (processBatchLoop_finish emails (Z.to_nat (batchSize (config p))) ltac:(lia)
              fuel 0 schedules [] p log ltac:(lia)) as [results [calls [H1 H2]]].
  cbn [skipn app] in H1, H2.
  destruct (processInOrder_finish emails p log) as [P1 P2].
  exists results, calls. rewrite H1, P1. split; [reflexivity|]. split.
  - rewrite (finished_ids _ _ H2), <- (map_map running_email id), startAll_emails, map_map.
    reflexivity.
  - now apply finished_agree with (fst (startAll Date_parse emails p)).
Qed.

(** X29.  With a batch size of 0 or less and at least one email the
    loop of [processBatchEmails] never ends. *)
Theorem processBatchEmails_without_progress :
  forall (emails : list (Clock * EmailProcessingInput)) (schedules : list (list nat))
         (p : Processor) (log : list Query) (fuel : nat),
    (batchSize (config p) <= 0)%Z ->
    emails <> [] ->
    processBatchEmails Date_parse prisma fuel emails schedules p log = None.
Proof.
  intros emails schedules p log fuel Hb He. unfold processBatchEmails.
  assert (L : forall fuel i schedules results p log n,
             (n <= 0)%Z -> (i <= 0)%Z ->
             processBatchLoop Date_parse prisma fuel emails n i schedules results p log
             = None).
  { clear fuel schedules p log Hb. induction fuel as [|fuel IH];
      intros i schedules results p log n Hn Hi; cbn [processBatchLoop].
    - destruct (Z.ltb_spec i (Z.of_nat (List.length emails))); [reflexivity|].
      destruct emails; [congruence | cbn [List.length] in *; lia].
    - destruct (Z.ltb_spec i (Z.of_nat (List.length emails)));
        [|destruct emails; [congruence | cbn [List.length] in *; lia]].
      destruct (startAll Date_parse _ p) as [threads p1].
      destruct (interleave prisma _ threads log) as [threads1 log1].
      destruct (settleAll prisma threads1 log1) as [settled log2].
      apply IH; lia. }
  apply L; [exact Hb | lia].
Qed.

End ProcessorBatches.

(** ** Instances *)

(** The default threshold 0.5 keeps every candidate. *)
Lemma extractTodos_low_threshold_keeps_all_witness :
  let svc := Sample.service (5 # 10) 10 in
  (confidenceThreshold (TodoExtractionService.config svc) <= 6 # 10)%Q
  /\ exists r,
       fst (TodoExtractionService.extractTodos Sample.noDates Sample.aMonday svc
              (JStr "Weekly digest") (JStr "Please review the report by Monday")
              (JStr "news@example.com")) = Normal r
       /\ todos r
          = TodoExtractionService.deduplicateTodos
              (ExtractionSpec.candidates Sample.noDates Sample.aMonday svc
                 (JStr "Weekly digest") (JStr "Please review the report by Monday")).
Proof.
  assert (H : (5 # 10 <= 6 # 10)%Q) by (unfold Qle; simpl; lia).
  split; [exact H|].
  apply (extractTodos_low_threshold_keeps_all Sample.noDates Sample.aMonday
           (Sample.service (5 # 10) 10)). exact H.
Defined.

(** A threshold of 1 leaves no todo. *)
Lemma extractTodos_high_threshold_empty_witness :
  let svc := Sample.service 1 10 in
  (9 # 10 < confidenceThreshold (TodoExtractionService.config svc))%Q
  /\ fst (TodoExtractionService.extractTodos Sample.noDates Sample.aMonday svc
            (JStr "URGENT") (JStr "We need to fix this immediately")
            (JStr "dev@example.com"))
     = Normal {| todos := []; hasTodos := false; te_confidence := 0;
                 te_reasoning := "No actionable items detected in email content" |}.
Proof.
  assert (H : (9 # 10 < 1)%Q) by reflexivity.
  split; [exact H|].
  apply (extractTodos_high_threshold_empty Sample.noDates Sample.aMonday
           (Sample.service 1 10)). exact H.
Defined.

(** Three emails, two of them with the same id, in batches of two. *)
Lemma batchClassifyEmails_in_order_witness :
  let cfg := Sample.configWith (5 # 10) 2 in
  (1 <= batchSize cfg)%Z
  /\ List.length Sample.emails <= 3
  /\ exists results,
       Batch.batchClassifyEmails 3 cfg Sample.emails = Some (Normal results)
       /\ NoDup (map fst results)
       /\ forall k,
            Batch.Map_get k results
            = BatchSpec.lastWith k
                (map (fun email => (Batch.email_id email, BatchSpec.classified email))
                     Sample.emails).
Proof.
  assert (H1 : (1 <= 2)%Z) by lia.
  assert (H2 : List.length Sample.emails <= 3) by (simpl; lia).
  split; [exact H1|]. split; [exact H2|].
  apply (batchClassifyEmails_in_order (Sample.configWith (5 # 10) 2) Sample.emails 3);
    [exact H1 | exact H2].
Defined.

(** The same three emails through [batchExtractTodos]. *)
Lemma batchExtractTodos_in_order_witness :
  let svc := Sample.service (5 # 10) 2 in
  (1 <= batchSize (TodoExtractionService.config svc))%Z
  /\ List.length Sample.emails <= 3
  /\ exists results,
       Batch.batchExtractTodos Sample.noDates Sample.aMonday 3 svc Sample.emails
       = Some (Normal results,
               snd (BatchSpec.extractedInOrder Sample.noDates Sample.aMonday svc
                      Sample.emails))
       /\ NoDup (map fst results)
       /\ forall k,
            Batch.Map_get k results
            = BatchSpec.lastWith k
                (fst (BatchSpec.extractedInOrder Sample.noDates Sample.aMonday svc
                        Sample.emails)).
Proof.
  assert (H1 : (1 <= 2)%Z) by lia.
  assert (H2 : List.length Sample.emails <= 3) by (simpl; lia).
  split; [exact H1|]. split; [exact H2|].
  apply (batchExtractTodos_in_order Sample.noDates Sample.aMonday
           (Sample.service (5 # 10) 2) Sample.emails 3); [exact H1 | exact H2].
Defined.

(** A batch size of 0. *)
Lemma batch_without_progress_never_ends_witness :
  let svc := Sample.service (5 # 10) 0 in
  (batchSize (TodoExtractionService.config svc) <= 0)%Z
  /\ Sample.emails <> []
  /\ Batch.batchClassifyEmails 1000 (TodoExtractionService.config svc) Sample.emails = None
  /\ Batch.batchExtractTodos Sample.noDates Sample.aMonday 1000 svc Sample.emails = None.
Proof.
  assert (H1 : (0 <= 0)%Z) by lia.
  assert (H2 : Sample.emails <> []) by discriminate.
  split; [exact H1|]. split; [exact H2|].
  apply (batch_without_progress_never_ends Sample.noDates Sample.aMonday
           (Sample.service (5 # 10) 0) Sample.emails 1000); [exact H1 | exact H2].
Defined.

(** An email without subject, on a database that resolves every call. *)
Lemma processEmail_success_results_witness :
  let p := AIEmailProcessorService.new None in
  let result :=
    fst (fst (AIEmailProcessorService.processEmail Sample.noDates Sample.database
                Sample.clock Sample.email p [])) in
  AIEmailProcessorService.success result = true
  /\ category (AIEmailProcessorService.classification result) <> other
  /\ Forall (fun item => (5 # 10 <= todo_confidence item)%Q)
            (todos (AIEmailProcessorService.todoExtraction result)).
Proof.
  assert (H : AIEmailProcessorService.success
                (fst (fst (AIEmailProcessorService.processEmail Sample.noDates
                             Sample.database Sample.clock Sample.email
                             (AIEmailProcessorService.new None) []))) = true)
    by (vm_compute; reflexivity).
  split; [exact H|].
  destruct (processEmail_success_results Sample.noDates Sample.database Sample.clock
              Sample.email (AIEmailProcessorService.new None) [] H) as [C [E _]].
  split; [exact (proj2 C) | exact (proj2 E)].
Defined.

(** The threshold raised to 0.8. *)
Lemma updateProcessingConfig_takes_effect_witness :
  let updated :=
    AIEmailProcessorService.updateProcessingConfig
      (AIEmailProcessorService.new None) (Sample.onlyThreshold (8 # 10)) in
  let result :=
    fst (fst (AIEmailProcessorService.processEmail Sample.noDates Sample.database
                Sample.clock Sample.email updated [])) in
  AIEmailProcessorService.new_confidenceThreshold (Sample.onlyThreshold (8 # 10))
  = Some (8 # 10)
  /\ confidenceThreshold (AIEmailProcessorService.getProcessingConfig updated) = 8 # 10
  /\ Forall (fun item => (8 # 10 <= todo_confidence item)%Q)
            (todos (AIEmailProcessorService.todoExtraction result))
  /\ ((9 # 10 < 8 # 10)%Q -> todos (AIEmailProcessorService.todoExtraction result) = []).
Proof.
  split; [reflexivity|].
  apply (updateProcessingConfig_takes_effect Sample.noDates Sample.database
           (AIEmailProcessorService.new None) (Sample.onlyThreshold (8 # 10)) (8 # 10)
           Sample.clock Sample.email []).
  reflexivity.
Defined.

(** A processor constructed with both engines disabled. *)
Lemma processEmail_disabled_witness :
  let p := AIEmailProcessorService.new (Some Sample.bothDisabled) in
  enableCategorization (AIEmailProcessorService.config p) = false
  /\ enableTodoExtraction (AIEmailProcessorService.config p) = false
  /\ snd (AIEmailProcessorService.processEmail Sample.noDates Sample.database
            Sample.clock Sample.email p []) = []
  /\ AIEmailProcessorService.success
       (fst (fst (AIEmailProcessorService.processEmail Sample.noDates Sample.database
                    Sample.clock Sample.email p []))) = true.
Proof.
  split; [reflexivity|]. split; [reflexivity|].
  rewrite (processEmail_disabled Sample.noDates Sample.database Sample.clock Sample.email
             (AIEmailProcessorService.new (Some Sample.bothDisabled)) []
             eq_refl eq_refl).
  split; reflexivity.
Defined.

(** Two addresses, one of them with a display name. *)
Lemma parseEmailList_join_witness :
  Forall HeaderSpec.address Sample.addresses
  /\ GmailFetcherService.parseEmailList
       (GmailFetcherService.Text (join ", " Sample.addresses)) = Sample.addresses
  /\ GmailFetcherService.parseEmailList (GmailFetcherService.Texts Sample.addresses)
     = Sample.addresses.
Proof.
  assert (H : Forall HeaderSpec.address Sample.addresses)
    by (repeat constructor; vm_compute; reflexivity).
  split; [exact H|]. apply (parseEmailList_join Sample.addresses H).
Defined.

(** Three emails in batches of two, the calls of the first batch alternating. *)
Lemma processBatchEmails_results_witness :
  let p := AIEmailProcessorService.new (Some (Sample.onlyBatchSize 2)) in
  let expected :=
    ProcessorSpec.processInOrder Sample.noDates Sample.database Sample.batch p [] in
  (1 <= batchSize (AIEmailProcessorService.config p))%Z
  /\ List.length Sample.batch <= 3
  /\ exists results calls,
       AIEmailProcessorService.processBatchEmails Sample.noDates Sample.database 3
         Sample.batch [[1; 0; 1; 0]; [0]] p []
       = Some (results, snd (fst expected), calls)
       /\ map AIEmailProcessorService.emailId results
          = map (fun entry => AIEmailProcessorService.id (snd entry)) Sample.batch
       /\ Forall2 (fun inOrder result =>
                     AIEmailProcessorService.emailId result
                     = AIEmailProcessorService.emailId inOrder
                     /\ (AIEmailProcessorService.success result = true ->
                         AIEmailProcessorService.success inOrder = true ->
                         result = inOrder))
                  (fst (fst expected)) results.
Proof.
  assert (H1 : (1 <= 2)%Z) by lia.
  assert (H2 : List.length Sample.batch <= 3) by (simpl; lia).
  split; [exact H1|]. split; [exact H2|].
  apply (processBatchEmails_results Sample.noDates Sample.database Sample.batch
           [[1; 0; 1; 0]; [0]]
           (AIEmailProcessorService.new (Some (Sample.onlyBatchSize 2))) [] 3);
    [exact H1 | exact H2].
Defined.

(** The same emails, email by email. *)
Lemma processBatchEmails_without_overlap_witness :
  let p := AIEmailProcessorService.new (Some (Sample.onlyBatchSize 2)) in
  (1 <= batchSize (AIEmailProcessorService.config p))%Z
  /\ List.length Sample.batch <= 3
  /\ AIEmailProcessorService.processBatchEmails Sample.noDates Sample.database 3
       Sample.batch [] p []
     = Some (ProcessorSpec.processInOrder Sample.noDates Sample.database Sample.batch p []).
Proof.
  assert (H1 : (1 <= 2)%Z) by lia.
  assert (H2 : List.length Sample.batch <= 3) by (simpl; lia).
  split; [exact H1|]. split; [exact H2|].
  apply (processBatchEmails_without_overlap Sample.noDates Sample.database Sample.batch
           (AIEmailProcessorService.new (Some (Sample.onlyBatchSize 2))) [] 3);
    [exact H1 | exact H2].
Defined.

(** A processor constructed with a batch size of 0. *)
Lemma processBatchEmails_without_progress_witness :
  let p := AIEmailProcessorService.new (Some (Sample.onlyBatchSize 0)) in
  (batchSize (AIEmailProcessorService.config p) <= 0)%Z
  /\ Sample.batch <> []
  /\ AIEmailProcessorService.processBatchEmails Sample.noDates Sample.database 1000
       Sample.batch [] p [] = None.
Proof.
  assert (H1 : (0 <= 0)%Z) by lia.
  assert (H2 : Sample.batch <> []) by discriminate.
  split; [exact H1|]. split; [exact H2|].
  apply (processBatchEmails_without_progress Sample.noDates Sample.database Sample.batch []
           (AIEmailProcessorService.new (Some (Sample.onlyBatchSize 0))) [] 1000);
    [exact H1 | exact H2].
Defined.
